(** * A market-data simulator and its stream hub: the code, embedded

    The development follows three source files of the repository:
    - the cluster engine (class [ClusterEngine]): ATR, the smart-refresh
      gate, adaptive clusters, the depth filter, the volume profile;
    - [server/testDataGenerator.ts] (class [TestDataGenerator]): the price
      process of one symbol, historical backfill and realtime updates;
    - the routes file (class [TradingDataManager]): connections,
      subscriptions, one timer per subscription key, broadcast.

    Conventions of the embedding.
    - A JavaScript [number] is modelled by the type [number] below: a
      rational, one of the two infinities, or NaN.  Arithmetic on prices,
      volumes and ratios is exact (no rounding, no overflow) and zero
      carries no sign; division by zero, the arithmetic of the infinities
      and the propagation of NaN follow IEEE 754 as JavaScript does.
    - Integers are rounded as binary64 rounds them.  The clock of a
      generator and the length of an interval are integers that a request
      can make as large as it likes: [parseInt], [getIntervalInSeconds],
      [getIntervalMs] and the cursor of [generateHistoricalCandles] hold
      the double nearest to the exact integer ([JS.number_value],
      [JS.rounded]), which is the integer itself up to 2^53 and an
      infinity past the largest double.
    - [Math.random()] reads the next value of a source of draws
      ([Rng]); a method that draws returns the advanced source.
    - [Date.now()] is an argument of the methods that read the clock.
    - A method that mutates [this] takes the object and returns it.
    - [Map<string, _>] is a [gmap string _], [Set<WebSocket>] a [gset] of
      connection identifiers. *)

From Stdlib Require Import QArith Qabs Qround Qminmax Lqa Lia ZArith String Ascii List Sorted Permutation.
From stdpp Require Import base gmap strings list.
Import ListNotations.

(* ================================================================== *)
(** * Part I: definitions *)
(* ================================================================== *)

(** ** JavaScript numbers *)

Module JS.

Inductive number : Type :=
| NaN
| Inf (negative : bool)
| Fin (q : Q).

Definition is_zero (q : Q) : bool := Qeq_bool q 0.
Definition is_neg (q : Q) : bool := negb (Qle_bool 0 q).

Definition neg (a : number) : number :=
  match a with
  | NaN => NaN
  | Inf s => Inf (negb s)
  | Fin q => Fin (- q)
  end.

Definition add (a b : number) : number :=
  match a, b with
  | NaN, _ | _, NaN => NaN
  | Inf s, Inf t => if Bool.eqb s t then Inf s else NaN
  | Inf s, Fin _ => Inf s
  | Fin _, Inf t => Inf t
  | Fin p, Fin q => Fin (p + q)
  end.

Definition sub (a b : number) : number := add a (neg b).

Definition mul (a b : number) : number :=
  match a, b with
  | NaN, _ | _, NaN => NaN
  | Inf s, Inf t => Inf (xorb s t)
  | Inf s, Fin q => if is_zero q then NaN else Inf (xorb s (is_neg q))
  | Fin p, Inf t => if is_zero p then NaN else Inf (xorb (is_neg p) t)
  | Fin p, Fin q => Fin (p * q)
  end.

Definition div (a b : number) : number :=
  match a, b with
  | NaN, _ | _, NaN => NaN
  | Inf _, Inf _ => NaN
  | Inf s, Fin q => Inf (xorb s (is_neg q))
  | Fin _, Inf _ => Fin 0
  | Fin p, Fin q =>
      if is_zero q then (if is_zero p then NaN else Inf (is_neg p))
      else Fin (p / q)
  end.

(** [Math.abs], [Math.floor] *)
Definition abs (a : number) : number :=
  match a with
  | NaN => NaN
  | Inf _ => Inf false
  | Fin q => Fin (Qabs q)
  end.

Definition floor (a : number) : number :=
  match a with
  | Fin q => Fin (inject_Z (Qfloor q))
  | _ => a
  end.

(** The relational operators; every comparison with NaN is false. *)
Definition lt (a b : number) : bool :=
  match a, b with
  | NaN, _ | _, NaN => false
  | Inf s, Inf t => s && negb t
  | Inf s, Fin _ => s
  | Fin _, Inf t => negb t
  | Fin p, Fin q => negb (Qle_bool q p)
  end.

Definition le (a b : number) : bool :=
  match a, b with
  | NaN, _ | _, NaN => false
  | Inf s, Inf t => s || negb t
  | Inf s, Fin _ => s
  | Fin _, Inf t => negb t
  | Fin p, Fin q => Qle_bool p q
  end.

Definition gt (a b : number) : bool := lt b a.
Definition ge (a b : number) : bool := le b a.

(** [a === b] on numbers. *)
Definition eqb (a b : number) : bool :=
  match a, b with
  | Inf s, Inf t => Bool.eqb s t
  | Fin p, Fin q => Qeq_bool p q
  | _, _ => false
  end.

(** [Math.max] and [Math.min] of two arguments: NaN if either is. *)
Definition max (a b : number) : number :=
  match a, b with
  | NaN, _ | _, NaN => NaN
  | _, _ => if lt a b then b else a
  end.

Definition min (a b : number) : number :=
  match a, b with
  | NaN, _ | _, NaN => NaN
  | _, _ => if lt b a then b else a
  end.

Definition max3 (a b c : number) : number := max (max a b) c.

(** What [max] and [min] compute on two finite numbers. *)
Definition qmax (p q : Q) : Q := if Qle_bool q p then p else q.
Definition qmin (p q : Q) : Q := if Qle_bool p q then p else q.

(** [Math.max(...xs)] and [Math.min(...xs)] of a spread array: the
    neutral elements are -Infinity and +Infinity. *)
Definition max_list (xs : list number) : number := foldr max (Inf true) xs.
Definition min_list (xs : list number) : number := foldr min (Inf false) xs.

(** ToBoolean on a number: NaN and zero are falsy. *)
Definition truthy (a : number) : bool :=
  match a with
  | NaN => false
  | Inf _ => true
  | Fin q => negb (is_zero q)
  end.

(** [a || d] on a possibly undefined number. *)
Definition or_default (a : option number) (d : number) : number :=
  match a with
  | Some x => if truthy x then x else d
  | None => d
  end.

Definition of_nat (n : nat) : number := Fin (inject_Z (Z.of_nat n)).
Definition of_Z (z : Z) : number := Fin (inject_Z z).

(** The Number value of a mathematical integer: the binary64 nearest to
    it, a tie going to the even significand, and an infinity past the
    largest double.  With [e] bits too many for a significand of 53, the
    integer is [q * 2^e + r]; [q] goes up when [r] is above half of
    [2^e], or is that half and [q] is odd.  An integer of magnitude up
    to 2^53 is its own value. *)
Definition number_value (z : Z) : number :=
  let a := Z.abs z in
  let e := (Z.log2 a - 52)%Z in
  if (e <=? 0)%Z then Fin (inject_Z z)
  else
    let q := Z.shiftr a e in
    let r := Z.land a (Z.ones e) in
    let half := Z.shiftl 1 (e - 1) in
    let q :=
      if (half <? r)%Z || ((r =? half)%Z && Z.odd q) then (q + 1)%Z else q in
    let m := Z.shiftl q e in
    if (Z.shiftl 1 1024 <=? m)%Z then Inf (z <? 0)%Z
    else Fin (inject_Z (Z.sgn z * m)).

(** The result of an operation on integers: where the exact result is
    an integer, the double the code holds is its Number value.  Results
    that are not integers are kept exact. *)
Definition rounded (a : number) : number :=
  match a with
  | Fin q =>
      if Qeq_bool (inject_Z (Qfloor q)) q then number_value (Qfloor q) else a
  | _ => a
  end.

Definition finite (a : number) : Prop :=
  match a with Fin _ => True | _ => False end.

(** The source of [Math.random()]: [draws] lists the values the calls
    return, [cursor] counts the calls made so far. *)
Record Rng : Type := mkRng { draws : nat -> Q; cursor : nat }.

Definition random (r : Rng) : number * Rng :=
  (Fin (draws r (cursor r)), mkRng (draws r) (S (cursor r))).

(** Every draw lies in [0, 1), as [Math.random] promises. *)
Definition unit_draws (r : Rng) : Prop :=
  forall n, (0 <= draws r n /\ draws r n < 1)%Q.

(** [Array.prototype.sort(compare)]: the sort is stable, and [before a b]
    says that [compare(a, b)] is negative.  For a comparator that is a
    total preorder the result is the stable sorted permutation, which
    insertion from the left computes. *)
Section Sort.
Context {A : Type} (before : A -> A -> bool).

Fixpoint sort_insert (x : A) (l : list A) : list A :=
  match l with
  | [] => [x]
  | y :: l' => if before x y then x :: y :: l' else y :: sort_insert x l'
  end.

Definition sort (l : list A) : list A :=
  fold_left (fun acc x => sort_insert x acc) l [].

End Sort.

(** [Array.prototype.slice(0, n)] and [slice(-n)]. *)
Definition slice_first {A} (n : nat) (l : list A) : list A := firstn n l.
Definition slice_last {A} (n : nat) (l : list A) : list A :=
  skipn (length l - n) l.

(** [Array.prototype.shift()] as a statement: drops the first element. *)
Definition shift {A} (l : list A) : list A := tl l.

End JS.

Declare Scope js_scope.
Delimit Scope js_scope with js.
Bind Scope js_scope with JS.number.
Infix "+" := JS.add : js_scope.
Infix "-" := JS.sub : js_scope.
Infix "*" := JS.mul : js_scope.
Infix "/" := JS.div : js_scope.
Notation "- a" := (JS.neg a) : js_scope.
Infix "<?" := JS.lt : js_scope.
Infix "<=?" := JS.le : js_scope.
Infix ">?" := JS.gt : js_scope.
Infix ">=?" := JS.ge : js_scope.
Infix "=?" := JS.eqb : js_scope.

Export JS (number, NaN, Inf, Fin, Rng, mkRng, draws, cursor).

(** ** The shared schema

    The types of [@shared/schema] as the three classes use them.  The
    record fields are the properties the code reads and writes; an absent
    [clusters] property is the empty list ([candle.clusters?.forEach]). *)

Module Cluster.
Record t : Type := mk {
  price : number;
  volume : number;
  buyVolume : number;
  sellVolume : number;
  delta : number;
  aggression : number;
}.
End Cluster.

Module CandleData.
Record t : Type := mk {
  time : number;
  open : number;
  high : number;
  low : number;
  close : number;
  volume : number;
  buyVolume : number;
  sellVolume : number;
  delta : number;
  clusters : list Cluster.t;
}.
End CandleData.

Module OrderBookLevel.
Record t : Type := mk { price : number; volume : number }.
End OrderBookLevel.

Module OrderBookData.
Record t : Type := mk {
  bids : list OrderBookLevel.t;
  asks : list OrderBookLevel.t;
  lastUpdate : number;
}.
End OrderBookData.

Module ProfileLevel.
Record t : Type := mk {
  price : number;
  volume : number;
  buyVolume : number;
  sellVolume : number;
}.
End ProfileLevel.

(** ** class ClusterEngine *)

Module ClusterEngine.

Record t : Type := mk {
  atrCache : gmap string number;
  lastProcessedPrice : gmap string number;
  clusterCache : gmap string (list CandleData.t * number);
}.

(** [new ClusterEngine()] *)
Definition new : t := mk ∅ ∅ ∅.

Definition CACHE_TTL : number := Fin 60000.
Definition PRICE_CHANGE_THRESHOLD : number := Fin 0.0005.

(** The body of the loop of [calculateATR] at index [i]. *)
Definition calculateATR_step (candles : list CandleData.t)
    (trueRanges : list number) (i : nat) : list number :=
  match candles !! i, candles !! (i - 1)%nat with
  | Some current, Some previous =>
      let tr1 := (CandleData.high current - CandleData.low current)%js in
      let tr2 := JS.abs (CandleData.high current - CandleData.close previous) in
      let tr3 := JS.abs (CandleData.low current - CandleData.close previous) in
      trueRanges ++ [JS.max3 tr1 tr2 tr3]
  | _, _ => trueRanges (* not reached: 1 <= i < candles.length *)
  end.

(** [calculateATR(candles, period = 14)]; [None] is the omitted
    argument.  The loop runs for [i = 1 .. min(length, period + 1) - 1]. *)
Definition calculateATR (candles : list CandleData.t) (period : option nat)
    : number :=
  let period := default 14%nat period in
  if (length candles <? 2)%nat then Fin 0.001 else
  let trueRanges :=
    fold_left (calculateATR_step candles)
      (seq 1 (Nat.min (length candles) (period + 1) - 1)) [] in
  (fold_left (fun sum tr => sum + tr) trueRanges (Fin 0)
   / JS.of_nat (length trueRanges))%js.

Definition record_price (this : t) (symbol : string) (p : number) : t :=
  mk (atrCache this) (<[symbol := p]> (lastProcessedPrice this))
     (clusterCache this).

(** [shouldRefreshClusters(symbol, currentPrice)]: the result and the
    engine afterwards.  [!lastPrice] holds for a missing entry, for NaN
    and for zero. *)
Definition shouldRefreshClusters (this : t) (symbol : string)
    (currentPrice : number) : bool * t :=
  match lastProcessedPrice this !! symbol with
  | Some lastPrice =>
      if negb (JS.truthy lastPrice) then
        (true, record_price this symbol currentPrice)
      else
        let priceChange := (JS.abs (currentPrice - lastPrice) / lastPrice)%js in
        if (priceChange >? PRICE_CHANGE_THRESHOLD)%js then
          (true, record_price this symbol currentPrice)
        else (false, this)
  | None => (true, record_price this symbol currentPrice)
  end.

(** One pass of the body of the loop of [generateAdaptiveClusters]. *)
Definition adaptive_cluster
    (low high totalVolume totalBuyVolume currentPrice : number)
    (priceRange optimalClusters step : number)
    (i : nat) (rng : Rng) : Cluster.t * Rng :=
  let price := (low + step * JS.of_nat i + step / Fin 2)%js in
  let distanceFromCurrent := JS.abs (price - currentPrice) in
  let distanceFromMiddle := JS.abs (price - (high + low) / Fin 2) in
  let currentPriceWeight :=
    (Fin 1 / (Fin 1 + distanceFromCurrent / currentPrice))%js in
  let middleWeight :=
    (Fin 1 - distanceFromMiddle / (priceRange / Fin 2))%js in
  let importance :=
    (currentPriceWeight * Fin 0.6 + middleWeight * Fin 0.4)%js in
  let '(r1, rng) := JS.random rng in
  let volumeMultiplier := (importance * (Fin 0.7 + r1 * Fin 0.6))%js in
  let volume := (totalVolume / optimalClusters * volumeMultiplier)%js in
  let baseRatio := (totalBuyVolume / totalVolume)%js in
  let pricePosition := ((price - low) / priceRange)%js in
  let positionBias :=
    if (pricePosition <? Fin 0.5)%js
    then ((Fin 1 - pricePosition) * Fin 0.2)%js
    else (- pricePosition * Fin 0.2)%js in
  let '(r2, rng) := JS.random rng in
  let buyRatio :=
    JS.max (Fin 0.1)
      (JS.min (Fin 0.9)
         (baseRatio + positionBias + (r2 - Fin 0.5) * Fin 0.1)) in
  let buyVolume := (volume * buyRatio)%js in
  let sellVolume := (volume - buyVolume)%js in
  let delta := (buyVolume - sellVolume)%js in
  let aggression :=
    if (volume >? Fin 0)%js then (JS.abs delta / volume)%js else Fin 0 in
  (Cluster.mk price volume buyVolume sellVolume delta aggression, rng).

(** [for (let i = 0; i < optimalClusters; i++)]: the test is evaluated
    before every pass; [fuel] bounds the number of passes. *)
Fixpoint adaptive_loop (fuel : nat)
    (low high totalVolume totalBuyVolume currentPrice : number)
    (priceRange optimalClusters step : number)
    (i : nat) (clusters : list Cluster.t) (rng : Rng)
    : list Cluster.t * Rng :=
  match fuel with
  | O => (clusters, rng)
  | S fuel' =>
      if (JS.of_nat i <? optimalClusters)%js then
        let '(c, rng) :=
          adaptive_cluster low high totalVolume totalBuyVolume currentPrice
            priceRange optimalClusters step i rng in
        adaptive_loop fuel' low high totalVolume totalBuyVolume currentPrice
          priceRange optimalClusters step (S i) (clusters ++ [c]) rng
      else (clusters, rng)
  end.

(** [optimalClusters] is NaN or lies in [5, 25], so 25 passes exhaust
    the loop (lemma [adaptive_loop_exits]). *)
Definition adaptive_fuel : nat := 25.

Definition optimal_clusters (priceRange baseClusterSize : number) : number :=
  JS.max (Fin 5) (JS.min (Fin 25) (JS.floor (priceRange / baseClusterSize))).

Definition by_volume_desc (a b : Cluster.t) : bool :=
  (Cluster.volume b - Cluster.volume a <? Fin 0)%js.

Definition generateAdaptiveClusters
    (low high totalVolume totalBuyVolume totalSellVolume atr currentPrice
       : number) (rng : Rng) : list Cluster.t * Rng :=
  let baseClusterSize := (atr * Fin 0.5)%js in
  let priceRange := (high - low)%js in
  let optimalClusters := optimal_clusters priceRange baseClusterSize in
  let step := (priceRange / optimalClusters)%js in
  let '(clusters, rng) :=
    adaptive_loop adaptive_fuel low high totalVolume totalBuyVolume
      currentPrice priceRange optimalClusters step 0 [] rng in
  (JS.sort by_volume_desc clusters, rng).

(** [generateEnhancedCandle(time, startPrice, interval, historicalCandles)] *)
Definition generateEnhancedCandle (time startPrice : number)
    (interval : string) (historicalCandles : list CandleData.t) (rng : Rng)
    : CandleData.t * Rng :=
  let atr := calculateATR historicalCandles None in
  let volatility := JS.max (Fin 0.005) (atr / startPrice * Fin 2) in
  let '(r, rng) := JS.random rng in
  let trend := ((r - Fin 0.5) * Fin 0.005)%js in
  let open := startPrice in
  let '(r, rng) := JS.random rng in
  let priceChange := (startPrice * (trend + (r - Fin 0.5) * volatility))%js in
  let close := JS.max (open + priceChange) (Fin 1) in
  let '(r, rng) := JS.random rng in
  let atrMultiplier := (Fin 0.5 + r)%js in
  let wickRange := (atr * atrMultiplier)%js in
  let '(r, rng) := JS.random rng in
  let high := (JS.max open close + r * wickRange)%js in
  let '(r, rng) := JS.random rng in
  let low := (JS.min open close - r * wickRange)%js in
  let '(r, rng) := JS.random rng in
  let baseVolume := (Fin 50 + r * Fin 150)%js in
  let volatilityMultiplier :=
    (Fin 1 + JS.abs (priceChange / startPrice) * Fin 20)%js in
  let volume := (baseVolume * volatilityMultiplier)%js in
  let isGreen := (close >? open)%js in
  let '(r, rng) := JS.random rng in
  let buyRatio :=
    if isGreen then (Fin 0.55 + r * Fin 0.25)%js
    else (Fin 0.25 + r * Fin 0.3)%js in
  let buyVolume := (volume * buyRatio)%js in
  let sellVolume := (volume - buyVolume)%js in
  let delta := (buyVolume - sellVolume)%js in
  let '(clusters, rng) :=
    generateAdaptiveClusters low high volume buyVolume sellVolume atr close
      rng in
  (CandleData.mk time open high low close volume buyVolume sellVolume delta
     clusters, rng).

Definition bids_desc (a b : OrderBookLevel.t) : bool :=
  (OrderBookLevel.price b - OrderBookLevel.price a <? Fin 0)%js.
Definition asks_asc (a b : OrderBookLevel.t) : bool :=
  (OrderBookLevel.price a - OrderBookLevel.price b <? Fin 0)%js.

(** [filterDepth(orderBook, centerPrice, rangePercent = 2)]; [None] is
    the omitted third argument. *)
Definition filterDepth (orderBook : OrderBookData.t) (centerPrice : number)
    (rangePercent : option number) : OrderBookData.t :=
  let rangePercent := default (Fin 2) rangePercent in
  let minPrice := (centerPrice * (Fin 1 - rangePercent / Fin 100))%js in
  let maxPrice := (centerPrice * (Fin 1 + rangePercent / Fin 100))%js in
  let filteredBids :=
    JS.slice_first 50
      (JS.sort bids_desc
         (List.filter
            (fun level =>
               (OrderBookLevel.price level >=? minPrice)%js
               && (OrderBookLevel.price level <=? centerPrice)%js)
            (OrderBookData.bids orderBook))) in
  let filteredAsks :=
    JS.slice_first 50
      (JS.sort asks_asc
         (List.filter
            (fun level =>
               (OrderBookLevel.price level <=? maxPrice)%js
               && (OrderBookLevel.price level >=? centerPrice)%js)
            (OrderBookData.asks orderBook))) in
  OrderBookData.mk filteredBids filteredAsks (OrderBookData.lastUpdate orderBook).

(** The index a number denotes in [profile[levelIndex]]: a non-negative
    integer. *)
Definition to_index (a : number) : option nat :=
  match a with
  | Fin q =>
      if Qeq_bool q (inject_Z (Qfloor q)) && (0 <=? Qfloor q)%Z
      then Some (Z.to_nat (Qfloor q)) else None
  | _ => None
  end.

Definition accumulate (cluster : Cluster.t) (level : ProfileLevel.t)
    : ProfileLevel.t :=
  ProfileLevel.mk (ProfileLevel.price level)
    (ProfileLevel.volume level + Cluster.volume cluster)
    (ProfileLevel.buyVolume level + Cluster.buyVolume cluster)
    (ProfileLevel.sellVolume level + Cluster.sellVolume cluster).

(** The callback of the inner [forEach] of [generateVolumeProfile]. *)
Definition profile_cluster (minPrice priceStep : number) (priceLevels : nat)
    (profile : list ProfileLevel.t) (cluster : Cluster.t)
    : list ProfileLevel.t :=
  let levelIndex := JS.floor ((Cluster.price cluster - minPrice) / priceStep) in
  if (levelIndex >=? Fin 0)%js && (levelIndex <? JS.of_nat priceLevels)%js then
    match to_index levelIndex with
    | Some k => alter (accumulate cluster) k profile
    | None => profile (* not reached: the index is an integer in range *)
    end
  else profile.

(** [generateVolumeProfile(candles, priceLevels = 50)] *)
Definition generateVolumeProfile (candles : list CandleData.t)
    (priceLevels : option nat) : list ProfileLevel.t :=
  let priceLevels := default 50%nat priceLevels in
  if (length candles =? 0)%nat then [] else
  let minPrice := JS.min_list (map CandleData.low candles) in
  let maxPrice := JS.max_list (map CandleData.high candles) in
  let priceStep := ((maxPrice - minPrice) / JS.of_nat priceLevels)%js in
  let profile :=
    map (fun i =>
           ProfileLevel.mk
             (minPrice + priceStep * JS.of_nat i + priceStep / Fin 2)
             (Fin 0) (Fin 0) (Fin 0))
        (seq 0 priceLevels) in
  let profile :=
    fold_left
      (fun profile candle =>
         fold_left (profile_cluster minPrice priceStep priceLevels)
           (CandleData.clusters candle) profile)
      candles profile in
  List.filter (fun level => (ProfileLevel.volume level >? Fin 0)%js) profile.

(** [updateATRCache(symbol, candles)] and [getCachedATR(symbol)] *)
Definition updateATRCache (this : t) (symbol : string)
    (candles : list CandleData.t) : t :=
  let atr := calculateATR candles None in
  mk (<[symbol := atr]> (atrCache this)) (lastProcessedPrice this)
     (clusterCache this).

Definition getCachedATR (this : t) (symbol : string) : number :=
  JS.or_default (atrCache this !! symbol) (Fin 0.001).

Definition set_clusterCache (this : t)
    (cache : gmap string (list CandleData.t * number)) : t :=
  mk (atrCache this) (lastProcessedPrice this) cache.

(** The template literal [`${symbol}_${interval}_${fromTime}_${toTime}`];
    [show] is the conversion of a number to a string that the literal
    applies to the two times. *)
Definition cacheKey (show : number -> string) (symbol interval : string)
    (fromTime toTime : number) : string :=
  (symbol ++ "_" ++ interval ++ "_" ++ show fromTime ++ "_" ++ show toTime)%string.

(** [preloadHistoricalClusters(symbol, interval, fromTime, toTime)] at
    clock [now]: the data returned and the engine afterwards. *)
Definition preloadHistoricalClusters (show : number -> string) (this : t)
    (symbol interval : string) (fromTime toTime : number) (now : number)
    : list CandleData.t * t :=
  let cacheKey := cacheKey show symbol interval fromTime toTime in
  let load :=
    let data : list CandleData.t := [] in
    (data,
     set_clusterCache this (<[cacheKey := (data, now)]> (clusterCache this))) in
  match clusterCache this !! cacheKey with
  | Some (data, timestamp) =>
      if (now - timestamp <? CACHE_TTL)%js then (data, this) else load
  | None => load
  end.

(** [cleanupCache()] at clock [now]: the keys to delete are collected
    first and deleted afterwards. *)
Definition cleanupCache (this : t) (now : number) : t :=
  let keysToDelete :=
    map fst
      (List.filter
         (fun '(_, (_, timestamp)) => (now - timestamp >? CACHE_TTL)%js)
         (map_to_list (clusterCache this))) in
  set_clusterCache this
    (fold_left (fun cache key => delete key cache) keysToDelete
       (clusterCache this)).

End ClusterEngine.

(** ** [parseInt] and string helpers *)

Module JSString.

Definition is_space (c : ascii) : bool :=
  let n := nat_of_ascii c in
  ((n =? 9) || (n =? 10) || (n =? 11) || (n =? 12) || (n =? 13) || (n =? 32))%nat.

Fixpoint trim_start (s : string) : string :=
  match s with
  | String c s' => if is_space c then trim_start s' else s
  | EmptyString => s
  end.

(** The value of a digit in radix [radix], if it is one. *)
Definition digit_value (radix : nat) (c : ascii) : option Z :=
  let n := nat_of_ascii c in
  let v :=
    if ((48 <=? n) && (n <=? 57))%nat then Some (n - 48)%nat
    else if ((97 <=? n) && (n <=? 122))%nat then Some (n - 87)%nat
    else if ((65 <=? n) && (n <=? 90))%nat then Some (n - 55)%nat
    else None in
  match v with
  | Some d => if (d <? radix)%nat then Some (Z.of_nat d) else None
  | None => None
  end.

(** The longest prefix of digits, read from the left; [None] when the
    string does not start with a digit. *)
Fixpoint digits (radix : nat) (acc : option Z) (s : string) : option Z :=
  match s with
  | String c s' =>
      match digit_value radix c with
      | Some d =>
          digits radix
            (Some (Z.of_nat radix * default 0%Z acc + d)%Z) s'
      | None => acc
      end
  | EmptyString => acc
  end.

(** [parseInt(s)] without a radix: leading white space, a sign, an
    optional [0x] prefix, then digits; NaN when there is no digit, and
    otherwise the Number value of the integer the digits denote, which
    is that integer up to 2^53, the nearest double above, and Infinity
    past the largest double.  White space is the ASCII white space. *)
Definition parseInt (s : string) : number :=
  let s := trim_start s in
  let '(sign, s) :=
    match s with
    | String "-" s' => ((-1)%Z, s')
    | String "+" s' => (1%Z, s')
    | _ => (1%Z, s)
    end in
  let '(radix, s) :=
    match s with
    | String "0" (String "x" s') => (16%nat, s')
    | String "0" (String "X" s') => (16%nat, s')
    | _ => (10%nat, s)
    end in
  match digits radix None s with
  | Some z => JS.number_value (sign * z)
  | None => NaN
  end.

(** [s.slice(-1)]: the last character, or the empty string. *)
Fixpoint slice_last1 (s : string) : string :=
  match s with
  | EmptyString => EmptyString
  | String c EmptyString => s
  | String _ s' => slice_last1 s'
  end.

End JSString.

(** ** class TestDataGenerator *)

Module TestDataGenerator.

Record t : Type := mk {
  currentPrice : number;
  currentTime : number;
  priceHistory : list number;
  clusterEngine : ClusterEngine.t;
  historicalCandles : list CandleData.t;
}.

(** [new TestDataGenerator(initialPrice)] at clock [now] (milliseconds). *)
Definition new (initialPrice : number) (now : number) : t :=
  mk initialPrice (JS.floor (now / Fin 1000)) (repeat initialPrice 100)
     ClusterEngine.new [].

(** [getIntervalInSeconds(interval)] *)
Definition getIntervalInSeconds (interval : string) : number :=
  let value := JSString.parseInt interval in
  let unit := JSString.slice_last1 interval in
  if String.eqb unit "s" then value
  else if String.eqb unit "m" then JS.rounded (value * Fin 60)%js
  else if String.eqb unit "h" then JS.rounded (value * Fin 3600)%js
  else if String.eqb unit "d" then JS.rounded (value * Fin 86400)%js
  else if String.eqb unit "w" then JS.rounded (value * Fin 604800)%js
  else if String.eqb unit "M" then JS.rounded (value * Fin 2629746)%js
  else Fin 60.

(** [static getIntervalMs(interval)] *)
Definition getIntervalMs (interval : string) : number :=
  JS.rounded (getIntervalInSeconds interval * Fin 1000)%js.

(** [generateSingleCandle(time, startPrice, interval)] *)
Definition generateSingleCandle (this : t) (time startPrice : number)
    (interval : string) (rng : Rng) : CandleData.t * t * Rng :=
  let '(candle, rng) :=
    ClusterEngine.generateEnhancedCandle time startPrice interval
      (historicalCandles this) rng in
  let history := historicalCandles this ++ [candle] in
  let history :=
    if (100 <? length history)%nat then JS.shift history else history in
  (candle,
   mk (currentPrice this) (currentTime this) (priceHistory this)
      (clusterEngine this) history,
   rng).

(** The loop of [generateHistoricalCandles]; [n] passes remain. *)
Fixpoint historical_loop (n : nat) (interval : string)
    (this : t) (candles : list CandleData.t) (time price : number)
    (rng : Rng) : list CandleData.t * number * number * t * Rng :=
  match n with
  | O => (candles, time, price, this, rng)
  | S n' =>
      let '(candle, this, rng) :=
        generateSingleCandle this time price interval rng in
      let candles := candles ++ [candle] in
      let price := CandleData.close candle in
      let time := JS.rounded (time + getIntervalInSeconds interval)%js in
      historical_loop n' interval this candles time price rng
  end.

(** [generateHistoricalCandles(count, interval)] for a count that is a
    non-negative integer. *)
Definition generateHistoricalCandles (this : t) (count : nat)
    (interval : string) (rng : Rng) : list CandleData.t * t * Rng :=
  let time :=
    JS.rounded
      (currentTime this
       - JS.rounded (JS.of_nat count * getIntervalInSeconds interval))%js in
  let '(r, rng) := JS.random rng in
  let price := (currentPrice this * (Fin 0.95 + r * Fin 0.1))%js in
  let '(candles, time, price, this, rng) :=
    historical_loop count interval this [] time price rng in
  (candles,
   mk price time (priceHistory this) (clusterEngine this)
      (historicalCandles this),
   rng).

(** One side of the book in [generateOrderBook]: pass [i] of the loop
    pushes the level at distance [i]. *)
Fixpoint book_side (n i : nat) (start spread : number) (ask : bool)
    (levels : list OrderBookLevel.t) (rng : Rng)
    : list OrderBookLevel.t * Rng :=
  match n with
  | O => (levels, rng)
  | S n' =>
      let offset := (JS.of_nat i * spread * Fin 0.1)%js in
      let price := if ask then (start + offset)%js else (start - offset)%js in
      let '(r, rng) := JS.random rng in
      let volume :=
        ((Fin 10 + r * Fin 50) * (Fin 1 - JS.of_nat i * Fin 0.05))%js in
      book_side n' (S i) start spread ask
        (levels ++ [OrderBookLevel.mk price volume]) rng
  end.

(** [generateOrderBook(depth, applyDepthFilter)] at clock [now]. *)
Definition generateOrderBook (this : t) (depth : nat)
    (applyDepthFilter : bool) (now : number) (rng : Rng)
    : OrderBookData.t * Rng :=
  let spread := (currentPrice this * Fin 0.0001)%js in
  let bidPrice := (currentPrice this - spread / Fin 2)%js in
  let askPrice := (currentPrice this + spread / Fin 2)%js in
  let '(bids, rng) := book_side depth 0 bidPrice spread false [] rng in
  let '(asks, rng) := book_side depth 0 askPrice spread true [] rng in
  let orderBook := OrderBookData.mk bids asks now in
  if applyDepthFilter then
    (ClusterEngine.filterDepth orderBook (currentPrice this) (Some (Fin 1.5)),
     rng)
  else (orderBook, rng).

(** [updateCurrentPrice(newPrice)] *)
Definition updateCurrentPrice (this : t) (newPrice : number) : t :=
  let history := priceHistory this ++ [newPrice] in
  let history :=
    if (1000 <? length history)%nat then JS.shift history else history in
  mk newPrice (currentTime this) history (clusterEngine this)
     (historicalCandles this).

(** [simulatePriceMovement()] *)
Definition simulatePriceMovement (this : t) (rng : Rng) : number * t * Rng :=
  let volatility := Fin 0.001 in
  let meanReversion := Fin 0.1 in
  let recentAverage :=
    (fold_left (fun a b => a + b) (JS.slice_last 20 (priceHistory this))
       (Fin 0) / Fin 20)%js in
  let meanReversionForce :=
    ((recentAverage - currentPrice this) / currentPrice this
     * meanReversion)%js in
  let '(r, rng) := JS.random rng in
  let randomWalk := ((r - Fin 0.5) * volatility)%js in
  let priceChange := (meanReversionForce + randomWalk)%js in
  let this :=
    mk (JS.max (currentPrice this * (Fin 1 + priceChange)) (Fin 1))
       (currentTime this) (priceHistory this) (clusterEngine this)
       (historicalCandles this) in
  let this := updateCurrentPrice this (currentPrice this) in
  (currentPrice this, this, rng).

Definition set_engine (this : t) (e : ClusterEngine.t) : t :=
  mk (currentPrice this) (currentTime this) (priceHistory this) e
     (historicalCandles this).

(** [generateRealtimeUpdate(interval)]: [None] is [null]. *)
Definition generateRealtimeUpdate (this : t) (interval : string) (rng : Rng)
    : option CandleData.t * t * Rng :=
  let '(newPrice, this, rng) := simulatePriceMovement this rng in
  let '(refresh, engine) :=
    ClusterEngine.shouldRefreshClusters (clusterEngine this) "BTCUSDT"
      newPrice in
  let this := set_engine this engine in
  if negb refresh then (None, this, rng) else
  let '(candle, this, rng) :=
    generateSingleCandle this (currentTime this) newPrice interval rng in
  let this :=
    set_engine this
      (ClusterEngine.updateATRCache (clusterEngine this) "BTCUSDT"
         (historicalCandles this)) in
  (Some candle, this, rng).

(** [static getBasePriceForSymbol(symbol)] *)
Definition basePrices : list (string * number) :=
  [ ("BTCUSDT", Fin 67500); ("ETHUSDT", Fin 3200); ("BNBUSDT", Fin 420);
    ("ADAUSDT", Fin 0.85); ("SOLUSDT", Fin 180); ("XRPUSDT", Fin 0.58);
    ("DOTUSDT", Fin 8.5); ("DOGEUSDT", Fin 0.15); ("AVAXUSDT", Fin 42);
    ("MATICUSDT", Fin 1.2); ("LINKUSDT", Fin 16); ("LTCUSDT", Fin 95);
    ("BCHUSDT", Fin 380); ("XLMUSDT", Fin 0.12); ("VETUSDT", Fin 0.035) ].

Definition getBasePriceForSymbol (symbol : string) : number :=
  JS.or_default
    (snd <$> List.find (fun kv => String.eqb (fst kv) symbol) basePrices)
    (Fin 100).

(** [generateClusters(low, high, totalVolume, totalBuyVolume,
    totalSellVolume)] *)
Definition generateClusters (this : t)
    (low high totalVolume totalBuyVolume totalSellVolume : number) (rng : Rng)
    : list Cluster.t * Rng :=
  let atr := ClusterEngine.getCachedATR (clusterEngine this) "BTCUSDT" in
  let currentPrice := ((low + high) / Fin 2)%js in
  ClusterEngine.generateAdaptiveClusters low high totalVolume totalBuyVolume
    totalSellVolume atr currentPrice rng.

(** [preloadHistoricalData(symbol, interval, fromTime, toTime)] at clock
    [now]. *)
Definition preloadHistoricalData (show : number -> string) (this : t)
    (symbol interval : string) (fromTime toTime : number) (now : number)
    : list CandleData.t * t :=
  let '(data, engine) :=
    ClusterEngine.preloadHistoricalClusters show (clusterEngine this) symbol
      interval fromTime toTime now in
  (data, set_engine this engine).

(** [getRelevantCandles(timeRange)] at clock [now] (milliseconds). *)
Definition getRelevantCandles (this : t) (timeRange : string) (now : number)
    : list CandleData.t :=
  let now := (now / Fin 1000)%js in
  let timeRangeSeconds :=
    if String.eqb timeRange "1h" then Fin 3600
    else if String.eqb timeRange "4h" then Fin 14400
    else if String.eqb timeRange "1d" then Fin 86400
    else if String.eqb timeRange "1w" then Fin 604800
    else Fin 86400 in
  let cutoffTime := (now - timeRangeSeconds)%js in
  List.filter (fun candle => (CandleData.time candle >=? cutoffTime)%js)
    (historicalCandles this).

(** [generateVolumeProfile(timeRange = '1d')] at clock [now]; [None] is
    the omitted argument. *)
Definition generateVolumeProfile (this : t) (timeRange : option string)
    (now : number) : list ProfileLevel.t :=
  let timeRange := default "1d"%string timeRange in
  let relevantCandles := getRelevantCandles this timeRange now in
  ClusterEngine.generateVolumeProfile relevantCandles None.

(** [cleanupCache()] at clock [now]. *)
Definition cleanupCache (this : t) (now : number) : t :=
  set_engine this (ClusterEngine.cleanupCache (clusterEngine this) now).

End TestDataGenerator.

(** ** The storage module and the frames on the wire

    [./storage] is an external collaborator of the three classes: only
    its two write operations are called here, and each either resolves or
    rejects.  It enters the model as an interface. *)

Module InsertCandle.
Record t : Type := mk {
  symbol : string;
  interval : string;
  openTime : number;
  closeTime : number;
  data : CandleData.t;
}.
End InsertCandle.

Module InsertOrderBook.
Record t : Type := mk {
  symbol : string;
  bids : list OrderBookLevel.t;
  asks : list OrderBookLevel.t;
  lastUpdate : number;
}.
End InsertOrderBook.

(** A write returns the store afterwards, or [None] when the promise
    rejects. *)
Class IStorage (S : Type) : Type := {
  saveCandleData : InsertCandle.t -> S -> option S;
  saveOrderBookData : InsertOrderBook.t -> S -> option S;
}.

(** The two read operations of [./storage], which [getHistoricalData]
    calls: a read returns what is stored, or [None] when the promise
    rejects; it leaves the store as it is.  [getOrderBookData] resolves
    to [undefined] when no book is stored. *)
Class IStorageQuery (S : Type) : Type := {
  getCandleData : string -> string -> nat -> S -> option (list CandleData.t);
  getOrderBookData : string -> S -> option (option OrderBookData.t);
}.

(** The object that [getHistoricalData] resolves to. *)
Module HistoricalData.
Record t : Type := mk {
  candles : list CandleData.t;
  orderBook : option OrderBookData.t;
  symbol : string;
  interval : string;
}.
End HistoricalData.

Inductive Frame : Type :=
| candle_update (symbol interval : string) (data : CandleData.t)
| orderbook_update (symbol : string) (data : OrderBookData.t).

Inductive Error : Type :=
| StorageError.

(** What a timer of the event loop runs. *)
Inductive Task : Type :=
| CacheCleanup
| DataStream (symbol interval key : string).

(** ** class TradingDataManager *)

Module TradingDataManager.

Record t : Type := mk {
  connections : gset nat;
  subscriptions : gmap string (gset nat);
  dataGenerators : gmap string TestDataGenerator.t;
  updateIntervals : gmap string nat;
}.

Section Manager.
Context {S : Type} {storage : IStorage S}.

(** The manager and the part of the process around it that its methods
    touch: the timers of the event loop ([setInterval] hands out
    [nextTimer]), the store, the random source, the clock, the sockets
    that are open, the frames sent so far and the errors logged so far
    ([console.error]). *)
Record World : Type := mkWorld {
  manager : t;
  timers : gmap nat (Task * number);
  nextTimer : nat;
  store : S;
  rng : Rng;
  now : number;
  openSockets : gset nat;
  sent : list (nat * Frame);
  errors : list Error;
}.

Definition set_manager (w : World) (m : t) : World :=
  mkWorld m (timers w) (nextTimer w) (store w) (rng w) (now w)
    (openSockets w) (sent w) (errors w).
Definition set_rng (w : World) (r : Rng) : World :=
  mkWorld (manager w) (timers w) (nextTimer w) (store w) r (now w)
    (openSockets w) (sent w) (errors w).
Definition set_store (w : World) (s : S) : World :=
  mkWorld (manager w) (timers w) (nextTimer w) s (rng w) (now w)
    (openSockets w) (sent w) (errors w).

(** A method either returns or throws, and leaves a world behind. *)
Inductive Outcome (A : Type) : Type :=
| Return (a : A)
| Throw (e : Error).
Arguments Return {A} a.
Arguments Throw {A} e.

Definition M (A : Type) : Type := World -> Outcome A * World.

Definition ret {A} (a : A) : M A := fun w => (Return a, w).
Definition bind {A B} (m : M A) (k : A -> M B) : M B :=
  fun w =>
    match m w with
    | (Return a, w') => k a w'
    | (Throw e, w') => (Throw e, w')
    end.
Definition throw {A} (e : Error) : M A := fun w => (Throw e, w).
Definition try_catch {A} (m : M A) (handler : Error -> M A) : M A :=
  fun w =>
    match m w with
    | (Return a, w') => (Return a, w')
    | (Throw e, w') => handler e w'
    end.
(** An [async] method called without [await]: a rejection does not reach
    the caller.  The call runs to completion before the caller goes on. *)
Definition detached (m : M unit) : M unit :=
  fun w => (Return tt, snd (m w)).

Definition get : M World := fun w => (Return w, w).
Definition modify (f : World -> World) : M unit := fun w => (Return tt, f w).
Definition modify_manager (f : t -> t) : M unit :=
  modify (fun w => set_manager w (f (manager w))).

#[export] Instance M_ret : MRet M := @ret.
#[export] Instance M_bind : MBind M := fun A B k m => bind m k.

Fixpoint for_each {A} (l : list A) (body : A -> M unit) : M unit :=
  match l with
  | [] => ret tt
  | x :: l' => body x ;; for_each l' body
  end.

(** [await storage.saveCandleData(c)], [await storage.saveOrderBookData(b)] *)
Definition await_saveCandleData (c : InsertCandle.t) : M unit :=
  fun w =>
    match saveCandleData c (store w) with
    | Some s => (Return tt, set_store w s)
    | None => (Throw StorageError, w)
    end.
Definition await_saveOrderBookData (b : InsertOrderBook.t) : M unit :=
  fun w =>
    match saveOrderBookData b (store w) with
    | Some s => (Return tt, set_store w s)
    | None => (Throw StorageError, w)
    end.

(** [setInterval(task, delay)] and [clearInterval(handle)] *)
Definition setInterval (task : Task) (delay : number) : M nat :=
  fun w =>
    (Return (nextTimer w),
     mkWorld (manager w) (<[nextTimer w := (task, delay)]> (timers w))
       (Datatypes.S (nextTimer w)) (store w) (rng w) (now w) (openSockets w)
       (sent w) (errors w)).
Definition clearInterval (handle : nat) : M unit :=
  modify (fun w =>
    mkWorld (manager w) (delete handle (timers w)) (nextTimer w) (store w)
      (rng w) (now w) (openSockets w) (sent w) (errors w)).

Definition console_error (e : Error) : M unit :=
  modify (fun w =>
    mkWorld (manager w) (timers w) (nextTimer w) (store w) (rng w) (now w)
      (openSockets w) (sent w) (errors w ++ [e])).

(** [client.send(message)] *)
Definition send (client : nat) (message : Frame) : M unit :=
  modify (fun w =>
    mkWorld (manager w) (timers w) (nextTimer w) (store w) (rng w) (now w)
      (openSockets w) (sent w ++ [(client, message)]) (errors w)).

(** [new TradingDataManager()]: no connection, no subscription, and the
    timer of the periodic cache cleanup. *)
Definition new : M unit :=
  modify_manager (fun _ => mk ∅ ∅ ∅ ∅) ;;
  _ ← setInterval CacheCleanup (Fin 300000) ;
  ret tt.

Definition set_generator (symbol : string) (g : TestDataGenerator.t) : M unit :=
  modify_manager (fun m =>
    mk (connections m) (subscriptions m) (<[symbol := g]> (dataGenerators m))
       (updateIntervals m)).

(** [getOrCreateGenerator(symbol)] *)
Definition getOrCreateGenerator (symbol : string) : M TestDataGenerator.t :=
  w ← get ;
  match dataGenerators (manager w) !! symbol with
  | Some g => ret g
  | None =>
      let basePrice := TestDataGenerator.getBasePriceForSymbol symbol in
      let g := TestDataGenerator.new basePrice (now w) in
      set_generator symbol g ;;
      ret g
  end.

(** [addConnection(ws)] *)
Definition addConnection (ws : nat) : M unit :=
  modify_manager (fun m =>
    mk ({[ws]} ∪ connections m) (subscriptions m) (dataGenerators m)
       (updateIntervals m)).

(** [stopDataStream(symbol)]; the argument is a subscription key. *)
Definition stopDataStream (symbol : string) : M unit :=
  modify_manager (fun m =>
    mk (connections m) (delete symbol (subscriptions m)) (dataGenerators m)
       (updateIntervals m)) ;;
  w ← get ;
  match updateIntervals (manager w) !! symbol with
  | Some interval =>
      clearInterval interval ;;
      modify_manager (fun m =>
        mk (connections m) (subscriptions m) (dataGenerators m)
           (delete symbol (updateIntervals m)))
  | None => ret tt
  end.

(** [removeConnection(ws)]: the [forEach] visits the entries the map has
    when it starts; [clients.delete(ws)] updates the set held under the
    key. *)
Definition removeConnection (ws : nat) : M unit :=
  modify_manager (fun m =>
    mk (connections m ∖ {[ws]}) (subscriptions m) (dataGenerators m)
       (updateIntervals m)) ;;
  w ← get ;
  for_each (map_to_list (subscriptions (manager w)))
    (fun '(symbol, clients) =>
       let clients := clients ∖ {[ws]} in
       modify_manager (fun m =>
         mk (connections m) (<[symbol := clients]> (subscriptions m))
            (dataGenerators m) (updateIntervals m)) ;;
       if (size clients =? 0)%nat then stopDataStream symbol else ret tt).

(** [broadcastToSubscribers(subscriptionKey, message)] *)
Definition broadcastToSubscribers (subscriptionKey : string) (message : Frame)
    : M unit :=
  w ← get ;
  match subscriptions (manager w) !! subscriptionKey with
  | None => ret tt
  | Some clients =>
      for_each (elements clients)
        (fun client =>
           w ← get ;
           if decide (client ∈ openSockets w) then send client message
           else ret tt)
  end.

Definition insert_candle (symbol interval : string) (c : CandleData.t)
    : InsertCandle.t :=
  InsertCandle.mk symbol interval (CandleData.time c * Fin 1000)
    ((CandleData.time c
      + TestDataGenerator.getIntervalMs interval / Fin 1000) * Fin 1000)
    c.

(** Run a method of the generator object [g], which the manager holds
    under [symbol], on the random source of the world; the object is
    mutated in place, so the map sees the generator the method leaves. *)
Definition with_generator {A} (symbol : string) (g : TestDataGenerator.t)
    (method : TestDataGenerator.t -> Rng -> A * TestDataGenerator.t * Rng)
    : M (A * TestDataGenerator.t) :=
  w ← get ;
  let '(a, g, r) := method g (rng w) in
  modify (fun w => set_rng w r) ;;
  set_generator symbol g ;;
  ret (a, g).

(** The body of the [try] block of the timer callback. *)
Definition tick_body (symbol interval key : string)
    (generator : TestDataGenerator.t) : M unit :=
  '(candleUpdate, generator) ←
    with_generator symbol generator
      (fun g r => TestDataGenerator.generateRealtimeUpdate g interval r) ;
  match candleUpdate with
  | None => ret tt
  | Some candleUpdate =>
      await_saveCandleData (insert_candle symbol interval candleUpdate) ;;
      w ← get ;
      '(orderBookData, generator) ←
        with_generator symbol generator
          (fun g r =>
             let '(b, r) :=
               TestDataGenerator.generateOrderBook g 50 true (now w) r in
             (b, g, r)) ;
      await_saveOrderBookData
        (InsertOrderBook.mk symbol
           (OrderBookData.bids orderBookData)
           (OrderBookData.asks orderBookData)
           (OrderBookData.lastUpdate orderBookData)) ;;
      broadcastToSubscribers key
        (candle_update symbol interval candleUpdate) ;;
      broadcastToSubscribers key
        (orderbook_update symbol orderBookData)
  end.

(** The callback that [startDataStream] hands to [setInterval]; it
    closes over the generator object of [symbol]. *)
Definition tick (symbol interval key : string) : M unit :=
  w ← get ;
  if negb (bool_decide (is_Some (subscriptions (manager w) !! key)))
  then ret tt else
  match dataGenerators (manager w) !! symbol with
  | None => ret tt (* not reached: the stream created the generator *)
  | Some generator =>
      try_catch (tick_body symbol interval key generator)
        (fun error => console_error error)
  end.

(** [startDataStream(symbol, interval)] *)
Definition startDataStream (symbol interval : string) : M unit :=
  let key := (symbol ++ "_" ++ interval)%string in
  generator ← getOrCreateGenerator symbol ;
  '(historicalCandles, generator) ←
    with_generator symbol generator
      (fun g r => TestDataGenerator.generateHistoricalCandles g 50 interval r) ;
  for_each historicalCandles
    (fun candleData =>
       await_saveCandleData (insert_candle symbol interval candleData)) ;;
  updateInterval ←
    setInterval (DataStream symbol interval key)
      (JS.min (TestDataGenerator.getIntervalMs interval) (Fin 2000)) ;
  modify_manager (fun m =>
    mk (connections m) (subscriptions m) (dataGenerators m)
       (<[key := updateInterval]> (updateIntervals m))).

(** [subscribeToSymbol(symbol, interval, ws)] *)
Definition subscribeToSymbol (symbol interval : string) (ws : nat) : M unit :=
  let key := (symbol ++ "_" ++ interval)%string in
  modify_manager (fun m =>
    if bool_decide (is_Some (subscriptions m !! key)) then m
    else mk (connections m) (<[key := ∅]> (subscriptions m))
            (dataGenerators m) (updateIntervals m)) ;;
  modify_manager (fun m =>
    mk (connections m)
       (<[key := {[ws]} ∪ default ∅ (subscriptions m !! key)]> (subscriptions m))
       (dataGenerators m) (updateIntervals m)) ;;
  w ← get ;
  if (size (default ∅ (subscriptions (manager w) !! key)) =? 1)%nat
  then detached (startDataStream symbol interval)
  else ret tt.

(** The timers of the event loop that run the stream of [key]. *)
Definition stream_timers (key : string) (w : World) : list nat :=
  map fst
    (List.filter
       (fun '(_, (task, _)) =>
          match task with
          | DataStream _ _ k => String.eqb k key
          | CacheCleanup => false
          end)
       (map_to_list (timers w))).

(** Two worlds that differ at most in the store, the random source and
    the generators: the bookkeeping of streams, the sockets and the
    output are the same. *)
Definition same_streams (w w' : World) : Prop :=
  connections (manager w') = connections (manager w) /\
  subscriptions (manager w') = subscriptions (manager w) /\
  updateIntervals (manager w') = updateIntervals (manager w) /\
  timers w' = timers w /\ nextTimer w' = nextTimer w /\
  openSockets w' = openSockets w /\ sent w' = sent w /\
  errors w' = errors w /\ now w' = now w.

(** Two worlds that differ at most in the frames sent. *)
Definition only_sent (w w' : World) : Prop :=
  manager w' = manager w /\ timers w' = timers w /\
  nextTimer w' = nextTimer w /\ store w' = store w /\ rng w' = rng w /\
  now w' = now w /\ openSockets w' = openSockets w /\ errors w' = errors w.

(** The subscribers a broadcast reaches: those whose socket is open, in
    the order of the iteration. *)
Definition recipients (clients : gset nat) (w : World) : list nat :=
  List.filter (fun client => bool_decide (client ∈ openSockets w))
    (elements clients).

(** [await storage.getCandleData(symbol, interval, limit)],
    [await storage.getOrderBookData(symbol)] *)
Context {query : IStorageQuery S}.

Definition await_getCandleData (symbol interval : string) (limit : nat)
    : M (list CandleData.t) :=
  fun w =>
    match getCandleData symbol interval limit (store w) with
    | Some candles => (Return candles, w)
    | None => (Throw StorageError, w)
    end.
Definition await_getOrderBookData (symbol : string)
    : M (option OrderBookData.t) :=
  fun w =>
    match getOrderBookData symbol (store w) with
    | Some book => (Return book, w)
    | None => (Throw StorageError, w)
    end.

(** [getHistoricalData(symbol, interval, limit = 200)] for a limit that
    is a non-negative integer; [None] is the omitted argument. *)
Definition getHistoricalData (symbol interval : string) (limit : option nat)
    : M HistoricalData.t :=
  let limit := default 200%nat limit in
  try_catch
    (cachedCandles ← await_getCandleData symbol interval limit ;
     cachedOrderBook ← await_getOrderBookData symbol ;
     if (0 <? length cachedCandles)%nat then
       ret (HistoricalData.mk cachedCandles cachedOrderBook symbol interval)
     else
       generator ← getOrCreateGenerator symbol ;
       '(testCandles, generator) ←
         with_generator symbol generator
           (fun g r =>
              TestDataGenerator.generateHistoricalCandles g limit interval r) ;
       w ← get ;
       '(testOrderBook, generator) ←
         with_generator symbol generator
           (fun g r =>
              let '(b, r) :=
                TestDataGenerator.generateOrderBook g 50 true (now w) r in
              (b, g, r)) ;
       ret (HistoricalData.mk testCandles (Some testOrderBook) symbol interval))
    (fun error => console_error error ;; throw error).

End Manager.

Arguments World S : clear implicits.
Arguments M S A : clear implicits.
Arguments Return {A} a.
Arguments Throw {A} e.

End TradingDataManager.

(** ** The statements of the specification, as definitions

    These follow the words of the specification, not the code; the
    properties of Part II compare the code with them. *)

Module Spec.

(** True range of a step: max(high - low, |high - prevClose|,
    |low - prevClose|). *)
Definition true_range (previous current : CandleData.t) : number :=
  JS.max3 (CandleData.high current - CandleData.low current)
    (JS.abs (CandleData.high current - CandleData.close previous))
    (JS.abs (CandleData.low current - CandleData.close previous)).

(** The consecutive pairs (previous, current) of a list, oldest first. *)
Fixpoint pairs (candles : list CandleData.t)
    : list (CandleData.t * CandleData.t) :=
  match candles with
  | previous :: ((current :: _) as rest) => (previous, current) :: pairs rest
  | _ => []
  end.

Definition sum (xs : list number) : number :=
  fold_left (fun acc x => acc + x)%js xs (Fin 0).

Definition average (xs : list number) : number :=
  (sum xs / JS.of_nat (length xs))%js.

Definition atr_over (steps : list (CandleData.t * CandleData.t)) : number :=
  average (map (fun '(previous, current) => true_range previous current) steps).

(** Average true range over up to [period] of the most recent pairs. *)
Definition atr_most_recent (candles : list CandleData.t) (period : nat)
    : number :=
  if (length candles <? 2)%nat then Fin 0.001
  else atr_over (JS.slice_last period (pairs candles)).

(** Average true range over up to [period] of the oldest pairs. *)
Definition atr_oldest (candles : list CandleData.t) (period : nat)
    : number :=
  if (length candles <? 2)%nat then Fin 0.001
  else atr_over (take period (pairs candles)).

(** A level whose price lies in the band [lo, hi]; descending and
    ascending order of price. *)
Definition in_band (lo hi : number) (level : OrderBookLevel.t) : Prop :=
  (lo <=? OrderBookLevel.price level)%js = true /\
  (OrderBookLevel.price level <=? hi)%js = true.

Definition price_desc (a b : OrderBookLevel.t) : Prop :=
  (OrderBookLevel.price b <=? OrderBookLevel.price a)%js = true.
Definition price_asc (a b : OrderBookLevel.t) : Prop :=
  (OrderBookLevel.price a <=? OrderBookLevel.price b)%js = true.

(** A candle whose high, low and close are finite numbers. *)
Definition finite_candle (c : CandleData.t) : Prop :=
  JS.finite (CandleData.high c) /\ JS.finite (CandleData.low c) /\
  JS.finite (CandleData.close c).

(** A finite number that is not negative. *)
Definition nonneg (a : number) : Prop :=
  match a with Fin q => (0 <= q)%Q | _ => False end.

(** A level, a cluster, whose volume is finite and not negative. *)
Definition level_nonneg (level : ProfileLevel.t) : Prop :=
  nonneg (ProfileLevel.volume level).
Definition cluster_nonneg (cluster : Cluster.t) : Prop :=
  nonneg (Cluster.volume cluster).

(** The sum of the volumes of a set of clusters. *)
Definition total_volume (clusters : list Cluster.t) : number :=
  sum (map Cluster.volume clusters).

(** A cluster whose volume is a finite number in (0, b). *)
Definition volume_below (b : Q) (c : Cluster.t) : Prop :=
  exists v, Cluster.volume c = Fin v /\ (0 < v /\ v < b)%Q.

(** The volume profile in the words of the specification: the clusters
    of all candles, the lowest low, the width of a bucket, the bucket a
    cluster falls in, and whether that bucket is one of the [levels]
    buckets. *)
Definition all_clusters (candles : list CandleData.t) : list Cluster.t :=
  concat (map CandleData.clusters candles).

Definition profile_min (candles : list CandleData.t) : number :=
  JS.min_list (map CandleData.low candles).

Definition profile_step (candles : list CandleData.t) (levels : nat) : number :=
  ((JS.max_list (map CandleData.high candles) - profile_min candles)
   / JS.of_nat levels)%js.

Definition bucket_index (candles : list CandleData.t) (levels : nat)
    (cluster : Cluster.t) : number :=
  JS.floor ((Cluster.price cluster - profile_min candles)
            / profile_step candles levels).

(** The index of a cluster lies in [0, levels). *)
Definition passes (minPrice priceStep : number) (levels : nat)
    (cluster : Cluster.t) : bool :=
  (JS.floor ((Cluster.price cluster - minPrice) / priceStep) >=? Fin 0)%js
  && (JS.floor ((Cluster.price cluster - minPrice) / priceStep)
      <? JS.of_nat levels)%js.

Definition in_profile (candles : list CandleData.t) (levels : nat)
    (cluster : Cluster.t) : bool :=
  passes (profile_min candles) (profile_step candles levels) levels cluster.

(** A level that stands at the middle of one of the [levels] buckets of
    equal width between the lowest low and the highest high. *)
Definition bucket_level (candles : list CandleData.t) (levels : nat)
    (level : ProfileLevel.t) : Prop :=
  exists i : nat,
    (i < levels)%nat /\
    ProfileLevel.price level
    = (profile_min candles + profile_step candles levels * JS.of_nat i
       + profile_step candles levels / Fin 2)%js.

Definition level_volumes (profile : list ProfileLevel.t) : list number :=
  map ProfileLevel.volume profile.

Definition profile_volume (profile : list ProfileLevel.t) : number :=
  sum (level_volumes profile).

(** The clusters that fall in bucket [i], those whose index
    floor((price - min) / step) is [i], in the order of the candles, and
    bucket [i] with all of them accumulated: it stands at the middle of
    part [i] of [min, max] and holds the sums of their volumes. *)
Definition falls_in (candles : list CandleData.t) (levels i : nat)
    (cluster : Cluster.t) : bool :=
  (bucket_index candles levels cluster =? JS.of_nat i)%js.

Definition bucket_clusters (candles : list CandleData.t) (levels i : nat)
    : list Cluster.t :=
  List.filter (falls_in candles levels i) (all_clusters candles).

Definition bucket (candles : list CandleData.t) (levels i : nat)
    : ProfileLevel.t :=
  let clusters := bucket_clusters candles levels i in
  ProfileLevel.mk
    (profile_min candles + profile_step candles levels * JS.of_nat i
     + profile_step candles levels / Fin 2)%js
    (sum (map Cluster.volume clusters))
    (sum (map Cluster.buyVolume clusters))
    (sum (map Cluster.sellVolume clusters)).

(** The rational a finite number stands for, and the exact sum of a
    list of finite numbers. *)
Definition qvalue (a : number) : Q :=
  match a with Fin q => q | _ => 0%Q end.

Definition qsum (xs : list number) : Q :=
  fold_right Qplus 0%Q (map qvalue xs).

End Spec.

(** ** Shapes and invariants that the code maintains

    The predicates below are read off the code; the properties of
    Part II show that the methods establish and keep them. *)

Module Shape.

(** A cluster of a candle over (l, h): its price lies strictly inside,
    its volume is positive, the buy side holds between 10% and 90% of it,
    the sell side the rest, delta is buy minus sell and aggression is
    |delta| / volume, which is at most 0.8. *)
Definition cluster_inside (l h : Q) (c : Cluster.t) : Prop :=
  exists p v b s d a : Q,
    Cluster.price c = Fin p /\ Cluster.volume c = Fin v /\
    Cluster.buyVolume c = Fin b /\ Cluster.sellVolume c = Fin s /\
    Cluster.delta c = Fin d /\ Cluster.aggression c = Fin a /\
    (l < p /\ p < h /\ 0 < v /\ 0.1 * v <= b /\ b <= 0.9 * v /\
     s == v - b /\ d == b - s /\ a == Qabs d / v /\ a <= 0.8)%Q.

(** Non-increasing volume. *)
Definition volume_desc (a b : Cluster.t) : Prop :=
  (Cluster.volume b <=? Cluster.volume a)%js = true.

(** Every entry of the cluster cache holds the empty list. *)
Definition cache_empty (e : ClusterEngine.t) : Prop :=
  forall key data timestamp,
    ClusterEngine.clusterCache e !! key = Some (data, timestamp) -> data = [].

(** Candles that follow one another: the first opens at [start] and each
    later one opens where the one before it closed. *)
Fixpoint chained (start : number) (candles : list CandleData.t) : Prop :=
  match candles with
  | [] => True
  | c :: rest => CandleData.open c = start /\ chained (CandleData.close c) rest
  end.

(** The close of the last candle; [start] when there is no candle. *)
Definition last_close (start : number) (candles : list CandleData.t) : number :=
  fold_left (fun _ c => CandleData.close c) candles start.

(** A candle with finite prices in the order low <= open, close <= high,
    a positive open and a close of at least 1. *)
Definition well_formed_candle (c : CandleData.t) : Prop :=
  exists o h l cl : Q,
    CandleData.open c = Fin o /\ CandleData.high c = Fin h /\
    CandleData.low c = Fin l /\ CandleData.close c = Fin cl /\
    (0 < o /\ l <= o /\ l <= cl /\ o <= h /\ cl <= h /\ 1 <= cl)%Q.

(** A generator whose numbers are in order: the current price is finite
    and positive, the price history is finite, and the candles of the
    window have finite prices. *)
Definition sound (g : TestDataGenerator.t) : Prop :=
  (exists p : Q, TestDataGenerator.currentPrice g = Fin p /\ (0 < p)%Q) /\
  Forall JS.finite (TestDataGenerator.priceHistory g) /\
  Forall Spec.finite_candle (TestDataGenerator.historicalCandles g).

(** The level that pass [i] of a loop of [generateOrderBook] pushes, on
    the side that starts at [start], when the draw of the pass is [r]. *)
Definition book_level (start spread : number) (ask : bool) (i : nat) (r : Q)
    : OrderBookLevel.t :=
  let offset := (JS.of_nat i * spread * Fin 0.1)%js in
  OrderBookLevel.mk
    (if ask then (start + offset)%js else (start - offset)%js)
    ((Fin 10 + Fin r * Fin 50) * (Fin 1 - JS.of_nat i * Fin 0.05))%js.

(** What a run of the timer callback of [symbol] leaves alone: the
    connections, the subscriptions, the handles, the timers, the sockets,
    the clock, and the generators of the other symbols. *)
Definition stream_frame {S : Type} (symbol : string)
    (w w' : TradingDataManager.World S) : Prop :=
  TradingDataManager.connections (TradingDataManager.manager w')
    = TradingDataManager.connections (TradingDataManager.manager w) /\
  TradingDataManager.subscriptions (TradingDataManager.manager w')
    = TradingDataManager.subscriptions (TradingDataManager.manager w) /\
  TradingDataManager.updateIntervals (TradingDataManager.manager w')
    = TradingDataManager.updateIntervals (TradingDataManager.manager w) /\
  TradingDataManager.timers w' = TradingDataManager.timers w /\
  TradingDataManager.nextTimer w' = TradingDataManager.nextTimer w /\
  TradingDataManager.openSockets w' = TradingDataManager.openSockets w /\
  TradingDataManager.now w' = TradingDataManager.now w /\
  forall other : string,
    other <> symbol ->
    TradingDataManager.dataGenerators (TradingDataManager.manager w') !! other
    = TradingDataManager.dataGenerators (TradingDataManager.manager w) !! other.

(** What the departure of connection [ws] leaves of the client set of a
    key: the set without [ws], or nothing when that set is empty. *)
Definition remaining (ws : nat) (clients : gset nat) : option (gset nat) :=
  if (size (clients ∖ {[ws]}) =? 0)%nat then None else Some (clients ∖ {[ws]}).

(** The handle, if any, registered under a key that the departure of
    [ws] leaves without client. *)
Definition orphan (ws : nat) (intervals : gmap string nat)
    (entry : string * gset nat) : option nat :=
  if (size (entry.2 ∖ {[ws]}) =? 0)%nat then intervals !! entry.1 else None.

(** The handles registered under the keys that the departure of [ws]
    leaves without client. *)
Definition orphaned (ws : nat) (m : TradingDataManager.t) : list nat :=
  omap (orphan ws (TradingDataManager.updateIntervals m))
    (map_to_list (TradingDataManager.subscriptions m)).

(** A candle with a finite low and high whose clusters have a finite
    volume that is not negative and a price in [low, high). *)
Definition clusters_within (c : CandleData.t) : Prop :=
  exists l h : Q,
    CandleData.low c = Fin l /\ CandleData.high c = Fin h /\
    Forall
      (fun cluster =>
         Spec.nonneg (Cluster.volume cluster) /\
         exists p : Q, Cluster.price cluster = Fin p /\ (l <= p /\ p < h)%Q)
      (CandleData.clusters c).


(** The integers on which the arithmetic of the code is exact: sums,
    differences and products that stay within 2^53 in magnitude are
    doubles and are computed without rounding. *)
Definition exact (z : Z) : Prop := (Z.abs z <= 2 ^ 53)%Z.

(** A backfill of [count] candles over steps of [s] seconds, by a
    generator whose clock is [t], that computes on exact integers only:
    the clock, the count, the span count * s, and the time of the first
    candle, t - count * s.  The cursor walks between that time and the
    clock. *)
Definition exact_backfill (t s : Z) (count : nat) : Prop :=
  exact t /\ exact (Z.of_nat count) /\ exact (Z.of_nat count * s) /\
  exact (t - Z.of_nat count * s).

(** The decimal numeral with the digits [ds], most significant first,
    and the integer it denotes. *)
Definition digit_char (d : nat) : ascii := ascii_of_nat (48 + d).

Definition numeral (ds : list nat) : string :=
  fold_right (fun d s => String (digit_char d) s) EmptyString ds.

Definition numeral_value (ds : list nat) : Z :=
  fold_left (fun acc d => (10 * acc + Z.of_nat d)%Z) ds 0%Z.

(** The units of an interval and their lengths in seconds. *)
Definition units : list (string * Z) :=
  [("s", 1); ("m", 60); ("h", 3600); ("d", 86400); ("w", 604800);
   ("M", 2629746)]%Z.

(** The generator [g] with the cluster cache of its engine replaced. *)
Definition with_clusterCache (g : TestDataGenerator.t)
    (cache : gmap string (list CandleData.t * number)) : TestDataGenerator.t :=
  TestDataGenerator.set_engine g
    (ClusterEngine.set_clusterCache (TestDataGenerator.clusterEngine g) cache).

End Shape.

(** ** Sample data for the examples of Part II *)

Module Sample.

(** A random source whose every draw is 1/2, and one whose every draw
    is 0. *)
Definition half_draws : Rng := mkRng (fun _ => 0.5%Q) 0.
Definition zero_draws : Rng := mkRng (fun _ => 0%Q) 0.

(** The generator of BTCUSDT, created at 1.7e12 milliseconds. *)
Definition generator : TestDataGenerator.t :=
  TestDataGenerator.new (Fin 67500) (Fin 1700000000000).

(** A candle whose four prices are [p] and whose volumes are zero. *)
Definition flat_candle (p : Q) : CandleData.t :=
  CandleData.mk (Fin 0) (Fin p) (Fin p) (Fin p) (Fin p)
    (Fin 0) (Fin 0) (Fin 0) (Fin 0) [].

(** A book with one bid at 98.2. *)
Definition one_bid_book : OrderBookData.t :=
  OrderBookData.mk [OrderBookLevel.mk (Fin 98.2) (Fin 1)] [] (Fin 0).

(** One candle over [0, 50] with a single cluster of volume 10 priced at
    the high. *)
Definition candle_with_cluster_at_high : CandleData.t :=
  CandleData.mk (Fin 0) (Fin 10) (Fin 50) (Fin 0) (Fin 20)
    (Fin 10) (Fin 6) (Fin 4) (Fin 2)
    [Cluster.mk (Fin 50) (Fin 10) (Fin 6) (Fin 4) (Fin 2) (Fin 0.2)].

(** One candle over [0, 50] with clusters of volume 10 at 12.5 and 37.5. *)
Definition candle_with_inner_clusters : CandleData.t :=
  CandleData.mk (Fin 0) (Fin 10) (Fin 50) (Fin 0) (Fin 20)
    (Fin 20) (Fin 12) (Fin 8) (Fin 4)
    [Cluster.mk (Fin 12.5) (Fin 10) (Fin 6) (Fin 4) (Fin 2) (Fin 0.2);
     Cluster.mk (Fin 37.5) (Fin 10) (Fin 6) (Fin 4) (Fin 2) (Fin 0.2)].

(** A store that is up or down: a write succeeds exactly when it is up. *)
#[global] Instance switch_storage : IStorage bool := {|
  saveCandleData :=
    fun (_ : InsertCandle.t) (up : bool) => if up then Some up else None;
  saveOrderBookData :=
    fun (_ : InsertOrderBook.t) (up : bool) => if up then Some up else None;
|}.

(** The process after [new TradingDataManager()] and the connection of
    socket 1: the store is up, the socket is open, nothing was sent or
    logged. *)
Definition world : TradingDataManager.World bool :=
  (TradingDataManager.addConnection 1
     (TradingDataManager.new
        (TradingDataManager.mkWorld (TradingDataManager.mk ∅ ∅ ∅ ∅) ∅ 0 true
           half_draws (Fin 1700000000000) {[1%nat]} [] [])).2).2.

End Sample.

(* ================================================================== *)
(** * Part II: properties *)
(* ================================================================== *)

(** ** Numbers *)

Ltac destruct_bools :=
  repeat match goal with b : bool |- _ => destruct b end.

Section NumberFacts.
Import JS (qmax, qmin).
Local Open Scope Q_scope.

Lemma is_zero_true q : JS.is_zero q = true <-> q == 0.
Proof. unfold JS.is_zero. apply Qeq_bool_iff. Qed.

Lemma is_zero_false q : JS.is_zero q = false <-> ~ q == 0.
Proof.
  rewrite <- is_zero_true. destruct (JS.is_zero q); split; intros; congruence.
Qed.

Lemma is_neg_true q : JS.is_neg q = true <-> q < 0.
Proof.
  unfold JS.is_neg. rewrite negb_true_iff.
  destruct (Qle_bool 0 q) eqn:E.
  - apply Qle_bool_iff in E. split; [discriminate | intros; lra].
  - split; [intros _ | reflexivity].
    apply Qnot_le_lt. intros H. apply Qle_bool_iff in H. congruence.
Qed.

Lemma is_neg_false q : JS.is_neg q = false <-> 0 <= q.
Proof.
  unfold JS.is_neg. rewrite negb_false_iff. apply Qle_bool_iff.
Qed.

Lemma le_Fin p q : (Fin p <=? Fin q)%js = true <-> p <= q.
Proof. apply Qle_bool_iff. Qed.

Lemma lt_Fin p q : (Fin p <? Fin q)%js = true <-> p < q.
Proof.
  cbn. rewrite negb_true_iff. destruct (Qle_bool q p) eqn:E.
  - apply Qle_bool_iff in E. split; [discriminate | intros; lra].
  - split; [intros _ | reflexivity].
    apply Qnot_le_lt. intros H. apply Qle_bool_iff in H. congruence.
Qed.

Lemma lt_Fin_false p q : (Fin p <? Fin q)%js = false <-> q <= p.
Proof. cbn. rewrite negb_false_iff. apply Qle_bool_iff. Qed.

Lemma eqb_Fin p q : (Fin p =? Fin q)%js = true <-> p == q.
Proof. apply Qeq_bool_iff. Qed.

(** [a <= b] excludes [b < a], NaN included. *)
Lemma le_not_gt (a b : number) : (a <=? b)%js = true -> (a >? b)%js = false.
Proof.
  unfold JS.gt.
  destruct a as [|s|p], b as [|t|q]; cbn; try congruence.
  - destruct s, t; cbn; congruence.
  - intros ->. reflexivity.
  - destruct t; cbn; congruence.
  - intros ->. reflexivity.
Qed.

Lemma le_trans (a b c : number) :
  (a <=? b)%js = true -> (b <=? c)%js = true -> (a <=? c)%js = true.
Proof.
  destruct a as [|s|p], b as [|t|q], c as [|u|r]; cbn; try congruence;
    try (destruct_bools; cbn; congruence).
  rewrite !Qle_bool_iff. intros; lra.
Qed.

(** A comparison that holds has no NaN on either side. *)
Lemma le_true_not_NaN (a b : number) :
  (a <=? b)%js = true -> a <> NaN /\ b <> NaN.
Proof. destruct a, b; cbn; intros; split; congruence. Qed.

(** [b - a < 0] decides the order of two numbers that are not NaN; a
    difference that is NaN (two equal infinities) counts as zero. *)
Lemma sub_neg_iff_lt (a b : number) :
  a <> NaN -> b <> NaN ->
  ((b - a <? Fin 0)%js = true -> (b <=? a)%js = true) /\
  ((b - a <? Fin 0)%js = false -> (a <=? b)%js = true).
Proof.
  intros Ha Hb. destruct a as [|s|p], b as [|t|q]; try congruence; cbn.
  - destruct s, t; cbn; split; congruence.
  - destruct s; cbn; split; congruence.
  - destruct t; cbn; split; congruence.
  - rewrite negb_true_iff, negb_false_iff.
    destruct (Qle_bool 0 (q + - p)) eqn:E.
    + apply Qle_bool_iff in E. split; [discriminate|].
      intros _. apply Qle_bool_iff. lra.
    + split; [|discriminate]. intros _. apply Qle_bool_iff.
      destruct (Qlt_le_dec p q) as [H|H]; [|exact H].
      exfalso. assert (Qle_bool 0 (q + - p) = true); [|congruence].
      apply Qle_bool_iff. lra.
Qed.

Lemma add_Fin p q : (Fin p + Fin q)%js = Fin (p + q).
Proof. reflexivity. Qed.
Lemma sub_Fin p q : (Fin p - Fin q)%js = Fin (p - q).
Proof. reflexivity. Qed.
Lemma mul_Fin p q : (Fin p * Fin q)%js = Fin (p * q).
Proof. reflexivity. Qed.
Lemma neg_Fin p : (- Fin p)%js = Fin (- p).
Proof. reflexivity. Qed.
Lemma abs_Fin p : JS.abs (Fin p) = Fin (Qabs p).
Proof. reflexivity. Qed.
Lemma if_Fin (b : bool) p q :
  (if b then Fin p else Fin q) = Fin (if b then p else q).
Proof. destruct b; reflexivity. Qed.

Lemma div_Fin p q : ~ q == 0 -> (Fin p / Fin q)%js = Fin (p / q).
Proof. intros H. cbn. apply is_zero_false in H. rewrite H. reflexivity. Qed.

(** No quotient by zero is at most a finite bound, unless the dividend
    is negative. *)
Lemma div_zero_not_le (a : number) (z t : Q) :
  z == 0 -> (JS.abs a / Fin z <=? Fin t)%js = false.
Proof.
  intros Hz. apply is_zero_true in Hz.
  destruct a as [|s|p]; cbn; try reflexivity.
  - assert (JS.is_neg z = false) as ->; [|reflexivity].
    apply is_neg_false. apply is_zero_true in Hz. lra.
  - rewrite Hz. destruct (JS.is_zero (Qabs p)); [reflexivity|].
    assert (JS.is_neg (Qabs p) = false) as ->; [|reflexivity].
    apply is_neg_false. apply Qabs_nonneg.
Qed.

Lemma max_Fin p q : JS.max (Fin p) (Fin q) = Fin (qmax p q).
Proof.
  unfold JS.max, qmax. cbn. destruct (Qle_bool q p); reflexivity.
Qed.

Lemma min_Fin p q : JS.min (Fin p) (Fin q) = Fin (qmin p q).
Proof.
  unfold JS.min, qmin. cbn. destruct (Qle_bool p q); reflexivity.
Qed.

Lemma qmax_spec p q : p <= qmax p q /\ q <= qmax p q /\ (qmax p q = p \/ qmax p q = q).
Proof.
  unfold qmax. destruct (Qle_bool q p) eqn:E.
  - apply Qle_bool_iff in E. repeat split; try lra. now left.
  - assert (p < q).
    { apply Qnot_le_lt. intros H. apply Qle_bool_iff in H. congruence. }
    repeat split; try lra. now right.
Qed.

Lemma qmin_spec p q : qmin p q <= p /\ qmin p q <= q /\ (qmin p q = p \/ qmin p q = q).
Proof.
  unfold qmin. destruct (Qle_bool p q) eqn:E.
  - apply Qle_bool_iff in E. repeat split; try lra. now left.
  - assert (q < p).
    { apply Qnot_le_lt. intros H. apply Qle_bool_iff in H. congruence. }
    repeat split; try lra. now right.
Qed.

End NumberFacts.

(** Arithmetic on finite numbers is arithmetic on rationals. *)
Ltac fin_arith :=
  repeat first
    [ progress rewrite ?add_Fin, ?sub_Fin, ?mul_Fin, ?neg_Fin, ?abs_Fin,
                       ?max_Fin, ?min_Fin, ?if_Fin
    | match goal with
      | H : ~ (?q == 0)%Q |- context [(Fin ?p / Fin ?q)%js] =>
          rewrite (div_Fin p q H)
      end ].

(** Name a draw and keep its bounds. *)
Ltac name_draw rng n r :=
  let H := fresh "H" r in
  match goal with
  | Hd : JS.unit_draws rng |- _ => pose proof (Hd n) as H
  end;
  set (r := draws rng n) in *; clearbody r.

(** ** The smart-refresh gate *)

Section Gate.
Import ClusterEngine.

Lemma record_price_lookup e symbol p :
  lastProcessedPrice (record_price e symbol p) !! symbol = Some p.
Proof. cbn. apply lookup_insert_eq. Qed.

Lemma gate_first e symbol P' :
  lastProcessedPrice e !! symbol = None ->
  shouldRefreshClusters e symbol P' = (true, record_price e symbol P').
Proof. intros H. unfold shouldRefreshClusters. rewrite H. reflexivity. Qed.

Lemma gate_reject e symbol P P' :
  lastProcessedPrice e !! symbol = Some P ->
  (JS.abs (P' - P) / P <=? Fin 0.0005)%js = true ->
  shouldRefreshClusters e symbol P' = (false, e).
Proof.
  intros Hsome Hle. unfold shouldRefreshClusters. rewrite Hsome.
  unfold PRICE_CHANGE_THRESHOLD.
  destruct (JS.truthy P) eqn:Ht; cbn [negb].
  - rewrite (le_not_gt _ _ Hle). reflexivity.
  - exfalso. destruct P as [|s|p]; cbn in Ht; try discriminate.
    + destruct (JS.abs (P' - NaN)); discriminate.
    + apply negb_false_iff, is_zero_true in Ht.
      rewrite (div_zero_not_le _ _ _ Ht) in Hle. discriminate.
Qed.

Lemma gate_accept e symbol P P' :
  lastProcessedPrice e !! symbol = Some P ->
  (JS.abs (P' - P) / P >? Fin 0.0005)%js = true ->
  shouldRefreshClusters e symbol P' = (true, record_price e symbol P').
Proof.
  intros Hsome Hgt. unfold shouldRefreshClusters. rewrite Hsome.
  unfold PRICE_CHANGE_THRESHOLD.
  destruct (JS.truthy P); cbn [negb]; [rewrite Hgt|]; reflexivity.
Qed.

(** C2.  The first call of [shouldRefreshClusters] for a symbol without a
    recorded price returns true and records the price.  With a recorded
    price [P], a call with [P'] returns false and leaves the engine as it
    was when [|P'-P|/P <= 0.0005], and returns true and records [P'] when
    [|P'-P|/P > 0.0005]. *)
Theorem shouldRefreshClusters_gate (e : ClusterEngine.t) (symbol : string)
    (P' : number) :
  (lastProcessedPrice e !! symbol = None ->
   shouldRefreshClusters e symbol P' = (true, record_price e symbol P') /\
   lastProcessedPrice (snd (shouldRefreshClusters e symbol P')) !! symbol
     = Some P') /\
  (forall P : number,
     lastProcessedPrice e !! symbol = Some P ->
     ((JS.abs (P' - P) / P <=? Fin 0.0005)%js = true ->
      shouldRefreshClusters e symbol P' = (false, e)) /\
     ((JS.abs (P' - P) / P >? Fin 0.0005)%js = true ->
      shouldRefreshClusters e symbol P' = (true, record_price e symbol P') /\
      lastProcessedPrice (snd (shouldRefreshClusters e symbol P')) !! symbol
        = Some P')).
Proof.
  split.
  - intros Hnone. rewrite (gate_first _ _ _ Hnone).
    split; [reflexivity | apply record_price_lookup].
  - intros P Hsome. split.
    + apply gate_reject. exact Hsome.
    + intros Hgt. rewrite (gate_accept _ _ _ _ Hsome Hgt).
      split; [reflexivity | apply record_price_lookup].
Qed.

End Gate.

Lemma shouldRefreshClusters_gate_witness :
  let e0 := ClusterEngine.new in
  let e1 := snd (ClusterEngine.shouldRefreshClusters e0 "BTCUSDT" (Fin 100)) in
  fst (ClusterEngine.shouldRefreshClusters e0 "BTCUSDT" (Fin 100)) = true /\
  ClusterEngine.shouldRefreshClusters e1 "BTCUSDT" (Fin 100.04) = (false, e1) /\
  fst (ClusterEngine.shouldRefreshClusters e1 "BTCUSDT" (Fin 100.06)) = true.
Proof.
  intros e0 e1.
  destruct (shouldRefreshClusters_gate e0 "BTCUSDT" (Fin 100)) as [Hfirst _].
  destruct (shouldRefreshClusters_gate e1 "BTCUSDT" (Fin 100.04)) as [_ Hlow].
  destruct (shouldRefreshClusters_gate e1 "BTCUSDT" (Fin 100.06)) as [_ Hhigh].
  split; [|split].
  - destruct Hfirst as [-> _]; reflexivity.
  - apply (Hlow (Fin 100)); [reflexivity | vm_compute; reflexivity].
  - destruct (Hhigh (Fin 100)) as [_ Hup]; [reflexivity|].
    destruct Hup as [-> _]; [vm_compute; reflexivity | reflexivity].
Defined.

(** ** Average true range *)

Section ATR.
Import ClusterEngine Sample.

Lemma pairs_lookup (candles : list CandleData.t) (i : nat) previous current :
  candles !! i = Some previous -> candles !! S i = Some current ->
  Spec.pairs candles !! i = Some (previous, current).
Proof.
  revert i. induction candles as [|a l IH]; intros i Hp Hc; [discriminate|].
  destruct l as [|b l']; [discriminate|].
  destruct i as [|i].
  - cbn in *. congruence.
  - cbn [Spec.pairs]. cbn [lookup list_lookup]. apply IH; assumption.
Qed.

Lemma pairs_length (candles : list CandleData.t) :
  length (Spec.pairs candles) = (length candles - 1)%nat.
Proof.
  induction candles as [|a l IH]; [reflexivity|].
  destruct l as [|b l']; [reflexivity|].
  cbn [Spec.pairs length] in *. lia.
Qed.

Lemma pairs_take (candles : list CandleData.t) (n : nat) :
  take n (Spec.pairs candles) = Spec.pairs (take (S n) candles).
Proof.
  revert n. induction candles as [|a l IH]; intros n; [destruct n; reflexivity|].
  destruct l as [|b l']; [destruct n; reflexivity|].
  destruct n as [|n]; [reflexivity|].
  change (Spec.pairs (a :: b :: l')) with ((a, b) :: Spec.pairs (b :: l')).
  change (take (S (S n)) (a :: b :: l')) with (a :: take (S n) (b :: l')).
  cbn [take]. rewrite IH. reflexivity.
Qed.

(** The loop of [calculateATR] pushes the true ranges of the first
    steps of the list, in order. *)
Lemma calculateATR_loop (candles : list CandleData.t) (n : nat) :
  (n < length candles)%nat ->
  fold_left (calculateATR_step candles) (seq 1 n) [] =
  map (fun '(previous, current) => Spec.true_range previous current)
      (take n (Spec.pairs candles)).
Proof.
  induction n as [|n IH]; intros Hn; [reflexivity|].
  rewrite seq_S, fold_left_app, IH by lia. cbn [fold_left Nat.add].
  destruct (lookup_lt_is_Some_2 candles (S n)) as [current Hc]; [lia|].
  destruct (lookup_lt_is_Some_2 candles n) as [previous Hp]; [lia|].
  unfold calculateATR_step.
  replace (S n - 1)%nat with n by lia. rewrite Hc, Hp.
  rewrite (take_S_r _ _ _ (pairs_lookup _ _ _ _ Hp Hc)).
  rewrite map_app. reflexivity.
Qed.

Lemma calculateATR_oldest (candles : list CandleData.t) (period : option nat) :
  calculateATR candles period = Spec.atr_oldest candles (default 14%nat period).
Proof.
  unfold calculateATR, Spec.atr_oldest.
  destruct (length candles <? 2)%nat eqn:E; [reflexivity|].
  apply Nat.ltb_ge in E.
  rewrite calculateATR_loop by lia.
  set (p := default 14%nat period).
  assert (take (Nat.min (length candles) (p + 1) - 1) (Spec.pairs candles)
          = take p (Spec.pairs candles)) as ->.
  { destruct (Nat.le_gt_cases (p + 1) (length candles)) as [H|H].
    - f_equal. lia.
    - rewrite !take_ge.
      + reflexivity.
      + rewrite pairs_length. lia.
      + rewrite pairs_length. lia. }
  reflexivity.
Qed.

(** C5, as the code has it.  [calculateATR] returns 0.001 for fewer
    than two candles; otherwise it is the average of the true ranges over
    up to [period] of the oldest consecutive pairs of the list (those of
    lowest index), so that candles after the first [period + 1] do not
    change the result. *)
Theorem calculateATR_oldest_pairs (candles : list CandleData.t)
    (period : option nat) :
  ((length candles < 2)%nat -> calculateATR candles period = Fin 0.001) /\
  calculateATR candles period
    = Spec.atr_oldest candles (default 14%nat period) /\
  (forall later : list CandleData.t,
     (2 <= length candles)%nat ->
     (default 14%nat period + 1 <= length candles)%nat ->
     calculateATR (candles ++ later) period = calculateATR candles period).
Proof.
  split; [|split].
  - intros H. unfold calculateATR.
    apply Nat.ltb_lt in H. rewrite H. reflexivity.
  - apply calculateATR_oldest.
  - intros later H2 Hp. rewrite !calculateATR_oldest.
    unfold Spec.atr_oldest. rewrite length_app.
    assert ((length candles + length later <? 2)%nat = false) as ->
      by (apply Nat.ltb_ge; lia).
    assert ((length candles <? 2)%nat = false) as -> by (apply Nat.ltb_ge; lia).
    rewrite !pairs_take. rewrite take_app_le by lia. reflexivity.
Qed.

Lemma calculateATR_oldest_pairs_witness :
  let candles := repeat (flat_candle 100) 15 in
  calculateATR [flat_candle 100] None = Fin 0.001 /\
  calculateATR (candles ++ [flat_candle 110]) None = calculateATR candles None.
Proof.
  intros candles. split.
  - destruct (calculateATR_oldest_pairs [flat_candle 100] None) as [H _].
    apply H. cbn. lia.
  - destruct (calculateATR_oldest_pairs candles None) as (_ & _ & H).
    apply H; cbn; lia.
Defined.

(** C5 as stated fails: on fifteen flat candles at 100 followed by one at
    110 the code answers 0, the average over the fourteen oldest steps,
    while the fourteen most recent steps average 10/14. *)
Lemma calculateATR_not_most_recent :
  let candles := repeat (flat_candle 100) 15 ++ [flat_candle 110] in
  (calculateATR candles None =? Fin 0)%js = true /\
  (Spec.atr_most_recent candles 14 =? Fin (5 # 7))%js = true /\
  (calculateATR candles None =? Spec.atr_most_recent candles 14)%js = false.
Proof. vm_compute. repeat split. Qed.

End ATR.

(** ** [Array.prototype.sort] *)

Section SortFacts.
Context {A : Type} (before : A -> A -> bool).

Lemma sort_insert_perm (x : A) (l : list A) :
  Permutation (JS.sort_insert before x l) (x :: l).
Proof.
  induction l as [|y l IH]; cbn; [reflexivity|].
  destruct (before x y); [reflexivity|].
  rewrite IH. apply perm_swap.
Qed.

Lemma sort_fold_perm (l acc : list A) :
  Permutation (fold_left (fun acc x => JS.sort_insert before x acc) l acc)
              (acc ++ l).
Proof.
  revert acc. induction l as [|x l IH]; intros acc; cbn.
  - rewrite app_nil_r. reflexivity.
  - rewrite IH, sort_insert_perm. apply Permutation_middle.
Qed.

Lemma sort_perm (l : list A) : Permutation (JS.sort before l) l.
Proof. unfold JS.sort. rewrite sort_fold_perm. reflexivity. Qed.

(** On elements that the comparator orders totally (property [P]), the
    result is sorted for the order [R] the comparator stands for. *)
Context (P : A -> Prop) (R : A -> A -> Prop).
Hypothesis before_true : forall x y, P x -> P y -> before x y = true -> R x y.
Hypothesis before_false : forall x y, P x -> P y -> before x y = false -> R y x.

Lemma sort_insert_sorted (x : A) (l : list A) :
  P x -> Forall P l -> Sorted R l -> Sorted R (JS.sort_insert before x l).
Proof.
  intros Hx HP Hs. induction l as [|y l IH]; cbn.
  - repeat constructor.
  - inversion HP as [|? ? Hy HP']; subst.
    inversion Hs as [|? ? Hs' Hhd]; subst.
    destruct (before x y) eqn:E.
    + constructor; [assumption|]. constructor. apply before_true; assumption.
    + constructor; [apply IH; assumption|].
      destruct l as [|z l]; cbn.
      * constructor. apply before_false; assumption.
      * destruct (before x z).
        -- constructor. apply before_false; assumption.
        -- inversion Hhd; subst. constructor. assumption.
Qed.

Lemma sort_sorted (l : list A) : Forall P l -> Sorted R (JS.sort before l).
Proof.
  intros HP. unfold JS.sort.
  assert (forall acc, Forall P acc -> Sorted R acc ->
            Sorted R (fold_left (fun acc x => JS.sort_insert before x acc) l acc))
    as H.
  { induction l as [|x l IH]; intros acc Hacc Hs; cbn; [assumption|].
    inversion HP; subst. apply IH; [assumption| |].
    - rewrite sort_insert_perm. constructor; assumption.
    - apply sort_insert_sorted; assumption. }
  apply H; constructor.
Qed.

Lemma Sorted_take (n : nat) (l : list A) : Sorted R l -> Sorted R (take n l).
Proof.
  revert n. induction l as [|x l IH]; intros n Hs; destruct n; cbn;
    try constructor.
  - apply IH. inversion Hs; assumption.
  - inversion Hs as [|? ? _ Hhd]; subst.
    destruct l, n; cbn; constructor. inversion Hhd; assumption.
Qed.

End SortFacts.

(** ** The depth filter *)

Section DepthFilter.
Import ClusterEngine Sample Spec.

Lemma in_band_not_NaN lo hi level :
  in_band lo hi level -> OrderBookLevel.price level <> NaN.
Proof. intros [H _]. apply le_true_not_NaN in H. tauto. Qed.

Lemma filter_in_band (f : OrderBookLevel.t -> bool) lo hi levels :
  (forall level, f level = true -> in_band lo hi level) ->
  Forall (in_band lo hi) (List.filter f levels).
Proof.
  intros Hf. apply List.Forall_forall. intros level Hin.
  apply filter_In in Hin. apply Hf, Hin.
Qed.

Lemma side_sorted (before : OrderBookLevel.t -> OrderBookLevel.t -> bool)
    (R : OrderBookLevel.t -> OrderBookLevel.t -> Prop) lo hi levels :
  (forall x y, in_band lo hi x -> in_band lo hi y -> before x y = true -> R x y) ->
  (forall x y, in_band lo hi x -> in_band lo hi y -> before x y = false -> R y x) ->
  Forall (in_band lo hi) levels ->
  let side := JS.slice_first 50 (JS.sort before levels) in
  Forall (in_band lo hi) side /\ Sorted R side /\ (length side <= 50)%nat.
Proof.
  intros Ht Hf HP side. subst side. unfold JS.slice_first. split; [|split].
  - apply Forall_take. rewrite sort_perm. assumption.
  - apply Sorted_take. eapply sort_sorted; eassumption.
  - rewrite length_take. lia.
Qed.

(** C7, as the code has it.  With [r] the range passed, or 2 when the
    argument is omitted, every bid returned by [filterDepth] has
    [C*(1-r/100) <= price <= C] and the bids are in descending order of
    price; every ask has [C <= price <= C*(1+r/100)] and the asks are in
    ascending order; each side has at most 50 levels. *)
Theorem filterDepth_band (orderBook : OrderBookData.t) (C : number)
    (rangePercent : option number) :
  let r := default (Fin 2) rangePercent in
  let result := filterDepth orderBook C rangePercent in
  filterDepth orderBook C None = filterDepth orderBook C (Some (Fin 2)) /\
  Forall (in_band (C * (Fin 1 - r / Fin 100)) C) (OrderBookData.bids result) /\
  Sorted price_desc (OrderBookData.bids result) /\
  Forall (in_band C (C * (Fin 1 + r / Fin 100))) (OrderBookData.asks result) /\
  Sorted price_asc (OrderBookData.asks result) /\
  (length (OrderBookData.bids result) <= 50)%nat /\
  (length (OrderBookData.asks result) <= 50)%nat.
Proof.
  intros r result. split; [reflexivity|].
  assert (forall lo hi x y, in_band lo hi x -> in_band lo hi y ->
            bids_desc x y = true -> price_desc x y) as Hbt.
  { intros lo hi x y Hx Hy. unfold bids_desc, price_desc.
    apply sub_neg_iff_lt; eapply in_band_not_NaN; eassumption. }
  assert (forall lo hi x y, in_band lo hi x -> in_band lo hi y ->
            bids_desc x y = false -> price_desc y x) as Hbf.
  { intros lo hi x y Hx Hy. unfold bids_desc, price_desc.
    apply sub_neg_iff_lt; eapply in_band_not_NaN; eassumption. }
  assert (forall lo hi x y, in_band lo hi x -> in_band lo hi y ->
            asks_asc x y = true -> price_asc x y) as Hat.
  { intros lo hi x y Hx Hy. unfold asks_asc, price_asc.
    apply sub_neg_iff_lt; eapply in_band_not_NaN; eassumption. }
  assert (forall lo hi x y, in_band lo hi x -> in_band lo hi y ->
            asks_asc x y = false -> price_asc y x) as Haf.
  { intros lo hi x y Hx Hy. unfold asks_asc, price_asc.
    apply sub_neg_iff_lt; eapply in_band_not_NaN; eassumption. }
  subst result. unfold filterDepth. fold r. cbn [OrderBookData.bids OrderBookData.asks].
  match goal with
  | |- context [JS.slice_first 50 (JS.sort bids_desc ?l)] =>
      assert (Forall (in_band (C * (Fin 1 - r / Fin 100)) C) l) as HB
  end.
  { apply filter_in_band. intros level H.
    apply andb_true_iff in H. exact H. }
  match goal with
  | |- context [JS.slice_first 50 (JS.sort asks_asc ?l)] =>
      assert (Forall (in_band C (C * (Fin 1 + r / Fin 100))) l) as HA
  end.
  { apply filter_in_band. intros level H.
    apply andb_true_iff in H. destruct H. split; assumption. }
  destruct (side_sorted bids_desc price_desc _ _ _ (Hbt _ _) (Hbf _ _) HB)
    as (? & ? & ?).
  destruct (side_sorted asks_asc price_asc _ _ _ (Hat _ _) (Haf _ _) HA)
    as (? & ? & ?).
  repeat split; assumption.
Qed.

(** C7 as stated fails in its default: with the third argument omitted
    a bid at 98.2 around the center 100 is kept, below the bound
    100*(1-1.5/100) = 98.5 that a default of 1.5 would give; the call
    with 1.5 passed drops it. *)
Lemma filterDepth_default_is_not_1_5 :
  OrderBookData.bids (filterDepth one_bid_book (Fin 100) None)
    = [OrderBookLevel.mk (Fin 98.2) (Fin 1)] /\
  (Fin 100 * (Fin 1 - Fin 1.5 / Fin 100) <=? Fin 98.2)%js = false /\
  OrderBookData.bids (filterDepth one_bid_book (Fin 100) (Some (Fin 1.5))) = [].
Proof. vm_compute. repeat split. Qed.

End DepthFilter.

(** ** Integers as the code holds them *)

Section Integers.
Local Open Scope Z_scope.

(** Up to 2^53 an integer is its own Number value. *)
Lemma number_value_exact (z : Z) : Shape.exact z -> JS.number_value z = JS.of_Z z.
Proof.
  unfold Shape.exact, JS.number_value. intros H.
  destruct (Z.eq_dec (Z.abs z) (2 ^ 53)) as [E|E].
  - assert (z = 2 ^ 53 \/ z = - 2 ^ 53) as [-> | ->] by lia; reflexivity.
  - assert ((Z.log2 (Z.abs z) - 52 <=? 0) = true) as ->; [|reflexivity].
    apply Z.leb_le.
    destruct (Z.eq_dec (Z.abs z) 0) as [-> | Hz]; [cbn; lia|].
    assert (Z.log2 (Z.abs z) < 53); [|lia].
    apply Z.log2_lt_pow2; lia.
Qed.

(** A Number value is an integer or an infinity. *)
Lemma number_value_cases (z : Z) :
  (exists m, JS.number_value z = JS.of_Z m) \/
  (exists negative, JS.number_value z = Inf negative).
Proof.
  unfold JS.number_value. cbv zeta.
  destruct (_ <=? 0); [left; eexists; reflexivity|].
  destruct (_ <=? _); [right | left]; eexists; reflexivity.
Qed.

Lemma rounded_value (q : Q) (z : Z) :
  (q == inject_Z z)%Q -> JS.rounded (Fin q) = JS.number_value z.
Proof.
  intros Hq. unfold JS.rounded.
  assert (Qfloor q = z) as -> by (rewrite Hq; apply Qfloor_Z).
  assert (Qeq_bool (inject_Z z) q = true) as ->
    by (apply Qeq_bool_iff; symmetry; exact Hq).
  reflexivity.
Qed.

(** Within 2^53 the arithmetic of integers is exact. *)
Lemma rounded_exact (q : Q) (z : Z) :
  (q == inject_Z z)%Q -> Shape.exact z -> JS.rounded (Fin q) = JS.of_Z z.
Proof.
  intros Hq Hz. rewrite (rounded_value q z Hq). apply number_value_exact, Hz.
Qed.

(** A value between two exact integers is exact. *)
Lemma exact_between (x s : Z) (n : nat) :
  Shape.exact x -> Shape.exact (x + Z.of_nat (S n) * s) -> Shape.exact (x + s).
Proof.
  unfold Shape.exact. intros Hx Hy. rewrite Nat2Z.inj_succ in Hy.
  assert (0 <= Z.of_nat n) as Hn by lia.
  set (k := Z.of_nat n) in *. clearbody k.
  assert (0 <= k * s \/ k * s <= 0) as [Hp|Hp] by lia.
  - destruct (Z.le_gt_cases 0 s) as [Hs|Hs]; [|nia]. nia.
  - destruct (Z.le_gt_cases 0 s) as [Hs|Hs]; nia.
Qed.

End Integers.

(** ** The backfill and the clock of the generator *)

Section Backfill.
Import TestDataGenerator Sample.
Local Open Scope Q_scope.

(** A new candle touches the candle window only. *)
Lemma generateSingleCandle_frame (this : t) (time price : number)
    (interval : string) (rng : Rng) :
  let made := generateSingleCandle this time price interval rng in
  currentPrice made.1.2 = currentPrice this /\
  currentTime made.1.2 = currentTime this /\
  priceHistory made.1.2 = priceHistory this /\
  clusterEngine made.1.2 = clusterEngine this.
Proof.
  unfold generateSingleCandle.
  destruct (ClusterEngine.generateEnhancedCandle time price interval
              (historicalCandles this) rng) as [candle rng'].
  cbn. repeat split.
Qed.

Lemma parseInt_cases (s : string) :
  JSString.parseInt s = NaN \/ exists z, JSString.parseInt s = JS.number_value z.
Proof.
  unfold JSString.parseInt.
  destruct (match JSString.trim_start s with
            | String "-" s' => ((-1)%Z, s')
            | String "+" s' => (1%Z, s')
            | _ => (1%Z, JSString.trim_start s)
            end) as [sign rest].
  destruct (match rest with
            | String "0" (String "x" s') => (16%nat, s')
            | String "0" (String "X" s') => (16%nat, s')
            | _ => (10%nat, rest)
            end) as [radix body].
  destruct (JSString.digits radix None body); [right | left; reflexivity].
  eexists. reflexivity.
Qed.

(** The length of an interval is NaN, an infinity or an integer. *)
Lemma getIntervalInSeconds_cases (interval : string) :
  getIntervalInSeconds interval = NaN \/
  (exists negative, getIntervalInSeconds interval = Inf negative) \/
  exists s : Z, getIntervalInSeconds interval = JS.of_Z s.
Proof.
  assert (forall z, (exists negative, JS.number_value z = Inf negative) \/
                    exists s : Z, JS.number_value z = JS.of_Z s) as Hv.
  { intros z. destruct (number_value_cases z) as [H|H]; [right | left]; exact H. }
  assert (forall (value : number) (f : Z),
            value = NaN \/ (exists z, value = JS.number_value z) ->
            (0 < f)%Z ->
            JS.rounded (value * JS.of_Z f)%js = NaN \/
            (exists negative,
               JS.rounded (value * JS.of_Z f)%js = Inf negative) \/
            exists s : Z, JS.rounded (value * JS.of_Z f)%js = JS.of_Z s) as Hunit.
  { intros value f [-> | [z ->]] Hf; [left; reflexivity | right].
    destruct (number_value_cases z) as [[m ->] | [negative ->]].
    - unfold JS.of_Z. rewrite mul_Fin.
      rewrite (rounded_value _ (m * f)%Z) by (rewrite inject_Z_mult; reflexivity).
      apply Hv.
    - left. unfold JS.of_Z. cbn [JS.mul].
      assert (JS.is_zero (inject_Z f) = false) as ->.
      { apply is_zero_false. change 0 with (inject_Z 0).
        rewrite inject_Z_injective. lia. }
      eexists. reflexivity. }
  unfold getIntervalInSeconds.
  pose proof (parseInt_cases interval) as Hp.
  repeat match goal with
         | |- context [if ?b then _ else _] => destruct b
         end.
  - destruct Hp as [-> | [z ->]]; [left; reflexivity | right; apply Hv].
  - apply (Hunit _ 60%Z Hp). lia.
  - apply (Hunit _ 3600%Z Hp). lia.
  - apply (Hunit _ 86400%Z Hp). lia.
  - apply (Hunit _ 604800%Z Hp). lia.
  - apply (Hunit _ 2629746%Z Hp). lia.
  - right. right. exists 60%Z. reflexivity.
Qed.

(** The cursor of the loop over exact integers: [n] steps of [s]. *)
Lemma historical_loop_time (n : nat) (interval : string) (s : Z) :
  getIntervalInSeconds interval = JS.of_Z s ->
  forall (x : Z) this candles price rng,
    Shape.exact x -> Shape.exact (x + Z.of_nat n * s) ->
    (historical_loop n interval this candles (JS.of_Z x) price rng).1.1.1.2
    = JS.of_Z (x + Z.of_nat n * s).
Proof.
  intros Hs. induction n as [|n IH]; intros x this candles price rng Hx Hend.
  - cbn [historical_loop fst snd]. f_equal. lia.
  - cbn [historical_loop].
    destruct (generateSingleCandle this (JS.of_Z x) price interval rng)
      as [[candle this'] rng'].
    rewrite Hs. unfold JS.of_Z at 1 2. rewrite add_Fin.
    rewrite (rounded_exact _ (x + s)%Z)
      by first [rewrite inject_Z_plus; reflexivity
               | exact (exact_between x s n Hx Hend)].
    assert ((x + Z.of_nat (S n) * s = x + s + Z.of_nat n * s)%Z) as E
      by (rewrite Nat2Z.inj_succ; ring).
    pose proof (exact_between x s n Hx Hend) as Hnext.
    rewrite E in *. apply IH; [exact Hnext | exact Hend].
Qed.

Lemma historical_loop_time_NaN (n : nat) (interval : string) :
  forall this candles price rng,
    (historical_loop n interval this candles NaN price rng).1.1.1.2 = NaN.
Proof.
  induction n as [|n IH]; intros this candles price rng; [reflexivity|].
  cbn [historical_loop].
  destruct (generateSingleCandle this NaN price interval rng)
    as [[candle this'] rng'].
  cbn [JS.add JS.rounded]. apply IH.
Qed.

Lemma generateHistoricalCandles_currentTime (this : t) (count : nat)
    (interval : string) (rng : Rng) :
  currentTime (generateHistoricalCandles this count interval rng).1.2
  = (historical_loop count interval this []
       (JS.rounded
          (currentTime this
           - JS.rounded (JS.of_nat count * getIntervalInSeconds interval)))%js
       (currentPrice this * (Fin 0.95 + (JS.random rng).1 * Fin 0.1))%js
       (JS.random rng).2).1.1.1.2.
Proof.
  unfold generateHistoricalCandles. cbn [JS.random fst snd].
  match goal with
  | |- context [historical_loop ?n ?i ?g ?c ?t ?p ?r] =>
      destruct (historical_loop n i g c t p r) as [[[[cs time] price] g'] rng']
  end.
  reflexivity.
Qed.

(** The backfill does not touch the cluster engine: the gate and the
    ATR cache are as before. *)
Lemma historical_loop_engine (n : nat) (interval : string) :
  forall this candles time price rng,
    clusterEngine
      (historical_loop n interval this candles time price rng).1.2
    = clusterEngine this.
Proof.
  induction n as [|n IH]; intros this candles time price rng; [reflexivity|].
  cbn [historical_loop].
  pose proof (generateSingleCandle_frame this time price interval rng)
    as (_ & _ & _ & He).
  destruct (generateSingleCandle this time price interval rng)
    as [[candle this'] rng'].
  cbn [fst snd] in He. rewrite IH. exact He.
Qed.

Lemma generateHistoricalCandles_engine (this : t) (count : nat)
    (interval : string) (rng : Rng) :
  clusterEngine (generateHistoricalCandles this count interval rng).1.2
  = clusterEngine this.
Proof.
  unfold generateHistoricalCandles. cbn [JS.random fst snd].
  match goal with
  | |- context [historical_loop ?n ?i ?g ?c ?t ?p ?r] =>
      pose proof (historical_loop_engine n i g c t p r) as He;
      destruct (historical_loop n i g c t p r) as [[[[cs time] price] g'] rng']
  end.
  cbn [fst snd] in *. exact He.
Qed.

(** The time of the first candle of a backfill over exact integers. *)
Lemma backfill_start (clock : Q) (count : nat) (interval : string) (t s : Z) :
  clock == inject_Z t ->
  getIntervalInSeconds interval = JS.of_Z s ->
  Shape.exact_backfill t s count ->
  JS.rounded
    (Fin clock - JS.rounded (JS.of_nat count * getIntervalInSeconds interval))%js
  = JS.of_Z (t - Z.of_nat count * s).
Proof.
  intros Hq Hs (_ & _ & Hspan & Hstart).
  rewrite Hs. unfold JS.of_nat, JS.of_Z at 1. rewrite mul_Fin.
  rewrite (rounded_exact _ (Z.of_nat count * s)%Z)
    by first [rewrite inject_Z_mult; reflexivity | exact Hspan].
  unfold JS.of_Z at 1. rewrite sub_Fin.
  apply rounded_exact; [|exact Hstart].
  rewrite Hq. unfold Z.sub. rewrite inject_Z_plus, inject_Z_opp. reflexivity.
Qed.


(** A clock that is NaN stays NaN, whatever the interval. *)
Lemma generateHistoricalCandles_clock_NaN (this : t) (count : nat)
    (interval : string) (rng : Rng) :
  currentTime this = NaN ->
  currentTime (generateHistoricalCandles this count interval rng).1.2 = NaN.
Proof.
  intros Ht. rewrite generateHistoricalCandles_currentTime, Ht.
  cbn [JS.sub JS.add JS.rounded]. apply historical_loop_time_NaN.
Qed.

(** The cursor of the loop, in general: [n] rounded additions. *)
Lemma iter_shift {A} (f : A -> A) (k : nat) (x : A) :
  Nat.iter k f (f x) = Nat.iter (S k) f x.
Proof.
  induction k as [|k IH]; simpl in *; [reflexivity|].
  rewrite IH. reflexivity.
Qed.

Lemma historical_loop_cursor (n : nat) (interval : string) :
  forall this candles time price rng,
    (historical_loop n interval this candles time price rng).1.1.1.2
    = Nat.iter n
        (fun t => JS.rounded (t + getIntervalInSeconds interval)%js) time.
Proof.
  induction n as [|n IH]; intros this candles time price rng; [reflexivity|].
  cbn [historical_loop].
  destruct (generateSingleCandle this time price interval rng)
    as [[candle this'] rng'].
  rewrite IH.
  exact (iter_shift
           (fun t => JS.rounded (t + getIntervalInSeconds interval)%js) n time).
Qed.

(** C10 fails on the code.  The interval string "m" has a unit and no
    integer: [parseInt] gives NaN, the length of the interval is NaN,
    and [generateHistoricalCandles] leaves [currentTime] NaN, which
    equals no value the clock had before the call; every later backfill
    of the generator, whatever its count and interval, leaves it
    NaN. *)
Theorem generateHistoricalCandles_loses_currentTime (this : t) (count : nat)
    (rng : Rng) :
  let this' := (generateHistoricalCandles this count "m" rng).1.2 in
  getIntervalInSeconds "m" = NaN /\
  currentTime this' = NaN /\
  (currentTime this' =? currentTime this)%js = false /\
  forall (count' : nat) (interval : string) (rng' : Rng),
    currentTime (generateHistoricalCandles this' count' interval rng').1.2
    = NaN.
Proof.
  intros this'.
  assert (getIntervalInSeconds "m" = NaN) as Hm by reflexivity.
  assert (currentTime this' = NaN) as Hclock.
  { subst this'. rewrite generateHistoricalCandles_currentTime, Hm.
    assert (forall a, JS.rounded (a - JS.rounded (JS.of_nat count * NaN))%js
                      = NaN) as ->
      by (intros [| |]; reflexivity).
    apply historical_loop_time_NaN. }
  split; [exact Hm|]. split; [exact Hclock|]. split.
  - rewrite Hclock. reflexivity.
  - intros count' interval rng'.
    apply generateHistoricalCandles_clock_NaN, Hclock.
Qed.

(** On the sample generator, whose clock is 1700000000. *)
Example generateHistoricalCandles_loses_sample :
  let g := Sample.generator in
  let g' := (generateHistoricalCandles g 50 "m" Sample.half_draws).1.2 in
  currentTime g = JS.of_Z 1700000000 /\ currentTime g' = NaN.
Proof.
  split; [reflexivity|].
  rewrite generateHistoricalCandles_currentTime.
  assert (getIntervalInSeconds "m" = NaN) as -> by reflexivity.
  apply historical_loop_time_NaN.
Qed.

(** Past 2^53 the cursor is rounded at every step.  The interval
    "100000000M" is 262974600000000 seconds long; a backfill of 50
    candles starts 13148730000000000 seconds back, and moves a clock of
    1762166403 to 1762166404 and one of 1762166401 to 1762166400. *)
Example generateHistoricalCandles_drift (this : t) (rng : Rng) :
  getIntervalInSeconds "100000000M" = JS.of_Z 262974600000000 /\
  (currentTime this = JS.of_Z 1762166403 ->
   currentTime (generateHistoricalCandles this 50 "100000000M" rng).1.2
   = JS.of_Z 1762166404) /\
  (currentTime this = JS.of_Z 1762166401 ->
   currentTime (generateHistoricalCandles this 50 "100000000M" rng).1.2
   = JS.of_Z 1762166400).
Proof.
  split; [vm_compute; reflexivity|].
  split; intros Ht;
    rewrite generateHistoricalCandles_currentTime, historical_loop_cursor, Ht;
    vm_compute; reflexivity.
Qed.

(** [parseInt] beyond the exact integers: the nearest double, and
    Infinity past the largest double.  An interval of 2 * 10^308
    minutes has an infinite length, and a backfill over it leaves the
    clock NaN. *)
Example parseInt_rounds :
  JSString.parseInt "9007199254740993" = JS.of_Z 9007199254740992 /\
  JSString.parseInt "9007199254740995" = JS.of_Z 9007199254740996 /\
  JSString.parseInt "-9007199254740993s" = JS.of_Z (-9007199254740992) /\
  JS.finite (JSString.parseInt (Shape.numeral (1 :: repeat 0 308)%nat ++ "m")) /\
  JSString.parseInt (Shape.numeral (2 :: repeat 0 308)%nat ++ "m")
  = Inf false.
Proof. vm_compute. repeat split. Qed.

Example generateHistoricalCandles_overflow (this : t) (rng : Rng) (clock : Q) :
  let interval := (Shape.numeral (2 :: repeat 0 308)%nat ++ "m")%string in
  getIntervalInSeconds interval = Inf false /\
  (currentTime this = Fin clock ->
   currentTime (generateHistoricalCandles this 50 interval rng).1.2 = NaN).
Proof.
  intros interval.
  assert (getIntervalInSeconds interval = Inf false) as Hs
    by (vm_compute; reflexivity).
  split; [exact Hs|]. intros Ht.
  rewrite generateHistoricalCandles_currentTime, historical_loop_cursor, Ht, Hs.
  reflexivity.
Qed.

End Backfill.

(** ** Realtime updates *)

Section Realtime.
Import TestDataGenerator.

Lemma lt_le (a b : number) : (a <? b)%js = true -> (a <=? b)%js = true.
Proof.
  destruct a as [|s|p], b as [|t|q]; cbn; try congruence.
  - destruct s, t; cbn; congruence.
  - intros H. apply Qle_bool_iff. apply (lt_Fin p q) in H.
    apply Qlt_le_weak. exact H.
Qed.

(** The price step touches the price and the price history only, and
    returns the new price. *)
Lemma simulatePriceMovement_frame (this : t) (rng : Rng) :
  let moved := simulatePriceMovement this rng in
  moved.1.1 = currentPrice moved.1.2 /\
  currentTime moved.1.2 = currentTime this /\
  clusterEngine moved.1.2 = clusterEngine this /\
  historicalCandles moved.1.2 = historicalCandles this.
Proof. cbn. repeat split. Qed.

(** [generateRealtimeUpdate] in terms of its three steps. *)
Lemma generateRealtimeUpdate_steps (this : t) (interval : string) (rng : Rng) :
  generateRealtimeUpdate this interval rng =
  let moved := simulatePriceMovement this rng in
  let gate :=
    ClusterEngine.shouldRefreshClusters (clusterEngine moved.1.2) "BTCUSDT"
      moved.1.1 in
  let this := set_engine moved.1.2 gate.2 in
  if negb gate.1 then (None, this, moved.2) else
  let made :=
    generateSingleCandle this (currentTime this) moved.1.1 interval moved.2 in
  (Some made.1.1,
   set_engine made.1.2
     (ClusterEngine.updateATRCache (clusterEngine made.1.2) "BTCUSDT"
        (historicalCandles made.1.2)),
   made.2).
Proof.
  unfold generateRealtimeUpdate.
  destruct (simulatePriceMovement this rng) as [[newPrice this1] rng1].
  cbn [fst snd].
  destruct (ClusterEngine.shouldRefreshClusters (clusterEngine this1)
              "BTCUSDT" newPrice) as [refresh engine].
  cbn [fst snd]. destruct refresh; cbn [negb]; [|reflexivity].
  destruct (generateSingleCandle (set_engine this1 engine)
              (currentTime (set_engine this1 engine)) newPrice interval rng1)
    as [[candle this2] rng2].
  reflexivity.
Qed.

Lemma set_engine_same (this : t) : set_engine this (clusterEngine this) = this.
Proof. destruct this. reflexivity. Qed.

(** A tick that the gate rejects returns [null] and leaves the generator
    as the price step left it. *)
Lemma generateRealtimeUpdate_reject (this : t) (interval : string) (rng : Rng) :
  let moved := simulatePriceMovement this rng in
  (ClusterEngine.shouldRefreshClusters (clusterEngine this) "BTCUSDT"
     moved.1.1).1 = false ->
  generateRealtimeUpdate this interval rng = (None, moved.1.2, moved.2).
Proof.
  rewrite generateRealtimeUpdate_steps.
  pose proof (simulatePriceMovement_frame this rng) as (_ & _ & He & _).
  set (moved := simulatePriceMovement this rng) in *. clearbody moved.
  destruct moved as [[newPrice this1] rng1]. cbn [fst snd] in *.
  intros Hgate. rewrite He.
  destruct (ClusterEngine.shouldRefreshClusters (clusterEngine this)
              "BTCUSDT" newPrice) as [refresh engine] eqn:Egate.
  cbn [fst snd] in *. subst refresh. cbn [negb].
  assert (engine = clusterEngine this) as ->.
  { unfold ClusterEngine.shouldRefreshClusters in Egate.
    destruct (ClusterEngine.lastProcessedPrice (clusterEngine this) !! "BTCUSDT")
      as [lastPrice|]; [|discriminate].
    destruct (negb (JS.truthy lastPrice)); [discriminate|].
    match type of Egate with
    | (if ?c then _ else _) = _ => destruct c; [discriminate|]
    end.
    congruence. }
  rewrite <- He, set_engine_same. reflexivity.
Qed.

(** A tick on a generator whose gate has no recorded price returns a
    candle and records the new price, the current price afterwards. *)
Lemma generateRealtimeUpdate_first (this : t) (interval : string) (rng : Rng) :
  ClusterEngine.lastProcessedPrice (clusterEngine this) !! "BTCUSDT" = None ->
  let result := generateRealtimeUpdate this interval rng in
  is_Some result.1.1 /\
  ClusterEngine.lastProcessedPrice (clusterEngine result.1.2) !! "BTCUSDT"
    = Some (currentPrice result.1.2).
Proof.
  intros Hnone. rewrite generateRealtimeUpdate_steps.
  pose proof (simulatePriceMovement_frame this rng) as (Hp & _ & He & _).
  set (moved := simulatePriceMovement this rng) in *. clearbody moved.
  destruct moved as [[newPrice this1] rng1]. cbn [fst snd] in *.
  rewrite He, (gate_first _ _ _ Hnone). cbn [fst snd negb].
  match goal with
  | |- context [generateSingleCandle ?g ?t ?p ?i ?r] =>
      pose proof (generateSingleCandle_frame g t p i r) as (Hc & _ & _ & Hce);
      set (made := generateSingleCandle g t p i r) in *; clearbody made
  end.
  destruct made as [[candle this2] rng2]. cbn [fst snd] in *.
  split; [eexists; reflexivity|].
  destruct this2 as [price2 time2 history2 engine2 candles2].
  destruct this1 as [price1 time1 history1 engine1 candles1].
  cbn in Hc, Hce, Hp |- *. subst.
  apply record_price_lookup.
Qed.

(** C8.  When the gate rejects the price of a tick,
    [generateRealtimeUpdate] returns no candle, and the generator is left
    exactly as the price update left it: the candle window, the ATR cache
    and the recorded price are unchanged.  On a generator whose gate has
    no recorded price, two ticks in succession of which the second price
    differs from the first by less than 0.05% give a candle on the first
    tick and none on the second. *)
Theorem generateRealtimeUpdate_smart_refresh :
  (forall (this : t) (interval : string) (rng : Rng),
     let moved := simulatePriceMovement this rng in
     let result := generateRealtimeUpdate this interval rng in
     (ClusterEngine.shouldRefreshClusters (clusterEngine this) "BTCUSDT"
        moved.1.1).1 = false ->
     result.1.1 = None /\
     result.1.2 = moved.1.2 /\
     historicalCandles result.1.2 = historicalCandles this /\
     clusterEngine result.1.2 = clusterEngine this /\
     currentTime result.1.2 = currentTime this) /\
  (forall (this : t) (interval : string) (rng : Rng),
     let tick1 := generateRealtimeUpdate this interval rng in
     let tick2 := generateRealtimeUpdate tick1.1.2 interval tick1.2 in
     let P1 := currentPrice tick1.1.2 in
     let P2 := currentPrice tick2.1.2 in
     ClusterEngine.lastProcessedPrice (clusterEngine this) !! "BTCUSDT" = None ->
     (JS.abs (P2 - P1) / P1 <? Fin 0.0005)%js = true ->
     is_Some tick1.1.1 /\ tick2.1.1 = None).
Proof.
  split.
  - intros this interval rng moved result Hgate. subst result.
    rewrite (generateRealtimeUpdate_reject this interval rng Hgate).
    pose proof (simulatePriceMovement_frame this rng) as (_ & Ht & He & Hh).
    fold moved in Ht, He, Hh |- *. clearbody moved.
    cbn [fst snd]. repeat split; assumption.
  - intros this interval rng tick1 tick2 P1 P2 Hnone Hclose.
    pose proof (generateRealtimeUpdate_first this interval rng Hnone)
      as [Hsome Hrec].
    fold tick1 in Hsome, Hrec. fold P1 in Hrec. split; [exact Hsome|].
    subst P1 P2 tick2. clearbody tick1.
    destruct tick1 as [[candle1 g1] rng1]. cbn [fst snd] in *.
    destruct (ClusterEngine.shouldRefreshClusters (clusterEngine g1)
                "BTCUSDT" (simulatePriceMovement g1 rng1).1.1).1 eqn:Egate.
    + exfalso. revert Hclose Egate.
      rewrite generateRealtimeUpdate_steps.
      pose proof (simulatePriceMovement_frame g1 rng1) as (Hp & _ & He & _).
      set (moved := simulatePriceMovement g1 rng1) in *. clearbody moved.
      destruct moved as [[newPrice this1] rng2]. cbn [fst snd] in *.
      rewrite He.
      destruct (ClusterEngine.shouldRefreshClusters (clusterEngine g1)
                  "BTCUSDT" newPrice) as [refresh engine] eqn:Eg.
      cbn [fst snd]. intros Hclose ->. cbn [negb] in Hclose.
      match type of Hclose with
      | context [generateSingleCandle ?g ?t ?p ?i ?r] =>
          pose proof (generateSingleCandle_frame g t p i r) as (Hc & _ & _ & _);
          set (made := generateSingleCandle g t p i r) in *; clearbody made
      end.
      destruct made as [[candle2 this2] rng3]. cbn [fst snd] in *.
      destruct this2 as [price2 time2 history2 engine2 candles2].
      destruct this1 as [price1 time1 history1 engine1 candles1].
      cbn in Hc, Hp, Hclose. subst.
      apply lt_le in Hclose.
      rewrite (gate_reject _ _ _ _ Hrec Hclose) in Eg. discriminate.
    + rewrite (generateRealtimeUpdate_reject g1 interval rng1 Egate).
      reflexivity.
Qed.

End Realtime.
Lemma generateRealtimeUpdate_smart_refresh_witness :
  let tick1 :=
    TestDataGenerator.generateRealtimeUpdate Sample.generator "1m"
      Sample.half_draws in
  let tick2 := TestDataGenerator.generateRealtimeUpdate tick1.1.2 "1m" tick1.2 in
  (is_Some tick1.1.1 /\ tick2.1.1 = None) /\
  TestDataGenerator.historicalCandles tick2.1.2
    = TestDataGenerator.historicalCandles tick1.1.2.
Proof.
  destruct generateRealtimeUpdate_smart_refresh as [Hreject Hscenario].
  pose proof (Hscenario Sample.generator "1m" Sample.half_draws) as H2.
  cbv zeta in H2 |- *.
  set (tick1 := TestDataGenerator.generateRealtimeUpdate Sample.generator "1m"
                  Sample.half_draws) in *.
  pose proof (Hreject tick1.1.2 "1m" tick1.2) as H1. cbv zeta in H1.
  split.
  - apply H2; [reflexivity | vm_compute; reflexivity].
  - apply H1. vm_compute. reflexivity.
Defined.

(** ** The candle synthesizer *)

Section Candle.
Import ClusterEngine Spec.
Import JS (qmax, qmin).
Local Open Scope Q_scope.

Lemma nonneg_Fin (a : number) : nonneg a -> exists q, a = Fin q /\ 0 <= q.
Proof. destruct a; cbn; try tauto. eauto. Qed.

Lemma sum_from_nonneg (xs : list number) (acc : Q) :
  Forall nonneg xs -> 0 <= acc ->
  exists s, fold_left (fun acc x => acc + x)%js xs (Fin acc) = Fin s /\ 0 <= s.
Proof.
  revert acc. induction xs as [|x xs IH]; intros acc HF Hacc; cbn.
  - eauto.
  - inversion HF as [|? ? Hx HF']; subst.
    destruct (nonneg_Fin _ Hx) as (q & -> & Hq). cbn.
    apply IH; [assumption | lra].
Qed.

Lemma true_range_nonneg (previous current : CandleData.t) :
  finite_candle previous -> finite_candle current ->
  nonneg (true_range previous current).
Proof.
  intros (_ & _ & Hc) (Hh & Hl & _). unfold true_range, JS.max3.
  destruct (CandleData.close previous) as [| |c]; try contradiction.
  destruct (CandleData.high current) as [| |h]; try contradiction.
  destruct (CandleData.low current) as [| |l]; try contradiction.
  cbn [JS.sub JS.neg JS.add JS.abs]. rewrite !max_Fin. cbn [nonneg].
  pose proof (Qabs_nonneg (l + - c)).
  destruct (qmax_spec (qmax (h + - l) (Qabs (h + - c))) (Qabs (l + - c)))
    as (_ & ? & _).
  lra.
Qed.

Lemma pairs_finite (candles : list CandleData.t) :
  Forall finite_candle candles ->
  Forall (fun '(previous, current) =>
            finite_candle previous /\ finite_candle current)
         (pairs candles).
Proof.
  induction candles as [|a l IH]; intros HF; [constructor|].
  destruct l as [|b l']; [constructor|].
  inversion HF as [|? ? Ha HF']; subst. inversion HF'; subst.
  change (pairs (a :: b :: l')) with ((a, b) :: pairs (b :: l')).
  constructor; [split; assumption | apply IH; assumption].
Qed.

(** On candles whose prices are finite the ATR is a finite number, and
    it is not negative. *)
Lemma calculateATR_nonneg (candles : list CandleData.t) :
  Forall finite_candle candles -> nonneg (calculateATR candles None).
Proof.
  intros HF. rewrite calculateATR_oldest. unfold atr_oldest.
  destruct (length candles <? 2)%nat eqn:E; [cbn; lra|].
  apply Nat.ltb_ge in E.
  unfold atr_over, average, Spec.sum.
  set (steps := take (default 14%nat None) (pairs candles)).
  assert (Forall nonneg
            (map (fun '(previous, current) => true_range previous current) steps))
    as Hnn.
  { apply Forall_map. subst steps. apply Forall_take.
    eapply Forall_impl; [apply pairs_finite; exact HF|].
    intros [previous current] [Hp Hc]. apply true_range_nonneg; assumption. }
  destruct (sum_from_nonneg _ 0 Hnn) as (s & -> & Hs); [lra|].
  rewrite length_map.
  assert (1 <= length steps)%nat as Hlen.
  { subst steps. rewrite length_take, pairs_length.
    change (default 14%nat None) with 14%nat. lia. }
  clearbody steps. unfold JS.of_nat. rewrite div_Fin.
  - cbn [nonneg]. apply Qle_shift_div_l.
    + change 0 with (inject_Z 0). rewrite <- Zlt_Qlt. lia.
    + rewrite Qmult_0_l. exact Hs.
  - intros H. unfold Qeq in H. cbn in H. lia.
Qed.

(** C3.  For a start price above zero, a history of candles with
    finite prices and draws in [0, 1), the candle that
    [generateEnhancedCandle] returns has low <= min(open, close),
    high >= max(open, close), close >= 1, volume = buyVolume + sellVolume
    and delta = buyVolume - sellVolume. *)
Theorem generateEnhancedCandle_invariants (time : number) (p : Q)
    (interval : string) (historicalCandles : list CandleData.t) (rng : Rng) :
  0 < p ->
  Forall finite_candle historicalCandles ->
  JS.unit_draws rng ->
  let c := (generateEnhancedCandle time (Fin p) interval historicalCandles rng).1 in
  (CandleData.low c <=? JS.min (CandleData.open c) (CandleData.close c))%js = true /\
  (CandleData.high c >=? JS.max (CandleData.open c) (CandleData.close c))%js = true /\
  (CandleData.close c >=? Fin 1)%js = true /\
  (CandleData.volume c =? CandleData.buyVolume c + CandleData.sellVolume c)%js = true /\
  (CandleData.delta c =? CandleData.buyVolume c - CandleData.sellVolume c)%js = true.
Proof.
  intros Hp HF Hdraws.
  destruct (nonneg_Fin _ (calculateATR_nonneg _ HF)) as (a & Ha & Hapos).
  unfold generateEnhancedCandle, JS.random. rewrite Ha.
  cbn [fst snd draws cursor].
  match goal with
  | |- context [generateAdaptiveClusters ?l ?h ?v ?b ?s ?atr ?c ?r] =>
      destruct (generateAdaptiveClusters l h v b s atr c r) as [clusters rng']
  end.
  cbn [fst CandleData.low CandleData.high CandleData.open CandleData.close
       CandleData.volume CandleData.buyVolume CandleData.sellVolume
       CandleData.delta].
  name_draw rng (cursor rng) r0.
  name_draw rng (S (cursor rng)) r1.
  name_draw rng (S (S (cursor rng))) r2.
  name_draw rng (S (S (S (cursor rng)))) r3.
  name_draw rng (S (S (S (S (cursor rng))))) r4.
  name_draw rng (S (S (S (S (S (cursor rng)))))) r5.
  name_draw rng (S (S (S (S (S (S (cursor rng))))))) r6.
  assert (~ p == 0) as Hp0 by lra.
  unfold JS.gt, JS.ge. fin_arith.
  rewrite !le_Fin, !eqb_Fin.
  match goal with
  | |- context [qmax ?x 1] => set (close := qmax x 1)
  end.
  assert (0 <= r3 * (a * (0.5 + r2))) as Hup.
  { apply Qmult_le_0_compat; [lra|]. apply Qmult_le_0_compat; lra. }
  assert (0 <= r4 * (a * (0.5 + r2))) as Hdown.
  { apply Qmult_le_0_compat; [lra|]. apply Qmult_le_0_compat; lra. }
  split; [lra|]. split; [lra|].
  split; [apply qmax_spec|].
  split; [ring | reflexivity].
Qed.

End Candle.

Lemma half_draws_unit : JS.unit_draws Sample.half_draws.
Proof. intros n. cbn. split; lra. Qed.

Lemma zero_draws_unit : JS.unit_draws Sample.zero_draws.
Proof. intros n. cbn. split; lra. Qed.

Lemma generateEnhancedCandle_invariants_witness :
  let c :=
    (ClusterEngine.generateEnhancedCandle (Fin 0) (Fin 100) "1m" []
       Sample.half_draws).1 in
  (CandleData.low c <=? JS.min (CandleData.open c) (CandleData.close c))%js = true /\
  (CandleData.high c >=? JS.max (CandleData.open c) (CandleData.close c))%js = true /\
  (CandleData.close c >=? Fin 1)%js = true /\
  (CandleData.volume c =? CandleData.buyVolume c + CandleData.sellVolume c)%js = true /\
  (CandleData.delta c =? CandleData.buyVolume c - CandleData.sellVolume c)%js = true.
Proof.
  apply (generateEnhancedCandle_invariants (Fin 0) 100 "1m" [] Sample.half_draws).
  - reflexivity.
  - constructor.
  - exact half_draws_unit.
Defined.

(** ** Adaptive clusters *)

Section Clusters.
Import ClusterEngine Spec.
Import JS (qmax, qmin).
Local Open Scope Q_scope.

Lemma of_nat_lt (i k : nat) : (JS.of_nat i <? JS.of_nat k)%js = true <-> (i < k)%nat.
Proof.
  unfold JS.of_nat. rewrite lt_Fin, <- Zlt_Qlt. lia.
Qed.

Lemma of_nat_lt_false (i k : nat) :
  (JS.of_nat i <? JS.of_nat k)%js = false <-> (k <= i)%nat.
Proof.
  unfold JS.of_nat. rewrite lt_Fin_false, <- Zle_Qle. lia.
Qed.

(** The number of clusters is an integer between 5 and 25 when the
    range and the cluster size are finite and the size is not zero. *)
Lemma optimal_clusters_range (range size : Q) :
  ~ size == 0 ->
  exists k : nat,
    optimal_clusters (Fin range) (Fin size) = JS.of_nat k /\ (5 <= k <= 25)%nat.
Proof.
  intros Hsize. unfold optimal_clusters. rewrite div_Fin by assumption.
  cbn [JS.floor]. rewrite min_Fin, max_Fin.
  set (f := Qfloor (range / size)).
  unfold qmax, qmin.
  destruct (Qle_bool 25 (inject_Z f)) eqn:E25.
  - exists 25%nat. split; [reflexivity | lia].
  - assert (f < 25)%Z as Hf.
    { apply Z.nle_gt. intros H. rewrite Zle_Qle in H.
      apply Qle_bool_iff in H. change (inject_Z 25) with 25 in H. congruence. }
    destruct (Qle_bool (inject_Z f) 5) eqn:E5.
    + exists 5%nat. split; [reflexivity | lia].
    + assert (5 < f)%Z as Hf5.
      { apply Z.nle_gt. intros H. rewrite Zle_Qle in H.
        apply Qle_bool_iff in H. change (inject_Z 5) with 5 in H. congruence. }
      exists (Z.to_nat f). split; [|lia].
      unfold JS.of_nat. rewrite Z2Nat.id by lia. reflexivity.
Qed.

(** The volume of one cluster: the uniform share scaled by an
    importance in (0, 1] and a random factor in [0.7, 1.3). *)
Lemma adaptive_cluster_volume (l h T : Q) (buy : number) (cp : Q)
    (k i : nat) (rng : Rng) :
  l < h -> 0 < T -> 0 < cp -> (i < k)%nat -> JS.unit_draws rng ->
  let made :=
    adaptive_cluster (Fin l) (Fin h) (Fin T) buy (Fin cp) (Fin (h - l))
      (JS.of_nat k) (Fin (h - l) / JS.of_nat k)%js i rng in
  (exists v, Cluster.volume made.1 = Fin v /\
             0 < v /\ v < 1.3 * T / inject_Z (Z.of_nat k)) /\
  draws made.2 = draws rng.
Proof.
  intros Hlh HT Hcp Hik Hdraws.
  unfold adaptive_cluster, JS.random. cbn [fst snd draws cursor Cluster.volume].
  split; [|reflexivity].
  name_draw rng (cursor rng) r0.
  unfold JS.of_nat.
  set (K := inject_Z (Z.of_nat k)). set (I := inject_Z (Z.of_nat i)).
  assert (0 < K) as HK.
  { subst K. change 0 with (inject_Z 0). rewrite <- Zlt_Qlt. lia. }
  assert (0 <= I) as HI.
  { subst I. change 0 with (inject_Z 0). rewrite <- Zle_Qle. lia. }
  assert (I + 1 <= K) as HIK.
  { subst I K. change 1 with (inject_Z 1). rewrite <- inject_Z_plus, <- Zle_Qle. lia. }
  assert (~ K == 0) as HK0 by lra.
  assert (~ cp == 0) as Hcp0 by lra.
  assert (~ 2 == 0) as H20 by lra.
  assert (~ (h - l) / 2 == 0) as Hhalf.
  { intros H. assert ((h - l) / 2 * 2 == 0) as H' by (rewrite H; ring).
    field_simplify in H'. lra. }
  fin_arith.
  set (price := l + (h - l) / K * I + (h - l) / K / 2).
  assert (l < price /\ price < h) as [Hpl Hph].
  { assert (0 < (h - l) / K) as Hstep by (apply Qlt_shift_div_l; lra).
    assert ((h - l) / K * K == h - l) as HstepK by (field; exact HK0).
    set (step := (h - l) / K) in *. subst price. split.
    - assert (0 <= step * I) by (apply Qmult_le_0_compat; lra).
      assert (0 < step / 2) by (apply Qlt_shift_div_l; lra).
      lra.
    - assert (step * (I + 1) <= step * K) as Hle
        by (apply Qmult_le_l; [exact Hstep | exact HIK]).
      assert (step / 2 == step * (1 # 2)) as -> by (field; lra).
      lra. }
  set (dc := Qabs (price - cp) / cp).
  assert (0 <= dc) as Hdc.
  { subst dc. apply Qle_shift_div_l; [exact Hcp|].
    rewrite Qmult_0_l. apply Qabs_nonneg. }
  assert (~ 1 + dc == 0) as Hdc0 by lra.
  fin_arith.
  set (cpw := 1 / (1 + dc)).
  assert (0 < cpw /\ cpw <= 1) as [Hcpw0 Hcpw1].
  { subst cpw. split.
    - apply Qlt_shift_div_l; lra.
    - apply Qle_shift_div_r; lra. }
  set (dm := Qabs (price - (h + l) / 2) / ((h - l) / 2)).
  assert (0 <= dm /\ dm < 1) as [Hdm0 Hdm1].
  { assert (0 < (h - l) / 2) as Hhalf0 by (apply Qlt_shift_div_l; lra).
    assert ((h - l) / 2 * 2 == h - l) as Hh2 by (field; lra).
    assert ((h + l) / 2 * 2 == h + l) as Hm2 by (field; lra).
    subst dm. split.
    - apply Qle_shift_div_l; [exact Hhalf0|].
      rewrite Qmult_0_l. apply Qabs_nonneg.
    - apply Qlt_shift_div_r; [exact Hhalf0|].
      apply Qabs_Qlt_condition. split; lra. }
  set (imp := cpw * 0.6 + (1 - dm) * 0.4).
  assert (0 < imp /\ imp <= 1) as [Himp0 Himp1] by (subst imp; split; lra).
  set (m := 0.7 + r0 * 0.6).
  assert (0 < m /\ m < 1.3) as [Hm0 Hm1] by (subst m; split; lra).
  assert (0 < T / K) as Hu by (apply Qlt_shift_div_l; lra).
  eexists. split; [reflexivity|].
  assert (0 < imp * m) as Him0.
  { apply Qmult_lt_0_compat; assumption. }
  assert (imp * m < 1.3) as Him1.
  { apply Qle_lt_trans with (1 * m); [|lra].
    apply Qmult_le_compat_r; lra. }
  split.
  - apply Qmult_lt_0_compat; assumption.
  - assert (1.3 * T / K == T / K * 1.3) as -> by (field; exact HK0).
    apply Qmult_lt_l; assumption.
Qed.

(** The loop makes one cluster for each index below the count, and then
    stops on its test. *)
Lemma adaptive_loop_volumes (l h T : Q) (buy : number) (cp : Q) (k : nat) :
  l < h -> 0 < T -> 0 < cp ->
  forall (fuel i : nat) (clusters : list Cluster.t) (rng : Rng),
    JS.unit_draws rng -> (k - i <= fuel)%nat -> (i <= k)%nat ->
    Forall (volume_below (1.3 * T / inject_Z (Z.of_nat k))) clusters ->
    let made :=
      adaptive_loop fuel (Fin l) (Fin h) (Fin T) buy (Fin cp) (Fin (h - l))
        (JS.of_nat k) (Fin (h - l) / JS.of_nat k)%js i clusters rng in
    Forall (volume_below (1.3 * T / inject_Z (Z.of_nat k))) made.1 /\
    length made.1 = (length clusters + (k - i))%nat.
Proof.
  intros Hlh HT Hcp fuel.
  induction fuel as [|fuel IH]; intros i clusters rng Hdraws Hfuel Hik HF.
  - cbn. split; [assumption | lia].
  - cbn [adaptive_loop].
    destruct (JS.of_nat i <? JS.of_nat k)%js eqn:E.
    + apply of_nat_lt in E.
      pose proof (adaptive_cluster_volume l h T buy cp k i rng Hlh HT Hcp E Hdraws)
        as [Hv Hd].
      cbv zeta in Hv, Hd.
      destruct (adaptive_cluster (Fin l) (Fin h) (Fin T) buy (Fin cp)
                  (Fin (h - l)) (JS.of_nat k) (Fin (h - l) / JS.of_nat k)%js
                  i rng) as [c rng'].
      cbn [fst snd] in Hv, Hd.
      destruct (IH (S i) (clusters ++ [c]) rng') as [HF' Hlen].
      * intros n. rewrite Hd. apply Hdraws.
      * lia.
      * lia.
      * apply Forall_app. split; [assumption|]. constructor; [exact Hv|constructor].
      * split; [exact HF'|]. rewrite Hlen, length_app. cbn. lia.
    + apply of_nat_lt_false in E. cbn. split; [assumption | lia].
Qed.

(** The sum of volumes that each lie in (0, b). *)
Lemma sum_volume_below (b : Q) (clusters : list Cluster.t) (acc : Q) :
  Forall (volume_below b) clusters ->
  exists s,
    fold_left (fun acc x => acc + x)%js (map Cluster.volume clusters) (Fin acc)
      = Fin s /\
    (acc <= s /\ s <= acc + inject_Z (Z.of_nat (length clusters)) * b) /\
    (clusters <> [] ->
     acc < s /\ s < acc + inject_Z (Z.of_nat (length clusters)) * b).
Proof.
  revert acc. induction clusters as [|c cs IH]; intros acc HF.
  - exists acc. cbn. split; [reflexivity|]. split; [|congruence].
    change (inject_Z (Z.of_nat 0)) with 0. lra.
  - inversion HF as [|? ? (v & Hv & Hv0 & Hvb) HF']; subst.
    cbn [map fold_left]. rewrite Hv, add_Fin.
    destruct (IH (acc + v) HF') as (s & Hs & [Hlo Hhi] & _).
    exists s. split; [exact Hs|].
    cbn [length]. rewrite Nat2Z.inj_succ. unfold Z.succ.
    rewrite inject_Z_plus. change (inject_Z 1) with 1.
    set (n := inject_Z (Z.of_nat (length cs))) in *.
    assert (acc < s /\ s < acc + (n + 1) * b) by (split; lra).
    split; [split; lra | intros _; assumption].
Qed.

(** The count is NaN or at most 25, so the test of the loop fails at
    index 25 at the latest. *)
Lemma optimal_clusters_at_most_25 (range size : number) (j : nat) :
  (25 <= j)%nat -> (JS.of_nat j <? optimal_clusters range size)%js = false.
Proof.
  intros Hj. unfold optimal_clusters.
  assert (forall x : number,
            (JS.of_nat j <? JS.max (Fin 5) (JS.min (Fin 25) x))%js = false) as H.
  { intros [|s|q].
    - reflexivity.
    - unfold JS.of_nat.
      destruct s; cbn [JS.min JS.max JS.lt negb]; apply lt_Fin_false;
        [change 5 with (inject_Z 5) | change 25 with (inject_Z 25)];
        rewrite <- Zle_Qle; lia.
    - rewrite min_Fin, max_Fin. apply lt_Fin_false.
      assert (25 <= inject_Z (Z.of_nat j)) as H25.
      { change 25 with (inject_Z 25). rewrite <- Zle_Qle. lia. }
      destruct (qmin_spec 25 q) as (Hm & _ & _).
      destruct (qmax_spec 5 (qmin 25 q)) as (_ & _ & [-> | ->]); lra. }
  apply H.
Qed.

(** Fuel beyond the index at which the test fails changes nothing: the
    25 passes that [generateAdaptiveClusters] allows exhaust the loop. *)
Lemma adaptive_loop_exits (low high totalVolume totalBuyVolume currentPrice
    priceRange optimalClusters step : number) (extra : nat) :
  forall (fuel i : nat) (clusters : list Cluster.t) (rng : Rng),
    (forall j, (i + fuel <= j)%nat -> (JS.of_nat j <? optimalClusters)%js = false) ->
    adaptive_loop (fuel + extra) low high totalVolume totalBuyVolume
      currentPrice priceRange optimalClusters step i clusters rng
    = adaptive_loop fuel low high totalVolume totalBuyVolume
        currentPrice priceRange optimalClusters step i clusters rng.
Proof.
  induction fuel as [|fuel IH]; intros i clusters rng Hexit.
  - cbn [Nat.add]. destruct extra as [|extra]; [reflexivity|].
    cbn [adaptive_loop]. rewrite Hexit by lia. reflexivity.
  - cbn [Nat.add adaptive_loop].
    destruct (JS.of_nat i <? optimalClusters)%js; [|reflexivity].
    destruct (adaptive_cluster low high totalVolume totalBuyVolume
                currentPrice priceRange optimalClusters step i rng) as [c rng'].
    apply IH. intros j Hj. apply Hexit. lia.
Qed.

Lemma generateAdaptiveClusters_volumes (l h T : Q) (buy sell : number)
    (a cp : Q) (rng : Rng) :
  l < h -> 0 < T -> 0 < a -> 0 < cp -> JS.unit_draws rng ->
  let clusters :=
    (generateAdaptiveClusters (Fin l) (Fin h) (Fin T) buy sell (Fin a)
       (Fin cp) rng).1 in
  (5 <= length clusters <= 25)%nat /\
  exists s, total_volume clusters = Fin s /\ 0 < s /\ s < 1.3 * T.
Proof.
  intros Hlh HT Ha Hcp Hdraws. unfold generateAdaptiveClusters.
  rewrite mul_Fin, sub_Fin.
  destruct (optimal_clusters_range (h - l) (a * 0.5)) as (k & -> & Hk); [lra|].
  pose proof (adaptive_loop_volumes l h T buy cp k Hlh HT Hcp adaptive_fuel 0
                [] rng Hdraws) as Hloop.
  cbv zeta in Hloop.
  destruct (adaptive_loop adaptive_fuel (Fin l) (Fin h) (Fin T) buy (Fin cp)
              (Fin (h - l)) (JS.of_nat k) (Fin (h - l) / JS.of_nat k)%js 0 []
              rng) as [clusters rng'].
  cbn [fst snd] in *.
  destruct Hloop as [HF Hlen]; [unfold adaptive_fuel; lia | lia | constructor |].
  cbn [length] in Hlen.
  assert (length (JS.sort by_volume_desc clusters) = k) as Hlen'.
  { rewrite (Permutation_length (sort_perm by_volume_desc clusters)). lia. }
  split; [lia|].
  assert (Forall (volume_below (1.3 * T / inject_Z (Z.of_nat k)))
            (JS.sort by_volume_desc clusters)) as HF'.
  { rewrite (sort_perm by_volume_desc clusters). exact HF. }
  destruct (sum_volume_below _ _ 0 HF') as (s & Hs & _ & Hstrict).
  exists s. split; [exact Hs|].
  destruct Hstrict as [Hs0 Hs1].
  { intros Hnil. rewrite Hnil in Hlen'. cbn in Hlen'. lia. }
  split; [lra|].
  rewrite Hlen' in Hs1.
  assert (inject_Z (Z.of_nat k) * (1.3 * T / inject_Z (Z.of_nat k)) == 1.3 * T)
    as Hk1.
  { field. intros H. unfold Qeq in H. cbn in H. lia. }
  lra.
Qed.

(** C4, as the code has it.  For low < high, totalVolume > 0, atr > 0,
    a current price above zero and draws in [0, 1),
    [generateAdaptiveClusters] returns between 5 and 25 clusters whose
    volumes sum to a number above 0 and below 1.3 * totalVolume: every
    cluster gets the uniform share scaled by an importance in (0, 1] and
    a random factor in [0.7, 1.3), and the shares are not normalised to
    the total. *)
Theorem generateAdaptiveClusters_total_volume (l h T : Q) (buy sell : number)
    (a cp : Q) (rng : Rng) :
  l < h -> 0 < T -> 0 < a -> 0 < cp -> JS.unit_draws rng ->
  let clusters :=
    (generateAdaptiveClusters (Fin l) (Fin h) (Fin T) buy sell (Fin a)
       (Fin cp) rng).1 in
  (5 <= length clusters <= 25)%nat /\
  (total_volume clusters >? Fin 0)%js = true /\
  (total_volume clusters <? Fin 1.3 * Fin T)%js = true.
Proof.
  intros Hlh HT Ha Hcp Hdraws clusters.
  destruct (generateAdaptiveClusters_volumes l h T buy sell a cp rng
              Hlh HT Ha Hcp Hdraws) as (Hlen & s & Hs & Hs0 & Hs1).
  fold clusters in Hlen, Hs. split; [exact Hlen|].
  rewrite Hs, mul_Fin. unfold JS.gt. rewrite !lt_Fin. split; assumption.
Qed.

End Clusters.

Lemma generateAdaptiveClusters_total_volume_witness :
  let clusters :=
    (ClusterEngine.generateAdaptiveClusters (Fin 100) (Fin 110) (Fin 1000)
       (Fin 600) (Fin 400) (Fin 1) (Fin 105) Sample.zero_draws).1 in
  (5 <= length clusters <= 25)%nat /\
  (Spec.total_volume clusters >? Fin 0)%js = true /\
  (Spec.total_volume clusters <? Fin 1.3 * Fin 1000)%js = true.
Proof.
  apply (generateAdaptiveClusters_total_volume 100 110 1000 (Fin 600) (Fin 400)
           1 105 Sample.zero_draws);
    [reflexivity | reflexivity | reflexivity | reflexivity |].
  exact zero_draws_unit.
Defined.

(** C4 as stated fails: for the range [100, 110], total volume 1000,
    ATR 1, current price 105 and draws that are all 0, the twenty clusters
    sum to less than 700, more than 300 away from the total. *)
Lemma generateAdaptiveClusters_total_not_preserved :
  let clusters :=
    (ClusterEngine.generateAdaptiveClusters (Fin 100) (Fin 110) (Fin 1000)
       (Fin 600) (Fin 400) (Fin 1) (Fin 105) Sample.zero_draws).1 in
  length clusters = 20%nat /\
  (Spec.total_volume clusters <? Fin 700)%js = true /\
  (JS.abs (Spec.total_volume clusters - Fin 1000) >? Fin 300)%js = true.
Proof. vm_compute. repeat split. Qed.

(** ** The volume profile *)

Section Profile.
Import ClusterEngine Spec.
Local Open Scope Q_scope.

Lemma nonneg_finite (a : number) : nonneg a -> JS.finite a.
Proof. destruct a; cbn; tauto. Qed.

Lemma sum_from_qsum (xs : list number) (acc : Q) :
  Forall JS.finite xs ->
  exists s, fold_left (fun acc x => acc + x)%js xs (Fin acc) = Fin s /\
            s == acc + qsum xs.
Proof.
  revert acc. induction xs as [|x xs IH]; intros acc HF.
  - exists acc. split; [reflexivity|]. unfold qsum. cbn. lra.
  - inversion HF as [|? ? Hx HF']; subst.
    destruct x as [| |q]; try contradiction.
    cbn [fold_left]. rewrite add_Fin.
    destruct (IH (acc + q) HF') as (s & Hs & Heq).
    exists s. split; [exact Hs|]. rewrite Heq. unfold qsum. cbn. lra.
Qed.

Lemma sum_qsum (xs : list number) :
  Forall JS.finite xs -> exists s, Spec.sum xs = Fin s /\ s == qsum xs.
Proof.
  intros HF. destruct (sum_from_qsum xs 0 HF) as (s & Hs & Heq).
  exists s. split; [exact Hs | lra].
Qed.

(** Updating one level changes the sum by the change of that level. *)
Lemma qsum_alter (f : ProfileLevel.t -> ProfileLevel.t)
    (profile : list ProfileLevel.t) (k : nat) (level : ProfileLevel.t) :
  profile !! k = Some level ->
  qsum (level_volumes (alter f k profile))
  == qsum (level_volumes profile) - qvalue (ProfileLevel.volume level)
     + qvalue (ProfileLevel.volume (f level)).
Proof.
  revert k. induction profile as [|x profile IH]; intros k Hk; [discriminate|].
  destruct k as [|k].
  - cbn in Hk. injection Hk as ->. unfold qsum, level_volumes. cbn. lra.
  - cbn in Hk. specialize (IH k Hk).
    unfold qsum, level_volumes in *. cbn in *. lra.
Qed.

Lemma Forall_alter_level (P : ProfileLevel.t -> Prop)
    (f : ProfileLevel.t -> ProfileLevel.t) (profile : list ProfileLevel.t)
    (k : nat) :
  Forall P profile -> (forall level, P level -> P (f level)) ->
  Forall P (alter f k profile).
Proof.
  intros HF Hf. revert k. induction HF as [|x l Hx HF IH]; intros k.
  - constructor.
  - destruct k; cbn; constructor; auto.
Qed.

(** An index that passes the test of the loop is an integer in range. *)
Lemma index_in_range (minPrice priceStep : number) (n : nat)
    (cluster : Cluster.t) :
  passes minPrice priceStep n cluster = true ->
  exists k : nat,
    to_index (JS.floor ((Cluster.price cluster - minPrice) / priceStep))
      = Some k /\ (k < n)%nat.
Proof.
  unfold passes.
  generalize ((Cluster.price cluster - minPrice) / priceStep)%js as x.
  intros x H. apply andb_true_iff in H. destruct H as [Hge Hlt].
  destruct x as [|s|q].
  - discriminate.
  - destruct s; discriminate.
  - cbn [JS.floor] in *. unfold JS.ge in Hge. apply le_Fin in Hge.
    unfold JS.of_nat in Hlt. apply lt_Fin in Hlt.
    change 0 with (inject_Z 0) in Hge.
    rewrite <- Zle_Qle in Hge. rewrite <- Zlt_Qlt in Hlt.
    exists (Z.to_nat (Qfloor q)). split; [|lia].
    unfold to_index. rewrite Qfloor_Z.
    assert (Qeq_bool (inject_Z (Qfloor q)) (inject_Z (Qfloor q)) = true) as ->
      by (apply Qeq_bool_iff; reflexivity).
    assert ((0 <=? Qfloor q)%Z = true) as -> by (apply Z.leb_le; exact Hge).
    reflexivity.
Qed.

Lemma qsum_nil : qsum [] = 0.
Proof. reflexivity. Qed.

Lemma qsum_cons (x : number) (xs : list number) :
  qsum (x :: xs) = qvalue x + qsum xs.
Proof. reflexivity. Qed.

(** One pass of the inner loop: a cluster whose index passes the test
    adds its volume to one level, any other cluster changes nothing. *)
Lemma profile_cluster_step (minPrice priceStep : number) (n : nat)
    (profile : list ProfileLevel.t) (cluster : Cluster.t) :
  Forall level_nonneg profile -> cluster_nonneg cluster ->
  length profile = n ->
  let profile' := profile_cluster minPrice priceStep n profile cluster in
  Forall level_nonneg profile' /\ length profile' = n /\
  qsum (level_volumes profile')
  == qsum (level_volumes profile)
     + (if passes minPrice priceStep n cluster
        then qvalue (Cluster.volume cluster) else 0).
Proof.
  intros HF Hc Hlen. unfold profile_cluster.
  fold (passes minPrice priceStep n cluster).
  destruct (passes minPrice priceStep n cluster) eqn:E.
  - destruct (index_in_range _ _ _ _ E) as (k & Hk & Hkn).
    rewrite Hk.
    destruct (lookup_lt_is_Some_2 profile k) as [level Hlevel]; [lia|].
    destruct (nonneg_Fin _ Hc) as (v & Hv & Hv0).
    assert (forall lv, level_nonneg lv -> level_nonneg (accumulate cluster lv))
      as Hacc.
    { intros lv Hlv. destruct (nonneg_Fin _ Hlv) as (q & Hq & Hq0).
      unfold level_nonneg, accumulate. cbn [ProfileLevel.volume].
      rewrite Hq, Hv. cbn. lra. }
    split; [apply Forall_alter_level; assumption|].
    split; [rewrite length_alter; exact Hlen|].
    rewrite (qsum_alter _ _ _ _ Hlevel).
    assert (level_nonneg level) as Hlv.
    { rewrite List.Forall_forall in HF. apply HF.
      apply list_elem_of_In. eapply list_elem_of_lookup_2. exact Hlevel. }
    destruct (nonneg_Fin _ Hlv) as (q & Hq & Hq0).
    unfold accumulate. cbn [ProfileLevel.volume]. rewrite Hq, Hv.
    rewrite add_Fin. cbn [qvalue]. lra.
  - split; [assumption|]. split; [assumption|]. lra.
Qed.

Lemma profile_clusters_fold (minPrice priceStep : number) (n : nat)
    (clusters : list Cluster.t) :
  Forall cluster_nonneg clusters ->
  forall profile : list ProfileLevel.t,
    Forall level_nonneg profile -> length profile = n ->
    let profile' :=
      fold_left (profile_cluster minPrice priceStep n) clusters profile in
    Forall level_nonneg profile' /\ length profile' = n /\
    qsum (level_volumes profile')
    == qsum (level_volumes profile)
       + qsum (map Cluster.volume
                 (List.filter (passes minPrice priceStep n) clusters)).
Proof.
  intros HC. induction HC as [|c cs Hc HC IH]; intros profile HF Hlen.
  - cbn [fold_left List.filter map]. split; [assumption|].
    split; [assumption|]. rewrite qsum_nil. lra.
  - cbn [fold_left List.filter].
    destruct (profile_cluster_step minPrice priceStep n profile c HF Hc Hlen)
      as (HF1 & Hlen1 & Hsum1).
    destruct (IH _ HF1 Hlen1) as (HF2 & Hlen2 & Hsum2).
    split; [exact HF2|]. split; [exact Hlen2|].
    rewrite Hsum2, Hsum1.
    destruct (passes minPrice priceStep n c);
      [cbn [map]; rewrite qsum_cons|]; lra.
Qed.

Lemma fold_left_concat {A B C} (f : A -> B -> A) (g : C -> list B)
    (cs : list C) (a : A) :
  fold_left (fun a c => fold_left f (g c) a) cs a
  = fold_left f (concat (map g cs)) a.
Proof.
  revert a. induction cs as [|c cs IH]; intros a; [reflexivity|].
  cbn. rewrite fold_left_app. apply IH.
Qed.

(** Dropping the levels without volume keeps the sum. *)
Lemma filter_positive_levels (profile : list ProfileLevel.t) :
  Forall level_nonneg profile ->
  let kept :=
    List.filter (fun level => (ProfileLevel.volume level >? Fin 0)%js) profile in
  Forall level_nonneg kept /\
  Forall (fun level => (ProfileLevel.volume level >? Fin 0)%js = true) kept /\
  qsum (level_volumes kept) == qsum (level_volumes profile).
Proof.
  intros HF. cbv zeta. induction HF as [|x l Hx HF IH]; cbn [List.filter].
  - repeat split; try constructor.
  - destruct IH as (IH1 & IH2 & IH3).
    destruct (nonneg_Fin _ Hx) as (q & Hq & Hq0).
    destruct (ProfileLevel.volume x >? Fin 0)%js eqn:E.
    + split; [constructor; assumption|]. split; [constructor; assumption|].
      unfold level_volumes in *. cbn [map]. rewrite !qsum_cons. lra.
    + split; [assumption|]. split; [assumption|].
      rewrite Hq in E. unfold JS.gt in E. apply lt_Fin_false in E.
      unfold level_volumes in *. cbn [map]. rewrite qsum_cons, Hq.
      cbn [qvalue]. lra.
Qed.

(** The profile before the loop: every level has volume 0. *)
Lemma empty_profile (indices : list nat) (price : nat -> number) :
  let profile :=
    map (fun i => ProfileLevel.mk (price i) (Fin 0) (Fin 0) (Fin 0)) indices in
  Forall level_nonneg profile /\ length profile = length indices /\
  qsum (level_volumes profile) == 0.
Proof.
  cbv zeta. induction indices as [|i l (IH1 & IH2 & IH3)]; cbn [map].
  - split; [constructor|]. split; reflexivity.
  - split; [constructor; [unfold level_nonneg; cbn; lra | exact IH1]|].
    split; [cbn [length]; f_equal; exact IH2|].
    unfold level_volumes in *. cbn [map ProfileLevel.volume].
    rewrite qsum_cons. cbn [qvalue]. lra.
Qed.

(** The loop keeps every property of levels that accumulation keeps. *)
Lemma profile_clusters_keep (P : ProfileLevel.t -> Prop)
    (minPrice priceStep : number) (n : nat) (clusters : list Cluster.t) :
  (forall cluster level, P level -> P (accumulate cluster level)) ->
  forall profile : list ProfileLevel.t,
    Forall P profile ->
    Forall P (fold_left (profile_cluster minPrice priceStep n) clusters profile).
Proof.
  intros Hacc. induction clusters as [|c cs IH]; intros profile HF.
  - exact HF.
  - cbn [fold_left]. apply IH. unfold profile_cluster.
    destruct (_ && _); [|exact HF].
    destruct (to_index _); [|exact HF].
    apply Forall_alter_level; [exact HF | apply Hacc].
Qed.

Lemma generateVolumeProfile_buckets (candles : list CandleData.t) (n : nat) :
  Forall (bucket_level candles n) (generateVolumeProfile candles (Some n)).
Proof.
  unfold generateVolumeProfile. change (default 50%nat (Some n)) with n.
  destruct (length candles =? 0)%nat; [constructor|].
  apply List.Forall_forall. intros level Hin. apply filter_In in Hin.
  destruct Hin as [Hin _]. revert level Hin. apply List.Forall_forall.
  rewrite (fold_left_concat (profile_cluster _ _ n) CandleData.clusters).
  apply profile_clusters_keep.
  - intros cluster level (i & Hi & Hprice). exists i. split; [exact Hi|].
    exact Hprice.
  - apply Forall_map. apply List.Forall_forall. intros i Hi.
    apply in_seq in Hi. exists i. split; [lia | reflexivity].
Qed.

Lemma generateVolumeProfile_sums (candles : list CandleData.t) (n : nat) :
  candles <> [] ->
  Forall cluster_nonneg (all_clusters candles) ->
  let result := generateVolumeProfile candles (Some n) in
  Forall level_nonneg result /\
  Forall (fun level => (ProfileLevel.volume level >? Fin 0)%js = true) result /\
  qsum (level_volumes result)
  == qsum (map Cluster.volume
             (List.filter (in_profile candles n) (all_clusters candles))).
Proof.
  intros Hne HC. unfold generateVolumeProfile.
  change (default 50%nat (Some n)) with n.
  destruct candles as [|c0 cs]; [congruence|].
  cbn [length Nat.eqb].
  set (candles := c0 :: cs) in *.
  rewrite (fold_left_concat (profile_cluster _ _ n) CandleData.clusters).
  fold (all_clusters candles). fold (profile_min candles).
  fold (profile_step candles n).
  set (profile0 := map _ (seq 0 n)).
  assert (Forall level_nonneg profile0 /\ length profile0 = n /\
          qsum (level_volumes profile0) == 0) as (HF0 & Hlen0 & Hsum0).
  { subst profile0. destruct (empty_profile (seq 0 n)
      (fun i => (profile_min candles + profile_step candles n * JS.of_nat i
                 + profile_step candles n / Fin 2)%js)) as (H1 & H2 & H3).
    rewrite length_seq in H2. repeat split; assumption. }
  destruct (profile_clusters_fold (profile_min candles) (profile_step candles n)
              n (all_clusters candles) HC profile0 HF0 Hlen0)
    as (HF1 & _ & Hsum1).
  destruct (filter_positive_levels _ HF1) as (HF2 & Hpos & Hsum2).
  split; [exact HF2|]. split; [exact Hpos|].
  rewrite Hsum2, Hsum1, Hsum0, Qplus_0_l. reflexivity.
Qed.

(** The index that the loop computes is [i] exactly when it passes the
    test and selects level [i]. *)
Lemma index_selects (x : number) (n i : nat) :
  (i < n)%nat ->
  (JS.floor x =? JS.of_nat i)%js = true <->
  ((JS.floor x >=? Fin 0)%js && (JS.floor x <? JS.of_nat n)%js = true /\
   to_index (JS.floor x) = Some i).
Proof.
  intros Hi. destruct x as [|s|q].
  - cbn. split; [discriminate | intros [H _]; discriminate].
  - cbn. split; [discriminate | intros [_ H]; discriminate].
  - cbn [JS.floor]. unfold JS.eqb, JS.of_nat, JS.ge, JS.le, JS.lt, to_index.
    rewrite Qfloor_Z.
    assert (Qeq_bool (inject_Z (Qfloor q)) (inject_Z (Qfloor q)) = true) as ->
      by (apply Qeq_bool_iff; reflexivity).
    cbn [andb]. split.
    + intros H. apply Qeq_bool_iff in H.
      assert (Qfloor q = Z.of_nat i) as -> by (apply inject_Z_injective; exact H).
      split.
      * apply andb_true_iff. split.
        -- apply Qle_bool_iff. change 0%Q with (inject_Z 0).
           rewrite <- Zle_Qle. lia.
        -- apply negb_true_iff. apply not_true_iff_false. intros Hle.
           apply Qle_bool_iff in Hle. rewrite <- Zle_Qle in Hle. lia.
      * assert ((0 <=? Z.of_nat i)%Z = true) as -> by (apply Z.leb_le; lia).
        rewrite Nat2Z.id. reflexivity.
    + intros [_ H]. destruct (0 <=? Qfloor q)%Z eqn:E; [|discriminate].
      apply Z.leb_le in E. injection H as H.
      apply Qeq_bool_iff. rewrite <- H. rewrite Z2Nat.id by exact E. reflexivity.
Qed.

(** What the loop leaves at position [i]: the level that was there with
    the clusters of index [i] accumulated, in their order. *)
Lemma profile_clusters_lookup (minPrice priceStep : number) (n i : nat)
    (clusters : list Cluster.t) :
  (i < n)%nat ->
  forall profile : list ProfileLevel.t,
    fold_left (profile_cluster minPrice priceStep n) clusters profile !! i
    = fold_left (fun level cluster => accumulate cluster level)
        (List.filter
           (fun cluster =>
              (JS.floor ((Cluster.price cluster - minPrice) / priceStep)
               =? JS.of_nat i)%js)
           clusters)
      <$> profile !! i.
Proof.
  intros Hi. induction clusters as [|c cs IH]; intros profile.
  - cbn. destruct (profile !! i); reflexivity.
  - cbn [fold_left List.filter]. rewrite IH. unfold profile_cluster.
    set (x := ((Cluster.price c - minPrice) / priceStep)%js).
    destruct (index_selects x n i Hi) as [H1 H2].
    destruct (JS.floor x =? JS.of_nat i)%js eqn:E.
    + destruct (H1 eq_refl) as [Hp Hk]. rewrite Hp, Hk.
      rewrite list_lookup_alter_eq. destruct (profile !! i); reflexivity.
    + destruct ((JS.floor x >=? Fin 0)%js && (JS.floor x <? JS.of_nat n)%js) eqn:Ep;
        [|reflexivity].
      destruct (to_index (JS.floor x)) as [k|] eqn:Ek; [|reflexivity].
      destruct (decide (k = i)) as [->|Hne].
      * assert (false = true) by (apply H2; split; reflexivity). discriminate.
      * rewrite list_lookup_alter_ne by exact Hne. reflexivity.
Qed.

(** Accumulating a list of clusters adds up their three volumes. *)
Lemma accumulate_fold (clusters : list Cluster.t) (p v b s : number) :
  fold_left (fun level cluster => accumulate cluster level) clusters
    (ProfileLevel.mk p v b s)
  = ProfileLevel.mk p
      (fold_left (fun acc x => acc + x)%js (map Cluster.volume clusters) v)
      (fold_left (fun acc x => acc + x)%js (map Cluster.buyVolume clusters) b)
      (fold_left (fun acc x => acc + x)%js (map Cluster.sellVolume clusters) s).
Proof.
  revert v b s. induction clusters as [|c cs IH]; intros v b s; [reflexivity|].
  cbn [fold_left map]. unfold accumulate at 2.
  cbn [ProfileLevel.price ProfileLevel.volume ProfileLevel.buyVolume
       ProfileLevel.sellVolume].
  apply IH.
Qed.

Lemma lookup_map_seq {A} (f : nat -> A) (n i : nat) :
  map f (seq 0 n) !! i = if (i <? n)%nat then Some (f i) else None.
Proof.
  assert (forall a, map f (seq a n) !! i
                    = if (i <? n)%nat then Some (f (a + i)%nat) else None) as H.
  { revert i. induction n as [|n IH]; intros i a.
    - destruct i; reflexivity.
    - destruct i as [|i]; cbn [seq map].
      + cbn. rewrite Nat.add_0_r. reflexivity.
      + change ((f a :: map f (seq (S a) n)) !! S i)
          with (map f (seq (S a) n) !! i).
        rewrite IH. change (S i <? S n)%nat with (i <? n)%nat.
        rewrite Nat.add_succ_r. reflexivity. }
  rewrite H. reflexivity.
Qed.

(** The profile, bucket by bucket: the buckets of index 0 to levels - 1,
    each with the clusters of its index accumulated, less the buckets
    whose volume is not above zero. *)
Lemma generateVolumeProfile_by_bucket (candles : list CandleData.t) (n : nat) :
  candles <> [] ->
  generateVolumeProfile candles (Some n)
  = List.filter (fun level => (ProfileLevel.volume level >? Fin 0)%js)
      (map (bucket candles n) (seq 0 n)).
Proof.
  intros Hne. unfold generateVolumeProfile.
  change (default 50%nat (Some n)) with n.
  destruct candles as [|c0 cs]; [congruence|].
  cbn [length Nat.eqb].
  set (candles := c0 :: cs) in *.
  rewrite (fold_left_concat (profile_cluster _ _ n) CandleData.clusters).
  fold (all_clusters candles). fold (profile_min candles).
  fold (profile_step candles n).
  f_equal. apply list_eq. intros i.
  destruct (i <? n)%nat eqn:Ei.
  - apply Nat.ltb_lt in Ei.
    rewrite profile_clusters_lookup by exact Ei.
    rewrite !lookup_map_seq.
    assert ((i <? n)%nat = true) as -> by (apply Nat.ltb_lt; exact Ei).
    cbn [fmap option_fmap option_map]. f_equal.
    rewrite accumulate_fold. reflexivity.
  - apply Nat.ltb_ge in Ei.
    rewrite !lookup_ge_None_2; [reflexivity | |].
    + rewrite length_map, length_seq. exact Ei.
    + assert (forall clusters profile,
                 length (fold_left (profile_cluster (profile_min candles)
                           (profile_step candles n) n) clusters profile)
                 = length profile) as Hlen.
      { induction clusters as [|c cl IH]; intros profile; [reflexivity|].
        cbn [fold_left]. rewrite IH. unfold profile_cluster.
        destruct (_ && _); [|reflexivity].
        destruct (to_index _); [|reflexivity].
        apply length_alter. }
      rewrite Hlen, length_map, length_seq. exact Ei.
Qed.

(** C6, as the code has it.  For a non-empty list of candles,
    [generateVolumeProfile] adds every cluster whose bucket index
    floor((price - min) / step) lies in [0, levels) to the bucket of that
    index and ignores the other clusters (the index is tested, not
    clamped): the result is the list of the buckets of index 0 to
    levels - 1, bucket [i] standing at the middle of part [i] of the
    [levels] equal parts of [min, max] and holding the sums of the
    volumes, the buy volumes and the sell volumes of the clusters whose
    index is [i], less the buckets whose volume is not above zero.  When
    the volumes of the clusters are finite and not negative, the sum of
    the returned volumes equals the sum of the volumes of the clusters
    that were added. *)
Theorem generateVolumeProfile_total (candles : list CandleData.t)
    (levels : option nat) :
  candles <> [] ->
  let n := default 50%nat levels in
  let result := generateVolumeProfile candles levels in
  result
  = List.filter (fun level => (ProfileLevel.volume level >? Fin 0)%js)
      (map (bucket candles n) (seq 0 n)) /\
  Forall (fun level => (ProfileLevel.volume level >? Fin 0)%js = true) result /\
  Forall (bucket_level candles n) result /\
  (Forall (fun cluster => nonneg (Cluster.volume cluster))
     (all_clusters candles) ->
   (profile_volume result
    =? total_volume
         (List.filter (in_profile candles n) (all_clusters candles)))%js
   = true).
Proof.
  intros Hne n result.
  assert (result = generateVolumeProfile candles (Some n)) as ->
    by (subst result n; destruct levels; reflexivity).
  pose proof (generateVolumeProfile_by_bucket candles n Hne) as Hbuckets.
  split; [exact Hbuckets|]. split; [|split].
  - rewrite Hbuckets. apply List.Forall_forall. intros level Hin.
    apply filter_In in Hin. exact (proj2 Hin).
  - apply generateVolumeProfile_buckets.
  - intros HC.
    destruct (generateVolumeProfile_sums candles n Hne HC) as (HF & _ & Hsum).
    unfold profile_volume, total_volume.
    destruct (sum_qsum (level_volumes (generateVolumeProfile candles (Some n))))
      as (s1 & -> & Hs1).
    { unfold level_volumes. apply Forall_map.
      eapply Forall_impl; [exact HF|]. intros lv. apply nonneg_finite. }
    destruct (sum_qsum (map Cluster.volume
                (List.filter (in_profile candles n) (all_clusters candles))))
      as (s2 & -> & Hs2).
    { apply Forall_map. apply List.Forall_forall. intros c Hin.
      apply filter_In in Hin. destruct Hin as [Hin _].
      rewrite List.Forall_forall in HC. apply nonneg_finite, HC, Hin. }
    apply eqb_Fin. rewrite Hs1, Hs2. exact Hsum.
Qed.

End Profile.

Lemma generateVolumeProfile_total_witness :
  let candles := [Sample.candle_with_inner_clusters] in
  let result := ClusterEngine.generateVolumeProfile candles None in
  result
  = List.filter (fun level => (ProfileLevel.volume level >? Fin 0)%js)
      (map (Spec.bucket candles 50) (seq 0 50)) /\
  Forall (fun level => (ProfileLevel.volume level >? Fin 0)%js = true) result /\
  Forall (Spec.bucket_level candles 50) result /\
  (Spec.profile_volume result
   =? Spec.total_volume
        (List.filter (Spec.in_profile candles 50) (Spec.all_clusters candles)))%js
    = true.
Proof.
  destruct (generateVolumeProfile_total [Sample.candle_with_inner_clusters] None)
    as (Hbuckets & Hpositive & Hlevels & Hsum).
  - discriminate.
  - split; [exact Hbuckets|]. split; [exact Hpositive|].
    split; [exact Hlevels|]. apply Hsum.
    repeat constructor; cbn; lra.
Defined.

(** The profile of the sample candle: its two clusters fall in buckets
    12 and 37, each of which holds the three volumes of its cluster. *)
Example generateVolumeProfile_sample :
  exists low high : number,
    ClusterEngine.generateVolumeProfile [Sample.candle_with_inner_clusters] None
    = [ProfileLevel.mk low (Fin 10) (Fin 6) (Fin 4);
       ProfileLevel.mk high (Fin 10) (Fin 6) (Fin 4)] /\
    (low =? Fin 12.5)%js = true /\ (high =? Fin 37.5)%js = true.
Proof.
  eexists. eexists. split; [lazy; reflexivity|]. split; reflexivity.
Qed.

(** C6 as stated fails: a cluster priced at the highest high has bucket
    index [levels], which the loop does not clamp but skips; the profile
    of the sample candle is empty and sums to 0, while its cluster has
    volume 10. *)
Lemma generateVolumeProfile_drops_cluster_at_high :
  let candles := [Sample.candle_with_cluster_at_high] in
  let result := ClusterEngine.generateVolumeProfile candles None in
  (Spec.bucket_index candles 50 (Cluster.mk (Fin 50) (Fin 10) (Fin 6) (Fin 4)
                                   (Fin 2) (Fin 0.2)) =? Fin 50)%js = true /\
  result = [] /\
  (Spec.total_volume (Spec.all_clusters candles) =? Fin 10)%js = true /\
  (Spec.profile_volume result
   =? Spec.total_volume (Spec.all_clusters candles))%js = false.
Proof. vm_compute. repeat split. Qed.

(** ** The stream hub *)

Section Hub.
Import TradingDataManager.
Context {S : Type} {storage : IStorage S}.

Local Opaque TestDataGenerator.generateHistoricalCandles
  TestDataGenerator.generateRealtimeUpdate TestDataGenerator.generateOrderBook
  TestDataGenerator.getIntervalMs TestDataGenerator.getBasePriceForSymbol
  TestDataGenerator.new.

Ltac hub_unfold :=
  unfold mbind, M_bind, bind, mret, M_ret, ret, get, modify, modify_manager,
    set_generator, set_manager, set_rng, set_store, try_catch, detached,
    console_error, send, setInterval, clearInterval in *.

Lemma same_streams_refl (w : World S) : same_streams w w.
Proof. repeat split. Qed.

Lemma same_streams_trans (w1 w2 w3 : World S) :
  same_streams w1 w2 -> same_streams w2 w3 -> same_streams w1 w3.
Proof.
  unfold same_streams. intros H1 H2. destruct_and!. repeat split; congruence.
Qed.

Lemma with_generator_run {A} (symbol : string) (g : TestDataGenerator.t)
    (method : TestDataGenerator.t -> Rng -> A * TestDataGenerator.t * Rng)
    (w : World S) :
  let out := method g (rng w) in
  let r := with_generator symbol g method w in
  r.1 = Return (out.1.1, out.1.2) /\
  same_streams w r.2 /\
  store r.2 = store w /\ rng r.2 = out.2 /\
  dataGenerators (manager r.2)
    = <[symbol := out.1.2]> (dataGenerators (manager w)).
Proof.
  unfold with_generator. hub_unfold. cbn.
  destruct (method g (rng w)) as [[a g'] r']. cbn. repeat split.
Qed.

Lemma bind_run {A B} (m : M S A) (k : A -> M S B) (w w' : World S) (a : A) :
  m w = (Return a, w') -> (m ≫= k) w = k a w'.
Proof. intros H. unfold mbind, M_bind, bind. rewrite H. reflexivity. Qed.

Lemma bind_throw {A B} (m : M S A) (k : A -> M S B) (w w' : World S) (e : Error) :
  m w = (Throw e, w') -> (m ≫= k) w = (Throw e, w').
Proof. intros H. unfold mbind, M_bind, bind. rewrite H. reflexivity. Qed.

(** A store is healthy when every write of a candle succeeds and leaves
    it healthy. *)
Variable healthy : S -> Prop.
Hypothesis healthy_candle :
  forall c s, healthy s -> exists s', saveCandleData c s = Some s' /\ healthy s'.

Lemma save_all_run (symbol interval : string) (candles : list CandleData.t) :
  forall w : World S,
    healthy (store w) ->
    let r :=
      for_each candles
        (fun c => await_saveCandleData (insert_candle symbol interval c)) w in
    r.1 = Return tt /\ same_streams w r.2 /\ healthy (store r.2) /\
    rng r.2 = rng w /\
    dataGenerators (manager r.2) = dataGenerators (manager w).
Proof.
  induction candles as [|c cs IH]; intros w Hw.
  - cbn. repeat split. exact Hw.
  - cbn [for_each].
    destruct (healthy_candle (insert_candle symbol interval c) (store w) Hw)
      as (s' & Hs' & Hh').
    assert (await_saveCandleData (insert_candle symbol interval c) w
            = (Return tt, set_store w s')) as Hrun.
    { unfold await_saveCandleData. rewrite Hs'. reflexivity. }
    rewrite (bind_run _ _ _ _ _ Hrun).
    destruct (IH (set_store w s') Hh') as (H1 & H2 & H3 & H4 & H5).
    repeat split; try assumption; apply H2.
Qed.

Lemma getOrCreateGenerator_run (symbol : string) (w : World S) :
  let g :=
    default
      (TestDataGenerator.new
         (TestDataGenerator.getBasePriceForSymbol symbol) (now w))
      (dataGenerators (manager w) !! symbol) in
  let r := getOrCreateGenerator symbol w in
  r.1 = Return g /\ same_streams w r.2 /\ store r.2 = store w /\
  rng r.2 = rng w /\
  dataGenerators (manager r.2) = <[symbol := g]> (dataGenerators (manager w)).
Proof.
  unfold getOrCreateGenerator. hub_unfold.
  destruct (dataGenerators (manager w) !! symbol) as [g|] eqn:E; cbn.
  - repeat split. symmetry. apply insert_id. exact E.
  - repeat split.
Qed.

(** The effect of [startDataStream] on a world whose store is healthy:
    one new timer under the next handle, registered under the key. *)
Lemma startDataStream_run (symbol interval : string) (w : World S) :
  healthy (store w) ->
  let key := (symbol ++ "_" ++ interval)%string in
  let g0 :=
    default
      (TestDataGenerator.new
         (TestDataGenerator.getBasePriceForSymbol symbol) (now w))
      (dataGenerators (manager w) !! symbol) in
  let r := startDataStream symbol interval w in
  r.1 = Return tt /\
  timers r.2
    = <[nextTimer w :=
          (DataStream symbol interval key,
           JS.min (TestDataGenerator.getIntervalMs interval) (Fin 2000))]>
        (timers w) /\
  nextTimer r.2 = Datatypes.S (nextTimer w) /\
  updateIntervals (manager r.2)
    = <[key := nextTimer w]> (updateIntervals (manager w)) /\
  subscriptions (manager r.2) = subscriptions (manager w) /\
  connections (manager r.2) = connections (manager w) /\
  openSockets r.2 = openSockets w /\ sent r.2 = sent w /\
  errors r.2 = errors w /\ now r.2 = now w /\ healthy (store r.2) /\
  dataGenerators (manager r.2)
    = <[symbol :=
          (TestDataGenerator.generateHistoricalCandles g0 50 interval
             (rng w)).1.2]>
        (dataGenerators (manager w)).
Proof.
  intros Hw key g0. unfold startDataStream. fold key.
  pose proof (getOrCreateGenerator_run symbol w) as (E1 & S1 & St1 & R1 & G1).
  fold g0 in E1, G1.
  destruct (getOrCreateGenerator symbol w) as [o1 w1] eqn:Eg.
  cbn [fst snd] in *. subst o1. rewrite (bind_run _ _ _ _ _ Eg).
  pose proof (with_generator_run symbol g0
                (fun g r => TestDataGenerator.generateHistoricalCandles g 50
                              interval r) w1) as (E2 & S2 & St2 & R2 & G2).
  cbv zeta in E2, S2, St2, R2, G2.
  destruct (with_generator symbol g0 _ w1) as [o2 w2] eqn:Ew.
  cbn [fst snd] in *. subst o2. rewrite (bind_run _ _ _ _ _ Ew).
  destruct (TestDataGenerator.generateHistoricalCandles g0 50 interval (rng w1))
    as [[candles g1] rng1] eqn:EH.
  cbn [fst snd] in *.
  assert (healthy (store w2)) as Hw2 by (rewrite St2, St1; exact Hw).
  pose proof (save_all_run symbol interval candles w2 Hw2)
    as (E3 & S3 & H3 & R3 & G3).
  cbv zeta in E3, S3, H3, R3, G3.
  destruct (for_each candles _ w2) as [o3 w3] eqn:Ef.
  cbn [fst snd] in *. subst o3. rewrite (bind_run _ _ _ _ _ Ef).
  hub_unfold. cbn.
  unfold same_streams in *. destruct_and!.
  rewrite R1 in EH. rewrite EH. cbn [fst snd].
  repeat split; try congruence.
  rewrite G3, G2, G1. apply insert_insert_eq.
Qed.

(** The effect of [subscribeToSymbol]: the connection joins the set of
    the key, and a stream is started exactly when that set then has one
    element. *)
Lemma subscribeToSymbol_run (symbol interval : string) (ws : nat) (w : World S) :
  healthy (store w) ->
  let key := (symbol ++ "_" ++ interval)%string in
  let clients := {[ws]} ∪ default ∅ (subscriptions (manager w) !! key) in
  let g0 :=
    default
      (TestDataGenerator.new
         (TestDataGenerator.getBasePriceForSymbol symbol) (now w))
      (dataGenerators (manager w) !! symbol) in
  let r := subscribeToSymbol symbol interval ws w in
  r.1 = Return tt /\
  subscriptions (manager r.2) = <[key := clients]> (subscriptions (manager w)) /\
  connections (manager r.2) = connections (manager w) /\
  openSockets r.2 = openSockets w /\ sent r.2 = sent w /\
  errors r.2 = errors w /\ now r.2 = now w /\ healthy (store r.2) /\
  if (size clients =? 1)%nat then
    timers r.2
      = <[nextTimer w :=
            (DataStream symbol interval key,
             JS.min (TestDataGenerator.getIntervalMs interval) (Fin 2000))]>
          (timers w) /\
    nextTimer r.2 = Datatypes.S (nextTimer w) /\
    updateIntervals (manager r.2)
      = <[key := nextTimer w]> (updateIntervals (manager w)) /\
    dataGenerators (manager r.2)
      = <[symbol :=
            (TestDataGenerator.generateHistoricalCandles g0 50 interval
               (rng w)).1.2]>
          (dataGenerators (manager w))
  else
    timers r.2 = timers w /\ nextTimer r.2 = nextTimer w /\
    updateIntervals (manager r.2) = updateIntervals (manager w) /\
    dataGenerators (manager r.2) = dataGenerators (manager w) /\
    rng r.2 = rng w.
Proof.
  intros Hw key clients g0. unfold subscribeToSymbol. fold key.
  unfold mbind, M_bind, bind, modify_manager, modify, get. cbn [fst snd].
  set (w1 := set_manager (set_manager w _) _).
  assert (subscriptions (manager w1)
          = <[key := clients]> (subscriptions (manager w))) as Hsubs.
  { subst w1 clients. cbn [set_manager manager subscriptions].
    destruct (subscriptions (manager w) !! key) as [c|] eqn:E.
    - rewrite bool_decide_eq_true_2 by eauto. rewrite E. reflexivity.
    - rewrite bool_decide_eq_false_2 by (intros [? ?]; discriminate).
      cbn [subscriptions]. rewrite lookup_insert_eq. apply insert_insert_eq. }
  assert (connections (manager w1) = connections (manager w) /\
          dataGenerators (manager w1) = dataGenerators (manager w) /\
          updateIntervals (manager w1) = updateIntervals (manager w) /\
          timers w1 = timers w /\ nextTimer w1 = nextTimer w /\
          store w1 = store w /\ rng w1 = rng w /\ now w1 = now w /\
          openSockets w1 = openSockets w /\ sent w1 = sent w /\
          errors w1 = errors w) as Hframe.
  { subst w1. cbn. destruct (bool_decide _); repeat split. }
  clearbody w1.
  assert (size (default ∅ (subscriptions (manager w1) !! key)) = size clients)
    as -> by (rewrite Hsubs, lookup_insert_eq; reflexivity).
  destruct Hframe as (F1 & F2 & F3 & F4 & F5 & F6 & F7 & F8 & F9 & F10 & F11).
  destruct (size clients =? 1)%nat.
  - unfold detached.
    assert (healthy (store w1)) as Hw1 by (rewrite F6; exact Hw).
    pose proof (startDataStream_run symbol interval w1 Hw1) as Hrun.
    cbv zeta in Hrun. fold key in Hrun.
    destruct (startDataStream symbol interval w1) as [o w2].
    cbn [fst snd] in *. destruct_and!. subst g0.
    repeat split; try congruence.
  - cbn [ret fst snd]. rewrite F6 in *.
    repeat split; assumption.
Qed.

(** [removeConnection] when the connection is the only subscriber of
    the only key: the subscription goes, and the timer registered under
    the key, and no other, is cleared. *)
Lemma removeConnection_last (ws : nat) (key : string) (w : World S) :
  subscriptions (manager w) = {[key := {[ws]}]} ->
  let r := removeConnection ws w in
  r.1 = Return tt /\
  subscriptions (manager r.2) = ∅ /\
  connections (manager r.2) = connections (manager w) ∖ {[ws]} /\
  updateIntervals (manager r.2) = delete key (updateIntervals (manager w)) /\
  timers r.2
    = match updateIntervals (manager w) !! key with
      | Some handle => delete handle (timers w)
      | None => timers w
      end /\
  nextTimer r.2 = nextTimer w /\ store r.2 = store w.
Proof.
  intros Hsubs. unfold removeConnection.
  unfold mbind, M_bind, bind, modify_manager, modify, get. cbn [fst snd].
  cbn [set_manager manager subscriptions]. rewrite Hsubs.
  rewrite map_to_list_singleton. cbn [for_each].
  unfold mbind, M_bind, bind, modify_manager, modify, get, ret. cbn [fst snd].
  assert (size (({[ws]} : gset nat) ∖ {[ws]}) = 0%nat) as ->.
  { rewrite difference_diag_L. apply size_empty. }
  cbn [Nat.eqb]. unfold stopDataStream.
  unfold mbind, M_bind, bind, modify_manager, modify, get, ret. cbn [fst snd].
  cbn [set_manager manager subscriptions updateIntervals connections].
  destruct (updateIntervals (manager w) !! key) as [handle|] eqn:E.
  - hub_unfold. cbn. repeat split.
    + rewrite insert_singleton_eq. apply delete_singleton_eq.
  - cbn. repeat split.
    + rewrite insert_singleton_eq. apply delete_singleton_eq.
    + symmetry. apply delete_id. exact E.
Qed.

Lemma broadcast_loop_run (message : Frame) (clients : list nat) :
  forall w : World S,
    let r :=
      for_each clients
        (fun client =>
           w ← get;
           if decide (client ∈ openSockets w) then send client message
           else ret tt) w in
    r.1 = Return tt /\ only_sent w r.2 /\
    sent r.2
    = sent w
      ++ map (fun client => (client, message))
           (List.filter (fun client => bool_decide (client ∈ openSockets w))
              clients).
Proof.
  induction clients as [|c cs IH]; intros w.
  - cbn. repeat split. rewrite app_nil_r. reflexivity.
  - cbn [for_each List.filter].
    destruct (decide (c ∈ openSockets w)) as [Hin|Hout].
    + rewrite bool_decide_eq_true_2 by exact Hin.
      assert ((w0 ← get;
               if decide (c ∈ openSockets w0) then send c message else ret tt) w
              = (Return tt,
                 mkWorld (manager w) (timers w) (nextTimer w) (store w) (rng w)
                   (now w) (openSockets w) (sent w ++ [(c, message)])
                   (errors w))) as Hbody.
      { unfold mbind, M_bind, bind, get, send, modify.
        destruct (decide (c ∈ openSockets w)); [reflexivity | contradiction]. }
      rewrite (bind_run _ _ _ _ _ Hbody).
      match goal with
      | |- context [for_each cs ?body ?w1] =>
          destruct (IH w1) as (H1 & H2 & H3)
      end.
      cbv zeta in H1, H2, H3.
      split; [exact H1|]. unfold only_sent in *. cbn in H2, H3.
      destruct H2 as (? & ? & ? & ? & ? & ? & ? & ?).
      split; [repeat split; assumption|].
      rewrite H3. cbn [map]. rewrite <- app_assoc. reflexivity.
    + rewrite bool_decide_eq_false_2 by exact Hout.
      assert ((w0 ← get;
               if decide (c ∈ openSockets w0) then send c message else ret tt) w
              = (Return tt, w)) as Hbody.
      { unfold mbind, M_bind, bind, get, ret.
        destruct (decide (c ∈ openSockets w)); [contradiction | reflexivity]. }
      rewrite (bind_run _ _ _ _ _ Hbody). apply IH.
Qed.

Lemma broadcastToSubscribers_run (key : string) (message : Frame)
    (clients : gset nat) (w : World S) :
  subscriptions (manager w) !! key = Some clients ->
  let r := broadcastToSubscribers key message w in
  r.1 = Return tt /\ only_sent w r.2 /\
  sent r.2
  = sent w ++ map (fun client => (client, message)) (recipients clients w).
Proof.
  intros Hsub. unfold broadcastToSubscribers.
  rewrite (bind_run get _ _ _ _ eq_refl).
  rewrite Hsub. apply broadcast_loop_run.
Qed.

(** What one run of the timer callback does when the key has subscribers
    and the generator has produced a candle. *)
Lemma tick_run (symbol interval key : string) (clients : gset nat)
    (g : TestDataGenerator.t) (candle : CandleData.t) (w : World S) :
  subscriptions (manager w) !! key = Some clients ->
  dataGenerators (manager w) !! symbol = Some g ->
  let update := TestDataGenerator.generateRealtimeUpdate g interval (rng w) in
  let book :=
    TestDataGenerator.generateOrderBook update.1.2 50 true (now w) update.2 in
  let r := tick symbol interval key w in
  update.1.1 = Some candle ->
  r.1 = Return tt /\
  match saveCandleData (insert_candle symbol interval candle) (store w) with
  | None => sent r.2 = sent w /\ errors r.2 = errors w ++ [StorageError]
  | Some s1 =>
      match
        saveOrderBookData
          (InsertOrderBook.mk symbol (OrderBookData.bids book.1)
             (OrderBookData.asks book.1) (OrderBookData.lastUpdate book.1)) s1
      with
      | None => sent r.2 = sent w /\ errors r.2 = errors w ++ [StorageError]
      | Some s2 =>
          sent r.2
          = sent w
            ++ map (fun client => (client, candle_update symbol interval candle))
                 (recipients clients w)
            ++ map (fun client => (client, orderbook_update symbol book.1))
                 (recipients clients w) /\
          errors r.2 = errors w
      end
  end.
Proof.
  intros Hsub Hgen update book r Hcandle. subst r. unfold tick.
  rewrite (bind_run get _ w w w eq_refl).
  rewrite Hsub, bool_decide_eq_true_2 by eauto. cbn [negb]. rewrite Hgen.
  unfold try_catch, tick_body.
  pose proof (with_generator_run symbol g
                (fun g r => TestDataGenerator.generateRealtimeUpdate g interval r)
                w) as (E1 & S1 & St1 & R1 & G1).
  cbv zeta in E1, S1, St1, R1, G1. fold update in E1, R1, G1.
  match type of E1 with
  | context [with_generator symbol g ?m w] =>
      destruct (with_generator symbol g m w) as [o1 w1] eqn:Ew1
  end.
  cbn [fst snd] in *. subst o1. rewrite (bind_run _ _ _ _ _ Ew1).
  clear Ew1. subst book. clearbody update.
  destruct update as [[candleUpdate g1] rng1]. cbn [fst snd] in *.
  subst candleUpdate.
  unfold same_streams in S1.
  destruct S1 as (C1 & Su1 & U1 & T1 & N1 & O1 & Se1 & Er1 & No1).
  destruct (saveCandleData (insert_candle symbol interval candle) (store w))
    as [s1|] eqn:Esave1.
  - assert (await_saveCandleData (insert_candle symbol interval candle) w1
            = (Return tt, set_store w1 s1)) as Hrun1.
    { unfold await_saveCandleData. rewrite St1, Esave1. reflexivity. }
    rewrite (bind_run _ _ _ _ _ Hrun1).
    set (w2 := set_store w1 s1).
    rewrite (bind_run get _ w2 w2 w2 eq_refl).
    pose proof (with_generator_run symbol g1
                  (fun g r =>
                     let '(b, r) :=
                       TestDataGenerator.generateOrderBook g 50 true (now w2) r in
                     (b, g, r)) w2) as (E2 & S2 & St2 & R2 & G2).
    cbv zeta in E2, S2, St2, R2, G2.
    assert (now w2 = now w) as Hnow by (subst w2; cbn; exact No1).
    assert (rng w2 = rng1) as Hrng by (subst w2; cbn; exact R1).
    rewrite Hrng in E2, R2, G2.
    match type of E2 with
    | context [with_generator symbol g1 ?m w2] =>
        destruct (with_generator symbol g1 m w2) as [o2 w3] eqn:Ew3
    end.
    rewrite Hnow in E2, R2, G2.
    set (book := TestDataGenerator.generateOrderBook g1 50 true (now w) rng1)
      in *.
    clearbody book. destruct book as [bk rng3].
    cbn [fst snd] in *. subst o2.
    rewrite (bind_run _ _ _ _ _ Ew3). clear Ew3.
    unfold same_streams in S2.
    destruct S2 as (C2 & Su2 & U2 & T2 & N2 & O2 & Se2 & Er2 & No2).
    assert (store w3 = s1) as Hst3 by (rewrite St2; reflexivity).
    destruct (saveOrderBookData
                (InsertOrderBook.mk symbol (OrderBookData.bids bk)
                   (OrderBookData.asks bk) (OrderBookData.lastUpdate bk)) s1)
      as [s2|] eqn:Esave2.
    + assert (await_saveOrderBookData
                (InsertOrderBook.mk symbol (OrderBookData.bids bk)
                   (OrderBookData.asks bk) (OrderBookData.lastUpdate bk)) w3
              = (Return tt, set_store w3 s2)) as Hrun2.
      { unfold await_saveOrderBookData. rewrite Hst3, Esave2. reflexivity. }
      rewrite (bind_run _ _ _ _ _ Hrun2).
      set (w4 := set_store w3 s2).
      assert (subscriptions (manager w4) !! key = Some clients) as Hsub4.
      { subst w4 w2. cbn in *. rewrite Su2, Su1. exact Hsub. }
      pose proof (broadcastToSubscribers_run key
                    (candle_update symbol interval candle) clients w4 Hsub4)
        as (E5 & S5 & Se5).
      cbv zeta in E5, S5, Se5.
      destruct (broadcastToSubscribers key
                  (candle_update symbol interval candle) w4) as [o5 w5] eqn:Ew5.
      cbn [fst snd] in *. subst o5. rewrite (bind_run _ _ _ _ _ Ew5).
      unfold only_sent in S5.
      destruct S5 as (M5 & T5 & N5 & St5 & R5 & No5 & O5 & Er5).
      assert (subscriptions (manager w5) !! key = Some clients) as Hsub5
        by (rewrite M5; exact Hsub4).
      pose proof (broadcastToSubscribers_run key
                    (orderbook_update symbol bk) clients w5 Hsub5)
        as (E6 & S6 & Se6).
      cbv zeta in E6, S6, Se6.
      destruct (broadcastToSubscribers key (orderbook_update symbol bk) w5)
        as [o6 w6].
      cbn [fst snd] in *. subst o6.
      unfold only_sent in S6.
      destruct S6 as (M6 & T6 & N6 & St6 & R6 & No6 & O6 & Er6).
      split; [reflexivity|]. cbn [fst snd]. split.
      * rewrite Se6, Se5. unfold recipients. rewrite O5.
        subst w4 w2. cbn in *. rewrite O2, O1, Se2, Se1, <- app_assoc.
        reflexivity.
      * rewrite Er6, Er5. subst w4 w2. cbn in *. rewrite Er2, Er1. reflexivity.
    + assert (await_saveOrderBookData
                (InsertOrderBook.mk symbol (OrderBookData.bids bk)
                   (OrderBookData.asks bk) (OrderBookData.lastUpdate bk)) w3
              = (Throw StorageError, w3)) as Hrun2.
      { unfold await_saveOrderBookData. rewrite Hst3, Esave2. reflexivity. }
      rewrite (bind_throw _ _ _ _ _ Hrun2).
      unfold console_error, modify. cbn [fst snd].
      split; [reflexivity|]. cbn. subst w2. cbn in *.
      rewrite Se2, Se1, Er2, Er1. split; reflexivity.
  - assert (await_saveCandleData (insert_candle symbol interval candle) w1
            = (Throw StorageError, w1)) as Hrun1.
    { unfold await_saveCandleData. rewrite St1, Esave1. reflexivity. }
    rewrite (bind_throw _ _ _ _ _ Hrun1).
    unfold console_error, modify. cbn [fst snd].
    split; [reflexivity|]. cbn. rewrite Se1, Er1. split; reflexivity.
Qed.

(** A run of the callback on which the gate rejects the price sends,
    logs and stores nothing. *)
Lemma tick_quiet (symbol interval key : string) (clients : gset nat)
    (g : TestDataGenerator.t) (w : World S) :
  subscriptions (manager w) !! key = Some clients ->
  dataGenerators (manager w) !! symbol = Some g ->
  (TestDataGenerator.generateRealtimeUpdate g interval (rng w)).1.1 = None ->
  let r := tick symbol interval key w in
  r.1 = Return tt /\ sent r.2 = sent w /\ errors r.2 = errors w /\
  store r.2 = store w.
Proof.
  intros Hsub Hgen Hnone. unfold tick.
  rewrite (bind_run get _ w w w eq_refl).
  rewrite Hsub, bool_decide_eq_true_2 by eauto. cbn [negb]. rewrite Hgen.
  unfold try_catch, tick_body.
  pose proof (with_generator_run symbol g
                (fun g r => TestDataGenerator.generateRealtimeUpdate g interval r)
                w) as (E1 & S1 & St1 & _ & _).
  cbv zeta in E1, S1, St1.
  match type of E1 with
  | context [with_generator symbol g ?m w] =>
      destruct (with_generator symbol g m w) as [o1 w1] eqn:Ew1
  end.
  cbn [fst snd] in *. subst o1. rewrite (bind_run _ _ _ _ _ Ew1).
  rewrite Hnone. unfold ret. cbn [fst snd].
  unfold same_streams in S1. destruct_and!. repeat split; assumption.
Qed.

(** C1, as the code has it.  On a run of the timer callback for a key
    with subscribers: when the gate rejects the price, nothing is sent,
    logged or stored; when a candle was produced, a write that fails
    ([saveCandleData], or [saveOrderBookData] after it) ends the run
    without any frame being sent, the error is logged and the callback
    returns normally (no error reaches a client); the [candle_update] and
    [orderbook_update] frames are sent, to every subscriber of the key
    whose socket is open, exactly when both writes succeed. *)
Theorem tick_broadcast_after_persistence (symbol interval key : string)
    (clients : gset nat) (g : TestDataGenerator.t) (w : World S) :
  subscriptions (manager w) !! key = Some clients ->
  dataGenerators (manager w) !! symbol = Some g ->
  let update := TestDataGenerator.generateRealtimeUpdate g interval (rng w) in
  let book :=
    TestDataGenerator.generateOrderBook update.1.2 50 true (now w) update.2 in
  let r := tick symbol interval key w in
  r.1 = Return tt /\
  match update.1.1 with
  | None => sent r.2 = sent w /\ errors r.2 = errors w /\ store r.2 = store w
  | Some candle =>
      match saveCandleData (insert_candle symbol interval candle) (store w) with
      | None => sent r.2 = sent w /\ errors r.2 = errors w ++ [StorageError]
      | Some s1 =>
          match
            saveOrderBookData
              (InsertOrderBook.mk symbol (OrderBookData.bids book.1)
                 (OrderBookData.asks book.1) (OrderBookData.lastUpdate book.1))
              s1
          with
          | None => sent r.2 = sent w /\ errors r.2 = errors w ++ [StorageError]
          | Some s2 =>
              sent r.2
              = sent w
                ++ map (fun client =>
                          (client, candle_update symbol interval candle))
                     (recipients clients w)
                ++ map (fun client => (client, orderbook_update symbol book.1))
                     (recipients clients w) /\
              errors r.2 = errors w
          end
      end
  end.
Proof.
  intros Hsub Hgen update book r.
  destruct update.1.1 as [candle|] eqn:Hupdate.
  - exact (tick_run symbol interval key clients g candle w Hsub Hgen Hupdate).
  - destruct (tick_quiet symbol interval key clients g w Hsub Hgen Hupdate)
      as (H1 & H2 & H3 & H4).
    repeat split; assumption.
Qed.

End Hub.

Lemma switch_storage_healthy (c : InsertCandle.t) (s : bool) :
  s = true -> exists s', saveCandleData c s = Some s' /\ s' = true.
Proof. intros ->. exists true. split; reflexivity. Qed.

(** Evaluate the test that decides whether a stream is started. *)
Ltac eval_size_test H :=
  match type of H with
  | context [(size ?c =? 1)%nat] =>
      let b := eval vm_compute in (size c =? 1)%nat in
      change (size c =? 1)%nat with b in H; cbv iota in H
  end.

(** The life of a stream with one subscription: the subscription starts
    one loop, the disconnect stops it and forgets its handle, and a new
    subscription starts one fresh loop. *)
Lemma single_subscription_lifecycle :
  let key := "BTCUSDT_1m"%string in
  let w1 :=
    (TradingDataManager.subscribeToSymbol "BTCUSDT" "1m" 1 Sample.world).2 in
  let w2 := (TradingDataManager.removeConnection 1 w1).2 in
  let w3 := (TradingDataManager.subscribeToSymbol "BTCUSDT" "1m" 1 w2).2 in
  TradingDataManager.stream_timers key w1 = [1%nat] /\
  TradingDataManager.stream_timers key w2 = [] /\
  TradingDataManager.updateIntervals (TradingDataManager.manager w2) !! key
    = None /\
  TradingDataManager.stream_timers key w3 = [2%nat] /\
  TradingDataManager.updateIntervals (TradingDataManager.manager w3) !! key
    = Some 2%nat.
Proof.
  intros key w1 w2 w3.
  pose proof (subscribeToSymbol_run (fun s => s = true) switch_storage_healthy
                "BTCUSDT" "1m" 1 Sample.world eq_refl) as H1.
  cbv zeta in H1. fold w1 in H1.
  destruct H1 as (_ & Hsubs1 & _ & _ & _ & _ & _ & Hst1 & H1).
  eval_size_test H1. destruct H1 as (Ht1 & Hn1 & Hu1 & _).
  assert (TradingDataManager.subscriptions (TradingDataManager.manager w1)
          = {[key := {[1%nat]}]}) as Hsingle.
  { rewrite Hsubs1. vm_compute. reflexivity. }
  pose proof (removeConnection_last 1 key w1 Hsingle) as H2.
  cbv zeta in H2. fold w2 in H2.
  destruct H2 as (_ & Hsubs2 & _ & Hu2 & Ht2 & Hn2 & Hst2).
  change ("BTCUSDT" ++ "_" ++ "1m")%string with key in *.
  rewrite Hu1 in Hu2, Ht2. rewrite lookup_insert_eq in Ht2. rewrite Ht1 in Ht2.
  assert (TradingDataManager.store w2 = true) as Hup by (rewrite Hst2; exact Hst1).
  pose proof (subscribeToSymbol_run (fun s => s = true) switch_storage_healthy
                "BTCUSDT" "1m" 1 w2 Hup) as H3.
  cbv zeta in H3. fold w3 in H3.
  destruct H3 as (_ & _ & _ & _ & _ & _ & _ & _ & H3).
  change ("BTCUSDT" ++ "_" ++ "1m")%string with key in *.
  rewrite Hsubs2 in H3. eval_size_test H3.
  destruct H3 as (Ht3 & _ & Hu3 & _).
  rewrite Hn2, Hn1 in Ht3, Hu3. rewrite Ht2 in Ht3. rewrite Hu2 in Hu3.
  clearbody w1 w2 w3.
  unfold TradingDataManager.stream_timers.
  rewrite Ht1, Ht2, Ht3, Hu2, Hu3.
  vm_compute. repeat split.
Qed.

(** C9 at a failing input.  One connection subscribes to BTCUSDT/1m
    twice and then disconnects.  The second subscription finds the set of
    the key with one element and starts a second loop, whose handle
    replaces the first in [updateIntervals]; the disconnect clears the
    second loop only, and the first timer stays in the event loop with no
    subscription and no handle left for its key. *)
Theorem duplicate_subscribe_orphans_timer :
  let key := "BTCUSDT_1m"%string in
  let w1 :=
    (TradingDataManager.subscribeToSymbol "BTCUSDT" "1m" 1 Sample.world).2 in
  let w2 := (TradingDataManager.subscribeToSymbol "BTCUSDT" "1m" 1 w1).2 in
  let w3 := (TradingDataManager.removeConnection 1 w2).2 in
  TradingDataManager.stream_timers key w1 = [1%nat] /\
  length (TradingDataManager.stream_timers key w2) = 2%nat /\
  TradingDataManager.subscriptions (TradingDataManager.manager w2) !! key
    = Some {[1%nat]} /\
  TradingDataManager.updateIntervals (TradingDataManager.manager w2) !! key
    = Some 2%nat /\
  TradingDataManager.subscriptions (TradingDataManager.manager w3) !! key = None /\
  TradingDataManager.updateIntervals (TradingDataManager.manager w3) !! key
    = None /\
  TradingDataManager.stream_timers key w3 = [1%nat].
Proof.
  intros key w1 w2 w3.
  pose proof (subscribeToSymbol_run (fun s => s = true) switch_storage_healthy
                "BTCUSDT" "1m" 1 Sample.world eq_refl) as H1.
  cbv zeta in H1. fold w1 in H1.
  destruct H1 as (_ & Hsubs1 & _ & _ & _ & _ & _ & Hst1 & H1).
  eval_size_test H1. destruct H1 as (Ht1 & Hn1 & Hu1 & _).
  pose proof (subscribeToSymbol_run (fun s => s = true) switch_storage_healthy
                "BTCUSDT" "1m" 1 w1 Hst1) as H2.
  cbv zeta in H2. fold w2 in H2.
  destruct H2 as (_ & Hsubs2 & _ & _ & _ & _ & _ & Hst2 & H2).
  rewrite Hsubs1 in Hsubs2, H2. eval_size_test H2.
  destruct H2 as (Ht2 & Hn2 & Hu2 & _).
  rewrite Ht1, Hn1 in Ht2. rewrite Hu1, Hn1 in Hu2.
  assert (TradingDataManager.subscriptions (TradingDataManager.manager w2)
          = {[key := {[1%nat]}]}) as Hsingle.
  { rewrite Hsubs2. vm_compute. reflexivity. }
  pose proof (removeConnection_last 1 key w2 Hsingle) as H3.
  cbv zeta in H3. fold w3 in H3.
  destruct H3 as (_ & Hsubs3 & _ & Hu3 & Ht3 & _ & _).
  rewrite Hu2 in Hu3, Ht3.
  change ("BTCUSDT" ++ "_" ++ "1m")%string with key in *.
  rewrite lookup_insert_eq in Ht3. rewrite Ht2 in Ht3.
  clearbody w1 w2 w3.
  unfold TradingDataManager.stream_timers.
  rewrite Ht1, Ht2, Ht3, Hsingle, Hu2, Hsubs3, Hu3.
  vm_compute. repeat split.
Qed.

(** The world after connection 1 has subscribed to BTCUSDT/1m on the
    sample process: the key has the one subscriber, whose socket is open,
    nothing was sent or logged, and the generator of the symbol has an
    empty gate. *)
Lemma subscribed_world :
  let key := "BTCUSDT_1m"%string in
  let w1 :=
    (TradingDataManager.subscribeToSymbol "BTCUSDT" "1m" 1 Sample.world).2 in
  TradingDataManager.subscriptions (TradingDataManager.manager w1) !! key
    = Some {[1%nat]} /\
  TradingDataManager.openSockets w1 = {[1%nat]} /\
  TradingDataManager.sent w1 = [] /\ TradingDataManager.errors w1 = [] /\
  TradingDataManager.store w1 = true /\
  exists g,
    TradingDataManager.dataGenerators (TradingDataManager.manager w1) !! "BTCUSDT"
      = Some g /\
    ClusterEngine.lastProcessedPrice (TestDataGenerator.clusterEngine g)
      !! "BTCUSDT" = None.
Proof.
  intros key w1.
  pose proof (subscribeToSymbol_run (fun s => s = true) switch_storage_healthy
                "BTCUSDT" "1m" 1 Sample.world eq_refl) as H1.
  cbv zeta in H1. fold w1 in H1.
  destruct H1 as (_ & Hsubs1 & _ & Hopen1 & Hsent1 & Herr1 & _ & Hst1 & H1).
  eval_size_test H1. destruct H1 as (_ & _ & _ & Hgen1).
  clearbody w1.
  rewrite Hsubs1, Hopen1, Hsent1, Herr1, Hst1, Hgen1.
  split; [vm_compute; reflexivity|].
  split; [vm_compute; reflexivity|].
  split; [reflexivity|]. split; [reflexivity|]. split; [reflexivity|].
  eexists. split; [apply lookup_insert_eq|].
  rewrite generateHistoricalCandles_engine. vm_compute. reflexivity.
Qed.

(** The store goes down in a world where connection 1 is the subscriber
    of BTCUSDT/1m and the gate of the generator is empty: the next run of
    the callback computes a candle and sends nothing. *)
Lemma tick_store_down (w1 : TradingDataManager.World bool)
    (g : TestDataGenerator.t) :
  TradingDataManager.subscriptions (TradingDataManager.manager w1) !! "BTCUSDT_1m"
    = Some {[1%nat]} ->
  TradingDataManager.openSockets w1 = {[1%nat]} ->
  TradingDataManager.sent w1 = [] ->
  TradingDataManager.errors w1 = [] ->
  TradingDataManager.dataGenerators (TradingDataManager.manager w1) !! "BTCUSDT"
    = Some g ->
  ClusterEngine.lastProcessedPrice (TestDataGenerator.clusterEngine g)
    !! "BTCUSDT" = None ->
  let w2 := TradingDataManager.set_store w1 false in
  let r := TradingDataManager.tick "BTCUSDT" "1m" "BTCUSDT_1m" w2 in
  (exists g',
     TradingDataManager.dataGenerators (TradingDataManager.manager w2) !! "BTCUSDT"
       = Some g' /\
     is_Some (TestDataGenerator.generateRealtimeUpdate g' "1m"
                (TradingDataManager.rng w2)).1.1) /\
  TradingDataManager.recipients {[1%nat]} w2 = [1%nat] /\
  r.1 = TradingDataManager.Return tt /\
  TradingDataManager.sent r.2 = [] /\
  TradingDataManager.errors r.2 = [StorageError].
Proof.
  intros Hsub Hopen Hsent Herr Hg Hgate w2 r.
  destruct (generateRealtimeUpdate_first g "1m" (TradingDataManager.rng w2) Hgate)
    as [[candle Hcandle] _].
  pose proof (tick_run "BTCUSDT" "1m" "BTCUSDT_1m" {[1%nat]} g candle w2 Hsub Hg
                Hcandle) as [Hret Hmatch].
  fold r in Hret, Hmatch. clearbody r.
  change (saveCandleData
            (TradingDataManager.insert_candle "BTCUSDT" "1m" candle)
            (TradingDataManager.store w2)) with (@None bool) in Hmatch.
  cbv iota in Hmatch. destruct Hmatch as [Hs He].
  split; [exists g; split; [exact Hg | rewrite Hcandle; eauto]|].
  split.
  { unfold TradingDataManager.recipients.
    change (TradingDataManager.openSockets w2)
      with (TradingDataManager.openSockets w1).
    rewrite Hopen. vm_compute. reflexivity. }
  split; [exact Hret|].
  rewrite Hs, He.
  change (TradingDataManager.sent w2) with (TradingDataManager.sent w1).
  change (TradingDataManager.errors w2) with (TradingDataManager.errors w1).
  rewrite Hsent, Herr. split; reflexivity.
Qed.

(** C1 as stated fails: connection 1 is subscribed to BTCUSDT/1m, the
    store goes down, and the next run of the callback computes a candle
    (the gate of the generator is empty) but sends no frame to the
    subscriber: [saveCandleData] rejects, the run ends in the [catch], and
    the error is logged. *)
Lemma tick_storage_failure_drops_broadcast :
  let w1 :=
    (TradingDataManager.subscribeToSymbol "BTCUSDT" "1m" 1 Sample.world).2 in
  let w2 := TradingDataManager.set_store w1 false in
  let r := TradingDataManager.tick "BTCUSDT" "1m" "BTCUSDT_1m" w2 in
  (exists g,
     TradingDataManager.dataGenerators (TradingDataManager.manager w2) !! "BTCUSDT"
       = Some g /\
     is_Some (TestDataGenerator.generateRealtimeUpdate g "1m"
                (TradingDataManager.rng w2)).1.1) /\
  TradingDataManager.recipients {[1%nat]} w2 = [1%nat] /\
  r.1 = TradingDataManager.Return tt /\
  TradingDataManager.sent r.2 = [] /\
  TradingDataManager.errors r.2 = [StorageError].
Proof.
  destruct subscribed_world as (Hsub & Hopen & Hsent & Herr & _ & g & Hg & Hgate).
  exact (tick_store_down _ g Hsub Hopen Hsent Herr Hg Hgate).
Qed.

Lemma set_store_subscriptions (w : TradingDataManager.World bool) (s : bool) :
  TradingDataManager.subscriptions
    (TradingDataManager.manager (TradingDataManager.set_store w s))
  = TradingDataManager.subscriptions (TradingDataManager.manager w).
Proof. reflexivity. Qed.

Lemma set_store_generators (w : TradingDataManager.World bool) (s : bool) :
  TradingDataManager.dataGenerators
    (TradingDataManager.manager (TradingDataManager.set_store w s))
  = TradingDataManager.dataGenerators (TradingDataManager.manager w).
Proof. reflexivity. Qed.

Lemma tick_broadcast_after_persistence_witness :
  let w1 :=
    (TradingDataManager.subscribeToSymbol "BTCUSDT" "1m" 1 Sample.world).2 in
  let w2 := TradingDataManager.set_store w1 false in
  (TradingDataManager.tick "BTCUSDT" "1m" "BTCUSDT_1m" w2).1
    = TradingDataManager.Return tt.
Proof.
  cbv zeta.
  destruct subscribed_world as (Hsub & _ & _ & _ & _ & g & Hg & _).
  pose proof (eq_trans
                (f_equal (fun m : gmap string (gset nat) => m !! "BTCUSDT_1m")
                   (set_store_subscriptions _ false)) Hsub) as Hsub2.
  pose proof (eq_trans
                (f_equal (fun m : gmap string TestDataGenerator.t => m !! "BTCUSDT")
                   (set_store_generators _ false)) Hg) as Hg2.
  exact (proj1 (tick_broadcast_after_persistence "BTCUSDT" "1m" "BTCUSDT_1m"
                  {[1%nat]} g _ Hsub2 Hg2)).
Defined.

(** ** The caches of the cluster engine *)

Section EngineCache.
Import ClusterEngine Spec Shape.
Local Open Scope Q_scope.

Lemma fold_delete_lookup {V : Type} (keys : list string) :
  forall (m : gmap string V) (k : string),
    fold_left (fun cache key => delete key cache) keys m !! k
    = if bool_decide (k ∈ keys) then None else m !! k.
Proof.
  induction keys as [|key keys IH]; intros m k; cbn [fold_left].
  - rewrite bool_decide_eq_false_2 by apply not_elem_of_nil. reflexivity.
  - rewrite IH. destruct (decide (k = key)) as [->|Hne].
    + rewrite lookup_delete_eq.
      rewrite (bool_decide_eq_true_2 (key ∈ key :: keys)) by apply list_elem_of_here.
      destruct (bool_decide (key ∈ keys)); reflexivity.
    + rewrite lookup_delete_ne by congruence.
      destruct (decide (k ∈ keys)) as [Hin|Hout].
      * rewrite !bool_decide_eq_true_2; [reflexivity| |exact Hin].
        apply list_elem_of_further. exact Hin.
      * rewrite !bool_decide_eq_false_2; [reflexivity| |exact Hout].
        intros H. apply elem_of_cons in H. destruct H; [congruence | contradiction].
Qed.

Lemma expired_keys (cache : gmap string (list CandleData.t * number))
    (now : number) (k : string) :
  k ∈ map fst
        (List.filter
           (fun '(_, (_, timestamp)) => (now - timestamp >? CACHE_TTL)%js)
           (map_to_list cache))
  <-> exists data timestamp,
        cache !! k = Some (data, timestamp) /\
        (now - timestamp >? CACHE_TTL)%js = true.
Proof.
  rewrite list_elem_of_In, in_map_iff. split.
  - intros ([k' [data timestamp]] & Hk & Hin). cbn in Hk. subst k'.
    apply filter_In in Hin. destruct Hin as [Hin Hexp].
    apply list_elem_of_In, elem_of_map_to_list in Hin. eauto.
  - intros (data & timestamp & Hk & Hexp).
    exists (k, (data, timestamp)). split; [reflexivity|].
    apply filter_In. split; [|exact Hexp].
    apply list_elem_of_In, elem_of_map_to_list. exact Hk.
Qed.

(** What a cleanup leaves under a key. *)
Lemma cleanupCache_lookup (e : ClusterEngine.t) (now : number) (key : string) :
  clusterCache (cleanupCache e now) !! key
  = match clusterCache e !! key with
    | Some (data, timestamp) =>
        if (now - timestamp >? Fin 60000)%js then None
        else Some (data, timestamp)
    | None => None
    end /\
  atrCache (cleanupCache e now) = atrCache e /\
  lastProcessedPrice (cleanupCache e now) = lastProcessedPrice e.
Proof.
  split; [|split; reflexivity].
  unfold cleanupCache. cbn [clusterCache set_clusterCache].
  rewrite fold_delete_lookup.
  destruct (clusterCache e !! key) as [[data timestamp]|] eqn:E.
  - destruct (now - timestamp >? Fin 60000)%js eqn:Eexp.
    + rewrite bool_decide_eq_true_2; [reflexivity|].
      apply expired_keys. eauto.
    + rewrite bool_decide_eq_false_2; [reflexivity|].
      intros H. apply expired_keys in H.
      destruct H as (data' & timestamp' & Hk & Hexp).
      rewrite E in Hk. injection Hk as <- <-.
      change CACHE_TTL with (Fin 60000) in Hexp. congruence.
  - rewrite bool_decide_eq_false_2; [reflexivity|].
    intros H. apply expired_keys in H.
    destruct H as (data' & timestamp' & Hk & _). congruence.
Qed.

(** X1.  [cleanupCache] at clock [now] deletes exactly the entries of
    the cluster cache whose age [now - timestamp] is above the 60000 ms
    of [CACHE_TTL]; every other entry, the ATR cache and the last
    processed prices stay as they are.  An entry aged exactly 60000 ms
    is kept. *)
Theorem cleanupCache_expired (e : ClusterEngine.t) (now : number) (key : string) :
  clusterCache (cleanupCache e now) !! key
  = match clusterCache e !! key with
    | Some (data, timestamp) =>
        if (now - timestamp >? Fin 60000)%js then None
        else Some (data, timestamp)
    | None => None
    end /\
  atrCache (cleanupCache e now) = atrCache e /\
  lastProcessedPrice (cleanupCache e now) = lastProcessedPrice e.
Proof. exact (cleanupCache_lookup e now key). Qed.

Lemma preload_miss (show : number -> string) (e : ClusterEngine.t)
    (symbol interval : string) (fromTime toTime now : number) :
  let key := cacheKey show symbol interval fromTime toTime in
  clusterCache e !! key = None ->
  preloadHistoricalClusters show e symbol interval fromTime toTime now
  = ([], set_clusterCache e (<[key := ([], now)]> (clusterCache e))).
Proof.
  intros key Hmiss. unfold preloadHistoricalClusters. fold key.
  rewrite Hmiss. reflexivity.
Qed.

Lemma preload_cached (show : number -> string) (e : ClusterEngine.t)
    (symbol interval : string) (fromTime toTime now : number)
    (data : list CandleData.t) (timestamp : number) :
  let key := cacheKey show symbol interval fromTime toTime in
  clusterCache e !! key = Some (data, timestamp) ->
  preloadHistoricalClusters show e symbol interval fromTime toTime now
  = if (now - timestamp <? Fin 60000)%js then (data, e)
    else ([], set_clusterCache e (<[key := ([], now)]> (clusterCache e))).
Proof.
  intros key Hhit. unfold preloadHistoricalClusters. fold key.
  rewrite Hhit. reflexivity.
Qed.

(** X2.  The life of a cache entry.  A preload at time [t0] that misses
    the cache stores the empty result under its key with timestamp
    [t0].  A second preload of the same query at [t1] is served from the
    cache, and leaves the engine (and so the timestamp) as it is, exactly
    when [t1 - t0 < 60000]; from 60000 ms on it stores a new entry stamped
    [t1].  A cleanup at [t1] keeps the entry up to and including an age
    of 60000 ms and deletes it above. *)
Theorem preloadHistoricalClusters_lifetime (show : number -> string)
    (e : ClusterEngine.t) (symbol interval : string) (fromTime toTime : number)
    (t0 t1 : Q) :
  let key := cacheKey show symbol interval fromTime toTime in
  let preload e now :=
    preloadHistoricalClusters show e symbol interval fromTime toTime (Fin now) in
  let e1 := (preload e t0).2 in
  clusterCache e !! key = None ->
  clusterCache e1 !! key = Some ([], Fin t0) /\
  (t1 - t0 < 60000 -> preload e1 t1 = ([], e1)) /\
  (60000 <= t1 - t0 ->
   (preload e1 t1).1 = [] /\
   clusterCache (preload e1 t1).2 !! key = Some ([], Fin t1)) /\
  (t1 - t0 <= 60000 ->
   clusterCache (cleanupCache e1 (Fin t1)) !! key = Some ([], Fin t0)) /\
  (60000 < t1 - t0 -> clusterCache (cleanupCache e1 (Fin t1)) !! key = None).
Proof.
  intros key preload e1 Hmiss.
  assert (clusterCache e1 !! key = Some ([], Fin t0)) as Hstored.
  { subst e1 preload. cbv beta. rewrite (preload_miss show e _ _ _ _ _ Hmiss).
    cbn [snd clusterCache set_clusterCache]. apply lookup_insert_eq. }
  split; [exact Hstored|].
  pose proof (preload_cached show e1 symbol interval fromTime toTime (Fin t1)
                [] (Fin t0) Hstored) as Hsecond.
  fold key in Hsecond. rewrite sub_Fin in Hsecond.
  pose proof (proj1 (cleanupCache_lookup e1 (Fin t1) key)) as Hclean.
  rewrite Hstored, sub_Fin in Hclean. unfold JS.gt in Hclean.
  split; [|split; [|split]].
  - intros Hage. subst preload. cbv beta. rewrite Hsecond.
    rewrite (proj2 (lt_Fin _ _) Hage). reflexivity.
  - intros Hage. subst preload. cbv beta. rewrite Hsecond.
    rewrite (proj2 (lt_Fin_false _ _) Hage).
    cbn [fst snd clusterCache set_clusterCache].
    split; [reflexivity | apply lookup_insert_eq].
  - intros Hage. rewrite Hclean.
    rewrite (proj2 (lt_Fin_false _ _) Hage). reflexivity.
  - intros Hage. rewrite Hclean.
    rewrite (proj2 (lt_Fin _ _) Hage). reflexivity.
Qed.

Lemma preloadHistoricalClusters_lifetime_witness :
  let preload e now :=
    preloadHistoricalClusters (fun _ => "0"%string) e "BTCUSDT" "1m"
      (Fin 0) (Fin 0) (Fin now) in
  let e1 := (preload ClusterEngine.new 0).2 in
  clusterCache e1 !! "BTCUSDT_1m_0_0" = Some ([], Fin 0) /\
  preload e1 59999 = ([], e1) /\
  clusterCache (preload e1 60000).2 !! "BTCUSDT_1m_0_0" = Some ([], Fin 60000) /\
  clusterCache (cleanupCache e1 (Fin 60000)) !! "BTCUSDT_1m_0_0"
    = Some ([], Fin 0) /\
  clusterCache (cleanupCache e1 (Fin 60001)) !! "BTCUSDT_1m_0_0" = None.
Proof.
  cbv zeta.
  pose proof (fun t1 =>
    preloadHistoricalClusters_lifetime (fun _ => "0"%string) ClusterEngine.new
      "BTCUSDT" "1m" (Fin 0) (Fin 0) 0 t1 (lookup_empty _)) as H.
  cbv zeta in H.
  split; [exact (proj1 (H 0))|].
  split; [apply (H 59999); reflexivity|].
  split; [apply (H 60000); discriminate|].
  split; [apply (H 60000); discriminate|].
  apply (H 60001). reflexivity.
Defined.

Lemma cache_empty_new : cache_empty ClusterEngine.new.
Proof.
  intros key data timestamp H. unfold ClusterEngine.new in H.
  cbn [clusterCache] in H. rewrite lookup_empty in H. discriminate.
Qed.

(** X3.  The preload never returns data: in an engine whose cache
    entries hold the empty list, as in a new engine, every preload
    returns the empty list, and preloads, cleanups, the refresh gate and
    the ATR update leave such an engine behind. *)
Theorem preloadHistoricalClusters_empty (show : number -> string)
    (e : ClusterEngine.t) (symbol interval : string)
    (fromTime toTime now : number) :
  cache_empty e ->
  let r := preloadHistoricalClusters show e symbol interval fromTime toTime now in
  r.1 = [] /\ cache_empty r.2 /\
  cache_empty (cleanupCache e now) /\
  (forall s p, cache_empty (shouldRefreshClusters e s p).2) /\
  (forall s candles, cache_empty (updateATRCache e s candles)).
Proof.
  intros He r.
  assert (cache_empty
            (set_clusterCache e
               (<[cacheKey show symbol interval fromTime toTime := ([], now)]>
                  (clusterCache e)))) as Hload.
  { intros key data timestamp. cbn [clusterCache set_clusterCache].
    destruct (decide (key = cacheKey show symbol interval fromTime toTime))
      as [->|Hne].
    - rewrite lookup_insert_eq. congruence.
    - rewrite lookup_insert_ne by congruence. apply He. }
  assert (r.1 = [] /\ cache_empty r.2) as [Hdata Hcache].
  { subst r. unfold preloadHistoricalClusters.
    destruct (clusterCache e !! cacheKey show symbol interval fromTime toTime)
      as [[data timestamp]|] eqn:E.
    - destruct (now - timestamp <? CACHE_TTL)%js.
      + split; [exact (He _ _ _ E) | exact He].
      + split; [reflexivity | exact Hload].
    - split; [reflexivity | exact Hload]. }
  split; [exact Hdata|]. split; [exact Hcache|]. split; [|split].
  - intros key data timestamp H.
    rewrite (proj1 (cleanupCache_lookup e now key)) in H.
    destruct (clusterCache e !! key) as [[data' timestamp']|] eqn:E;
      [|discriminate].
    destruct (now - timestamp' >? Fin 60000)%js; [discriminate|].
    injection H as <- <-. exact (He _ _ _ E).
  - intros s p. unfold shouldRefreshClusters.
    destruct (lastProcessedPrice e !! s) as [lastPrice|]; [|exact He].
    destruct (negb (JS.truthy lastPrice)); [exact He|].
    destruct (JS.abs (p - lastPrice) / lastPrice >? PRICE_CHANGE_THRESHOLD)%js;
      exact He.
  - intros s candles. exact He.
Qed.

Lemma preloadHistoricalClusters_empty_witness :
  (preloadHistoricalClusters (fun _ => "0"%string) ClusterEngine.new "BTCUSDT"
     "1m" (Fin 0) (Fin 0) (Fin 0)).1 = [].
Proof.
  apply (preloadHistoricalClusters_empty (fun _ => "0"%string) ClusterEngine.new
           "BTCUSDT" "1m" (Fin 0) (Fin 0) (Fin 0) cache_empty_new).
Defined.

(** X4.  The ATR cache.  After [updateATRCache(symbol, candles)] on
    candles with finite prices, [getCachedATR(symbol)] is positive: it is
    the ATR of the candles when that is not zero, and the default 0.001
    when it is zero (a flat history); the cached values of the other
    symbols are not affected. *)
Theorem getCachedATR_after_update (e : ClusterEngine.t) (symbol : string)
    (candles : list CandleData.t) :
  Forall finite_candle candles ->
  let e' := updateATRCache e symbol candles in
  (getCachedATR e' symbol >? Fin 0)%js = true /\
  ((calculateATR candles None =? Fin 0)%js = true ->
   getCachedATR e' symbol = Fin 0.001) /\
  ((calculateATR candles None =? Fin 0)%js = false ->
   getCachedATR e' symbol = calculateATR candles None) /\
  (forall other, other <> symbol -> getCachedATR e' other = getCachedATR e other).
Proof.
  intros HF e'.
  destruct (nonneg_Fin _ (calculateATR_nonneg _ HF)) as (a & Ha & Hapos).
  assert (getCachedATR e' symbol
          = if JS.is_zero a then Fin 0.001 else Fin a) as Hget.
  { subst e'. unfold getCachedATR, updateATRCache. cbn [atrCache].
    rewrite lookup_insert_eq, Ha. cbn [JS.or_default JS.truthy].
    destruct (JS.is_zero a); reflexivity. }
  rewrite Hget, Ha. cbn [JS.eqb]. fold (JS.is_zero a).
  split; [|split; [|split]].
  - unfold JS.gt. destruct (JS.is_zero a) eqn:Ez.
    + reflexivity.
    + apply lt_Fin. apply is_zero_false in Ez.
      destruct (Qlt_le_dec 0 a) as [H|H]; [exact H|].
      exfalso. apply Ez. lra.
  - intros ->. reflexivity.
  - intros ->. reflexivity.
  - intros other Hne. subst e'. unfold getCachedATR, updateATRCache.
    cbn [atrCache]. rewrite lookup_insert_ne by congruence. reflexivity.
Qed.

Lemma getCachedATR_after_update_witness :
  let candles := [Sample.flat_candle 100; Sample.flat_candle 100] in
  let e' := updateATRCache ClusterEngine.new "BTCUSDT" candles in
  (getCachedATR e' "BTCUSDT" >? Fin 0)%js = true /\
  getCachedATR e' "BTCUSDT" = Fin 0.001.
Proof.
  cbv zeta.
  assert (Forall finite_candle [Sample.flat_candle 100; Sample.flat_candle 100])
    as HF by (repeat constructor).
  pose proof (getCachedATR_after_update ClusterEngine.new "BTCUSDT" _ HF) as H.
  cbv zeta in H. destruct H as (Hpos & Hzero & _).
  split; [exact Hpos|]. apply Hzero. reflexivity.
Defined.

End EngineCache.

(** ** The shape of the adaptive clusters *)

Section ClusterShape.
Import ClusterEngine Spec Shape.
Import JS (qmax, qmin).
Local Open Scope Q_scope.

Lemma adaptive_cluster_draws
    (low high totalVolume totalBuyVolume currentPrice priceRange
       optimalClusters step : number) (i : nat) (rng : Rng) :
  draws (adaptive_cluster low high totalVolume totalBuyVolume currentPrice
           priceRange optimalClusters step i rng).2 = draws rng.
Proof. reflexivity. Qed.

(** A property of every cluster that a pass makes holds for every
    cluster of the loop. *)
Lemma adaptive_loop_all (P : Cluster.t -> Prop)
    (low high totalVolume totalBuyVolume currentPrice priceRange step : number)
    (k : nat) :
  (forall i rng, (i < k)%nat -> JS.unit_draws rng ->
     P (adaptive_cluster low high totalVolume totalBuyVolume currentPrice
          priceRange (JS.of_nat k) step i rng).1) ->
  forall (fuel i : nat) (clusters : list Cluster.t) (rng : Rng),
    JS.unit_draws rng -> Forall P clusters ->
    Forall P
      (adaptive_loop fuel low high totalVolume totalBuyVolume currentPrice
         priceRange (JS.of_nat k) step i clusters rng).1.
Proof.
  intros Hpass fuel.
  induction fuel as [|fuel IH]; intros i clusters rng Hdraws HF.
  - exact HF.
  - cbn [adaptive_loop].
    destruct (JS.of_nat i <? JS.of_nat k)%js eqn:E; [|exact HF].
    apply of_nat_lt in E.
    pose proof (Hpass i rng E Hdraws) as Hc.
    pose proof (adaptive_cluster_draws low high totalVolume totalBuyVolume
                  currentPrice priceRange (JS.of_nat k) step i rng) as Hd.
    destruct (adaptive_cluster low high totalVolume totalBuyVolume currentPrice
                priceRange (JS.of_nat k) step i rng) as [c rng'].
    cbn [fst snd] in Hc, Hd.
    apply IH.
    + intros n. rewrite Hd. apply Hdraws.
    + apply Forall_app. split; [exact HF|]. constructor; [exact Hc|constructor].
Qed.

Lemma generateAdaptiveClusters_all (P : Cluster.t -> Prop) (l h T : Q)
    (buy sell : number) (a cp : Q) (rng : Rng) :
  ~ a == 0 -> JS.unit_draws rng ->
  (forall (k i : nat) rng, (5 <= k <= 25)%nat -> (i < k)%nat ->
     JS.unit_draws rng ->
     P (adaptive_cluster (Fin l) (Fin h) (Fin T) buy (Fin cp) (Fin (h - l))
          (JS.of_nat k) (Fin (h - l) / JS.of_nat k)%js i rng).1) ->
  Forall P
    (generateAdaptiveClusters (Fin l) (Fin h) (Fin T) buy sell (Fin a) (Fin cp)
       rng).1.
Proof.
  intros Ha Hdraws Hpass. unfold generateAdaptiveClusters.
  rewrite mul_Fin, sub_Fin.
  destruct (optimal_clusters_range (h - l) (a * 0.5)) as (k & -> & Hk).
  { intros H. apply Ha. lra. }
  pose proof (adaptive_loop_all P (Fin l) (Fin h) (Fin T) buy (Fin cp)
                (Fin (h - l)) (Fin (h - l) / JS.of_nat k)%js k
                (fun i rng => Hpass k i rng Hk) adaptive_fuel 0 [] rng Hdraws
                (Forall_nil_2 P)) as Hloop.
  destruct (adaptive_loop adaptive_fuel (Fin l) (Fin h) (Fin T) buy (Fin cp)
              (Fin (h - l)) (JS.of_nat k) (Fin (h - l) / JS.of_nat k)%js 0 []
              rng) as [clusters rng'].
  cbn [fst] in *.
  rewrite (sort_perm by_volume_desc clusters). exact Hloop.
Qed.

(** One pass of the loop for a finite buy volume: price, volume and the
    split of the volume. *)
Lemma adaptive_cluster_inside (l h T B cp : Q) (k i : nat) (rng : Rng) :
  l < h -> 0 < T -> 0 < cp -> (i < k)%nat -> JS.unit_draws rng ->
  cluster_inside l h
    (adaptive_cluster (Fin l) (Fin h) (Fin T) (Fin B) (Fin cp) (Fin (h - l))
       (JS.of_nat k) (Fin (h - l) / JS.of_nat k)%js i rng).1.
Proof.
  intros Hlh HT Hcp Hik Hdraws.
  unfold adaptive_cluster, JS.random, cluster_inside.
  cbn [fst snd draws cursor Cluster.price Cluster.volume Cluster.buyVolume
       Cluster.sellVolume Cluster.delta Cluster.aggression].
  name_draw rng (cursor rng) r0.
  name_draw rng (S (cursor rng)) r1.
  unfold JS.of_nat.
  set (K := inject_Z (Z.of_nat k)). set (I := inject_Z (Z.of_nat i)).
  assert (0 < K) as HK.
  { subst K. change 0 with (inject_Z 0). rewrite <- Zlt_Qlt. lia. }
  assert (0 <= I) as HI.
  { subst I. change 0 with (inject_Z 0). rewrite <- Zle_Qle. lia. }
  assert (I + 1 <= K) as HIK.
  { subst I K. change 1 with (inject_Z 1). rewrite <- inject_Z_plus, <- Zle_Qle. lia. }
  assert (~ K == 0) as HK0 by lra.
  assert (~ cp == 0) as Hcp0 by lra.
  assert (~ T == 0) as HT0 by lra.
  assert (~ h - l == 0) as Hhl0 by lra.
  assert (~ 2 == 0) as H20 by lra.
  assert (~ (h - l) / 2 == 0) as Hhalf.
  { intros H. assert ((h - l) / 2 * 2 == 0) as H' by (rewrite H; ring).
    field_simplify in H'. lra. }
  fin_arith.
  set (price := l + (h - l) / K * I + (h - l) / K / 2).
  assert (l < price /\ price < h) as [Hpl Hph].
  { assert (0 < (h - l) / K) as Hstep by (apply Qlt_shift_div_l; lra).
    assert ((h - l) / K * K == h - l) as HstepK by (field; exact HK0).
    set (step := (h - l) / K) in *. subst price. split.
    - assert (0 <= step * I) by (apply Qmult_le_0_compat; lra).
      assert (0 < step / 2) by (apply Qlt_shift_div_l; lra).
      lra.
    - assert (step * (I + 1) <= step * K) as Hle
        by (apply Qmult_le_l; [exact Hstep | exact HIK]).
      assert (step / 2 == step * (1 # 2)) as -> by (field; lra).
      lra. }
  set (dc := Qabs (price - cp) / cp).
  assert (0 <= dc) as Hdc.
  { subst dc. apply Qle_shift_div_l; [exact Hcp|].
    rewrite Qmult_0_l. apply Qabs_nonneg. }
  assert (~ 1 + dc == 0) as Hdc0 by lra.
  fin_arith.
  set (cpw := 1 / (1 + dc)).
  assert (0 < cpw /\ cpw <= 1) as [Hcpw0 Hcpw1].
  { subst cpw. split.
    - apply Qlt_shift_div_l; lra.
    - apply Qle_shift_div_r; lra. }
  set (dm := Qabs (price - (h + l) / 2) / ((h - l) / 2)).
  assert (0 <= dm /\ dm < 1) as [Hdm0 Hdm1].
  { assert (0 < (h - l) / 2) as Hhalf0 by (apply Qlt_shift_div_l; lra).
    assert ((h - l) / 2 * 2 == h - l) as Hh2 by (field; lra).
    assert ((h + l) / 2 * 2 == h + l) as Hm2 by (field; lra).
    subst dm. split.
    - apply Qle_shift_div_l; [exact Hhalf0|].
      rewrite Qmult_0_l. apply Qabs_nonneg.
    - apply Qlt_shift_div_r; [exact Hhalf0|].
      apply Qabs_Qlt_condition. split; lra. }
  set (imp := cpw * 0.6 + (1 - dm) * 0.4).
  assert (0 < imp /\ imp <= 1) as [Himp0 Himp1] by (subst imp; split; lra).
  set (m := 0.7 + r0 * 0.6).
  assert (0 < m /\ m < 1.3) as [Hm0 Hm1] by (subst m; split; lra).
  assert (0 < T / K) as Hu by (apply Qlt_shift_div_l; lra).
  set (v := T / K * (imp * m)).
  assert (0 < v) as Hv.
  { subst v. apply Qmult_lt_0_compat; [exact Hu|].
    apply Qmult_lt_0_compat; assumption. }
  assert (~ v == 0) as Hv0 by lra.
  match goal with
  | |- context [qmax 0.1 (qmin 0.9 ?x)] => set (raw := x)
  end.
  set (ratio := qmax 0.1 (qmin 0.9 raw)).
  assert (0.1 <= ratio /\ ratio <= 0.9) as [Hlo Hhi].
  { subst ratio.
    destruct (qmin_spec 0.9 raw) as (Hm9 & _ & _).
    destruct (qmax_spec 0.1 (qmin 0.9 raw)) as (Hx1 & _ & Hx3).
    split; [exact Hx1|]. destruct Hx3 as [-> | ->]; lra. }
  clearbody ratio.
  unfold JS.gt. rewrite (proj2 (lt_Fin 0 v) Hv). fin_arith.
  assert (v * 0.1 <= v * ratio) as Hb0 by (apply Qmult_le_l; assumption).
  assert (v * ratio <= v * 0.9) as Hb1 by (apply Qmult_le_l; assumption).
  exists price, v, (v * ratio), (v - v * ratio),
    (v * ratio - (v - v * ratio)), (Qabs (v * ratio - (v - v * ratio)) / v).
  repeat (split; [reflexivity|]).
  split; [exact Hpl|]. split; [exact Hph|]. split; [exact Hv|].
  split; [lra|]. split; [lra|].
  split; [reflexivity|]. split; [reflexivity|]. split; [reflexivity|].
  apply Qle_shift_div_r; [exact Hv|].
  apply Qabs_Qle_condition. split; lra.
Qed.

(** X5.  For low < high, a positive total volume, a finite buy volume,
    an ATR that is not zero, a positive current price and draws in
    [0, 1), every cluster that [generateAdaptiveClusters] returns has its
    price strictly between low and high, a positive volume, a buy volume
    between 10% and 90% of its volume, sellVolume = volume - buyVolume,
    delta = buyVolume - sellVolume and aggression = |delta| / volume, at
    most 0.8. *)
Theorem generateAdaptiveClusters_cluster_shape (l h T B : Q) (sell : number)
    (a cp : Q) (rng : Rng) :
  l < h -> 0 < T -> ~ a == 0 -> 0 < cp -> JS.unit_draws rng ->
  Forall (cluster_inside l h)
    (generateAdaptiveClusters (Fin l) (Fin h) (Fin T) (Fin B) sell (Fin a)
       (Fin cp) rng).1.
Proof.
  intros Hlh HT Ha Hcp Hdraws.
  apply generateAdaptiveClusters_all; [exact Ha | exact Hdraws|].
  intros k i rng' _ Hik Hdraws'.
  apply adaptive_cluster_inside; assumption.
Qed.

Lemma generateAdaptiveClusters_cluster_shape_witness :
  Forall (cluster_inside 100 110)
    (generateAdaptiveClusters (Fin 100) (Fin 110) (Fin 1000) (Fin 600)
       (Fin 400) (Fin 1) (Fin 105) Sample.zero_draws).1.
Proof.
  apply (generateAdaptiveClusters_cluster_shape 100 110 1000 600 (Fin 400) 1 105
           Sample.zero_draws).
  - reflexivity.
  - reflexivity.
  - discriminate.
  - reflexivity.
  - exact zero_draws_unit.
Defined.

(** The sort puts the clusters in the order of their volumes. *)
Lemma generateAdaptiveClusters_by_volume (l h T : Q) (buy sell : number)
    (a cp : Q) (rng : Rng) :
  l < h -> 0 < T -> ~ a == 0 -> 0 < cp -> JS.unit_draws rng ->
  Sorted volume_desc
    (generateAdaptiveClusters (Fin l) (Fin h) (Fin T) buy sell (Fin a)
       (Fin cp) rng).1.
Proof.
  intros Hlh HT Ha Hcp Hdraws. unfold generateAdaptiveClusters.
  match goal with
  | |- context [adaptive_loop ?f ?a1 ?a2 ?a3 ?a4 ?a5 ?a6 ?a7 ?a8 ?a9 ?a10 ?a11] =>
      pose proof (generateAdaptiveClusters_all
                    (fun c => exists v, Cluster.volume c = Fin v)
                    l h T buy sell a cp rng Ha Hdraws) as Hall;
      unfold generateAdaptiveClusters in Hall;
      destruct (adaptive_loop f a1 a2 a3 a4 a5 a6 a7 a8 a9 a10 a11)
        as [clusters rng']
  end.
  cbn [fst] in *.
  assert (Forall (fun c => exists v, Cluster.volume c = Fin v) clusters) as HF.
  { rewrite <- (sort_perm by_volume_desc clusters). apply Hall.
    intros k i rng0 _ Hik Hdraws0.
    destruct (adaptive_cluster_volume l h T buy cp k i rng0 Hlh HT Hcp Hik
                Hdraws0) as [(v & Hv & _) _].
    exists v. exact Hv. }
  apply (sort_sorted by_volume_desc
           (fun c => exists v, Cluster.volume c = Fin v) volume_desc);
    [| |exact HF].
  - intros x y (vx & Hx) (vy & Hy) Hb. unfold volume_desc.
    apply (sub_neg_iff_lt (Cluster.volume x) (Cluster.volume y));
      [rewrite Hx | rewrite Hy | exact Hb]; discriminate.
  - intros x y (vx & Hx) (vy & Hy) Hb. unfold volume_desc.
    apply (sub_neg_iff_lt (Cluster.volume x) (Cluster.volume y));
      [rewrite Hx | rewrite Hy | exact Hb]; discriminate.
Qed.

(** X6.  Under the same conditions the clusters come back ordered by
    volume, largest first: each cluster's volume is at most the volume of
    the cluster before it. *)
Theorem generateAdaptiveClusters_sorted (l h T : Q) (buy sell : number)
    (a cp : Q) (rng : Rng) :
  l < h -> 0 < T -> ~ a == 0 -> 0 < cp -> JS.unit_draws rng ->
  Sorted volume_desc
    (generateAdaptiveClusters (Fin l) (Fin h) (Fin T) buy sell (Fin a)
       (Fin cp) rng).1.
Proof. apply generateAdaptiveClusters_by_volume. Qed.

Lemma generateAdaptiveClusters_sorted_witness :
  Sorted volume_desc
    (generateAdaptiveClusters (Fin 100) (Fin 110) (Fin 1000) (Fin 600)
       (Fin 400) (Fin 1) (Fin 105) Sample.half_draws).1.
Proof.
  apply (generateAdaptiveClusters_sorted 100 110 1000 (Fin 600) (Fin 400) 1 105
           Sample.half_draws).
  - reflexivity.
  - reflexivity.
  - discriminate.
  - reflexivity.
  - exact half_draws_unit.
Defined.

End ClusterShape.

(** ** The backfill, candle by candle *)

Section BackfillShape.
Import ClusterEngine TestDataGenerator Spec Shape.
Local Open Scope Q_scope.

Lemma generateEnhancedCandle_open (time startPrice : number)
    (interval : string) (history : list CandleData.t) (rng : Rng) :
  let c := (generateEnhancedCandle time startPrice interval history rng).1 in
  CandleData.time c = time /\ CandleData.open c = startPrice.
Proof.
  unfold generateEnhancedCandle, JS.random. cbn [fst snd draws cursor].
  match goal with
  | |- context [generateAdaptiveClusters ?l ?h ?v ?b ?s ?atr ?c ?r] =>
      destruct (generateAdaptiveClusters l h v b s atr c r) as [clusters rng']
  end.
  split; reflexivity.
Qed.

(** What [generateSingleCandle] returns and leaves: the candle of the
    engine, and the window with the candle pushed and the oldest candle
    shifted out above 100. *)
Lemma generateSingleCandle_made (this : TestDataGenerator.t)
    (time price : number) (interval : string) (rng : Rng) :
  let enhanced :=
    generateEnhancedCandle time price interval (historicalCandles this) rng in
  let made := generateSingleCandle this time price interval rng in
  made.1.1 = enhanced.1 /\ made.2 = enhanced.2 /\
  historicalCandles made.1.2
  = (let history := historicalCandles this ++ [enhanced.1] in
     if (100 <? length history)%nat then JS.shift history else history).
Proof.
  unfold generateSingleCandle.
  destruct (generateEnhancedCandle time price interval (historicalCandles this)
              rng) as [candle rng'].
  cbn [fst snd historicalCandles]. repeat split.
Qed.

Lemma slice_last_all {A} (n : nat) (l : list A) :
  (length l <= n)%nat -> JS.slice_last n l = l.
Proof.
  intros H. unfold JS.slice_last.
  replace (length l - n)%nat with 0%nat by lia. reflexivity.
Qed.

Lemma slice_last_length {A} (n : nat) (l : list A) :
  length (JS.slice_last n l) = Nat.min (length l) n.
Proof. unfold JS.slice_last. rewrite length_skipn. lia. Qed.

Lemma slice_last_push {A} (n : nat) (l : list A) (x : A) :
  (1 <= n)%nat ->
  JS.slice_last n (JS.slice_last n l ++ [x]) = JS.slice_last n (l ++ [x]).
Proof.
  intros Hn. destruct (le_lt_dec (length l) n) as [Hle|Hgt].
  - rewrite (slice_last_all n l Hle). reflexivity.
  - unfold JS.slice_last at 1 3.
    rewrite !length_app, slice_last_length. cbn [length].
    rewrite Nat.min_r by lia.
    replace (n + 1 - n)%nat with 1%nat by lia.
    unfold JS.slice_last.
    rewrite !skipn_app, length_skipn, skipn_skipn.
    replace (1 - (length l - (length l - n)))%nat with 0%nat by lia.
    replace (length l + 1 - n - length l)%nat with 0%nat by lia.
    replace (1 + (length l - n))%nat with (length l + 1 - n)%nat by lia.
    reflexivity.
Qed.

(** Pushing onto a window of at most [n] entries and shifting above [n]
    keeps the last [n] entries. *)
Lemma window_push {A} (n : nat) (l : list A) (x : A) :
  (length l <= n)%nat ->
  (if (n <? length (l ++ [x]))%nat then JS.shift (l ++ [x]) else l ++ [x])
  = JS.slice_last n (l ++ [x]).
Proof.
  intros Hle. unfold JS.slice_last, JS.shift.
  rewrite length_app. cbn [length].
  destruct (n <? length l + 1)%nat eqn:E.
  - apply Nat.ltb_lt in E.
    replace (length l + 1 - n)%nat with 1%nat by lia.
    destruct (l ++ [x]); reflexivity.
  - apply Nat.ltb_ge in E.
    replace (length l + 1 - n)%nat with 0%nat by lia. reflexivity.
Qed.

Lemma chained_app (start : number) (candles : list CandleData.t)
    (c : CandleData.t) :
  chained start candles -> CandleData.open c = last_close start candles ->
  chained start (candles ++ [c]).
Proof.
  revert start. induction candles as [|c0 rest IH]; intros start Hch Hopen.
  - cbn in *. split; [exact Hopen | exact I].
  - destruct Hch as [H0 Hrest]. cbn [app chained]. split; [exact H0|].
    apply IH; [exact Hrest | exact Hopen].
Qed.

Lemma last_close_app (start : number) (candles : list CandleData.t)
    (c : CandleData.t) :
  last_close start (candles ++ [c]) = CandleData.close c.
Proof. unfold last_close. rewrite fold_left_app. reflexivity. Qed.

(** The loop of the backfill: the candles it adds, the price and the
    time it ends with, and the window it leaves. *)
Lemma historical_loop_spec (n : nat) (interval : string) :
  forall (this : TestDataGenerator.t) (candles : list CandleData.t)
         (time price : number) (rng : Rng),
    let r := historical_loop n interval this candles time price rng in
    exists new : list CandleData.t,
      r.1.1.1.1 = candles ++ new /\ length new = n /\
      chained price new /\ r.1.1.2 = last_close price new /\
      (forall k c, new !! k = Some c ->
         CandleData.time c
         = Nat.iter k
             (fun t => JS.rounded (t + getIntervalInSeconds interval)%js)
             time) /\
      ((length (historicalCandles this) <= 100)%nat ->
       historicalCandles r.1.2
       = JS.slice_last 100 (historicalCandles this ++ new)) /\
      currentPrice r.1.2 = currentPrice this /\
      priceHistory r.1.2 = priceHistory this.
Proof.
  induction n as [|n IH]; intros this candles time price rng.
  - exists []. cbn [historical_loop fst snd]. rewrite !app_nil_r.
    split; [reflexivity|]. split; [reflexivity|]. split; [exact I|].
    split; [reflexivity|]. split; [intros k c H; discriminate|].
    split; [intros H; symmetry; apply slice_last_all; exact H|].
    split; reflexivity.
  - cbn [historical_loop].
    pose proof (generateSingleCandle_made this time price interval rng) as Hmade.
    pose proof (generateSingleCandle_frame this time price interval rng) as Hframe.
    pose proof (generateEnhancedCandle_open time price interval
                  (historicalCandles this) rng) as Hopen.
    cbv zeta in Hmade, Hframe, Hopen.
    destruct (generateSingleCandle this time price interval rng)
      as [[candle this'] rng'].
    cbn [fst snd] in Hmade, Hframe.
    destruct Hmade as (Hcandle & _ & Hwindow).
    rewrite <- Hcandle in Hopen, Hwindow. destruct Hopen as [Htime Hopen].
    destruct Hframe as (Hprice' & _ & Hhistory' & _).
    specialize (IH this' (candles ++ [candle])
                  (JS.rounded (time + getIntervalInSeconds interval)%js)
                  (CandleData.close candle) rng').
    cbv zeta in IH. destruct IH as (new & Hc & Hlen & Hch & Hlast & Htimes & Hwin & Hp & Hh).
    exists (candle :: new).
    split; [rewrite Hc, <- app_assoc; reflexivity|].
    split; [cbn [length]; lia|].
    split; [split; [exact Hopen | exact Hch]|].
    split; [exact Hlast|].
    split; [|split; [|split]].
    + intros [|k] c Hk.
      * injection Hk as <-. exact Htime.
      * cbn [lookup list_lookup] in Hk. rewrite (Htimes k c Hk).
        exact (iter_shift
                 (fun t => JS.rounded (t + getIntervalInSeconds interval)%js)
                 k time).
    + intros Hle. rewrite Hwin.
      * rewrite Hwindow, (window_push 100 _ candle Hle).
        change (historicalCandles this ++ candle :: new)
          with (historicalCandles this ++ [candle] ++ new).
        rewrite app_assoc.
        clear. revert candle. generalize (historicalCandles this).
        intros l c. revert l c.
        induction new as [|x new IHn] using rev_ind; intros l c.
        -- rewrite !app_nil_r.
           rewrite (slice_last_all 100 (JS.slice_last 100 (l ++ [c]))); [reflexivity|].
           rewrite slice_last_length. lia.
        -- rewrite !app_assoc.
           rewrite <- (slice_last_push 100 (JS.slice_last 100 (l ++ [c]) ++ new) x)
             by lia.
           rewrite IHn. apply slice_last_push. lia.
      * rewrite Hwindow, (window_push 100 _ candle Hle), slice_last_length. lia.
    + rewrite Hp. exact Hprice'.
    + rewrite Hh. exact Hhistory'.
Qed.

(** X7.  [generateHistoricalCandles(count, interval)] returns exactly
    [count] candles that follow one another: the first opens at the
    current price scaled by a factor 0.95 + 0.1 * random, each later one
    opens at the close of the one before, and afterwards the current
    price of the generator is the close of the last candle (the scaled
    price when [count] is zero).  The price history is not touched. *)
Theorem generateHistoricalCandles_chain (this : TestDataGenerator.t)
    (count : nat) (interval : string) (rng : Rng) :
  let start :=
    (currentPrice this * (Fin 0.95 + (JS.random rng).1 * Fin 0.1))%js in
  let r := generateHistoricalCandles this count interval rng in
  length r.1.1 = count /\
  chained start r.1.1 /\
  currentPrice r.1.2 = last_close start r.1.1 /\
  priceHistory r.1.2 = priceHistory this.
Proof.
  unfold generateHistoricalCandles, JS.random. cbn [fst snd draws cursor].
  match goal with
  | |- context [historical_loop ?n ?i ?g ?c ?t ?p ?r] =>
      pose proof (historical_loop_spec n i g c t p r) as H;
      cbv zeta in H;
      destruct (historical_loop n i g c t p r) as [[[[candles time'] price'] this'] rng']
  end.
  cbn [fst snd] in *.
  destruct H as (new & Hc & Hlen & Hch & Hlast & _ & _ & _ & Hh).
  cbn [app] in Hc. subst candles.
  cbn [currentPrice priceHistory].
  split; [exact Hlen|]. split; [exact Hch|]. split; [exact Hlast | exact Hh].
Qed.

Lemma generateHistoricalCandles_length (this : TestDataGenerator.t)
    (count : nat) (interval : string) (rng : Rng) :
  length (generateHistoricalCandles this count interval rng).1.1 = count.
Proof.
  unfold generateHistoricalCandles, JS.random. cbn [fst snd draws cursor].
  match goal with
  | |- context [historical_loop ?n ?i ?g ?c ?t ?p ?r] =>
      pose proof (historical_loop_spec n i g c t p r) as H;
      cbv zeta in H;
      destruct (historical_loop n i g c t p r) as [[[[candles time'] price'] this'] rng']
  end.
  cbn [fst snd] in *.
  destruct H as (new & Hc & Hlen & _).
  cbn [app] in Hc. subst candles. exact Hlen.
Qed.

(** A step count between none and [n] keeps the cursor between its
    ends. *)
Lemma exact_within (x s : Z) (k n : nat) :
  (k <= n)%nat -> Shape.exact x -> Shape.exact (x + Z.of_nat n * s) ->
  Shape.exact (x + Z.of_nat k * s).
Proof.
  unfold Shape.exact. intros Hk Hx Hend.
  assert ((0 <= Z.of_nat k * s <= Z.of_nat n * s
           \/ Z.of_nat n * s <= Z.of_nat k * s <= 0)%Z) as H.
  { destruct (Z.le_gt_cases 0 s) as [Hs|Hs]; [left | right]; split.
    - apply Z.mul_nonneg_nonneg; lia.
    - apply Z.mul_le_mono_nonneg_r; lia.
    - apply Z.mul_le_mono_nonpos_r; lia.
    - apply Z.mul_nonneg_nonpos; lia. }
  lia.
Qed.

(** [k] steps of the cursor over exact integers. *)
Lemma iter_add_exact (k : nat) (interval : string) (x s : Z) :
  getIntervalInSeconds interval = JS.of_Z s ->
  Shape.exact x -> Shape.exact (x + Z.of_nat k * s) ->
  Nat.iter k (fun t => JS.rounded (t + getIntervalInSeconds interval)%js)
    (JS.of_Z x)
  = JS.of_Z (x + Z.of_nat k * s).
Proof.
  intros Hs Hx Hend.
  rewrite <- (historical_loop_cursor k interval
                (TestDataGenerator.new (Fin 1) (Fin 0)) [] (JS.of_Z x) (Fin 1)
                (mkRng (fun _ => 0) 0)).
  apply (historical_loop_time k interval s Hs); assumption.
Qed.

(** The times of a backfill over exact integers: the candle at index
    [k] lies [count - k] steps before the clock. *)
Lemma backfill_times (this : TestDataGenerator.t) (count : nat)
    (interval : string) (rng : Rng) (clock : Q) (t0 s : Z) :
  currentTime this = Fin clock -> clock == inject_Z t0 ->
  getIntervalInSeconds interval = JS.of_Z s ->
  Shape.exact_backfill t0 s count ->
  forall (k : nat) (c : CandleData.t),
    (generateHistoricalCandles this count interval rng).1.1 !! k = Some c ->
    (k < count)%nat /\
    CandleData.time c = JS.of_Z (t0 - (Z.of_nat count - Z.of_nat k) * s).
Proof.
  intros Ht0 Hq Hs Hexact k c.
  unfold generateHistoricalCandles, JS.random. cbn [fst snd draws cursor].
  match goal with
  | |- context [historical_loop ?n ?i ?g ?cs ?t ?p ?r] =>
      pose proof (historical_loop_spec n i g cs t p r) as H;
      cbv zeta in H;
      destruct (historical_loop n i g cs t p r) as [[[[candles time'] price'] this'] rng']
  end.
  cbn [fst snd] in *.
  destruct H as (new & Hc & Hlen & _ & _ & Htimes & _).
  cbn [app] in Hc. subst candles. intros Hk.
  assert ((k < count)%nat) as Hlt
    by (rewrite <- Hlen; apply (lookup_lt_Some new k c Hk)).
  split; [exact Hlt|].
  rewrite (Htimes k c Hk), Ht0.
  rewrite (backfill_start clock count interval t0 s Hq Hs Hexact).
  destruct Hexact as (Hclock & _ & _ & Hstart).
  assert ((t0 - Z.of_nat count * s + Z.of_nat count * s = t0)%Z) as E by ring.
  rewrite (iter_add_exact k interval _ s Hs Hstart).
  - f_equal. ring.
  - apply (exact_within _ s k count); [lia | exact Hstart|].
    rewrite E. exact Hclock.
Qed.

(** X8.  The times of a backfill.  When the clock of the generator is
    the integer [t0], the interval is [s] seconds long and the backfill
    computes on exact integers only (the clock, the count, the span
    count * s and the start t0 - count * s are within 2^53 in
    magnitude), the candle at index [k] of the [count] candles carries
    the time [t0 - (count - k) * s]: the candles are [s] seconds apart
    and the last one lies one interval before the clock. *)
Theorem generateHistoricalCandles_times (this : TestDataGenerator.t)
    (count : nat) (interval : string) (rng : Rng) (t0 s : Z) :
  currentTime this = JS.of_Z t0 ->
  getIntervalInSeconds interval = JS.of_Z s ->
  Shape.exact_backfill t0 s count ->
  forall (k : nat) (c : CandleData.t),
    (generateHistoricalCandles this count interval rng).1.1 !! k = Some c ->
    CandleData.time c = JS.of_Z (t0 - (Z.of_nat count - Z.of_nat k) * s).
Proof.
  intros Ht0 Hs Hexact k c Hk.
  apply (backfill_times this count interval rng (inject_Z t0) t0 s Ht0
           ltac:(reflexivity) Hs Hexact k c Hk).
Qed.

Lemma generateHistoricalCandles_times_witness :
  exists c : CandleData.t,
    (generateHistoricalCandles Sample.generator 2 "1m" Sample.half_draws).1.1
      !! 1%nat = Some c /\
    CandleData.time c = JS.of_Z (1700000000 - (Z.of_nat 2 - Z.of_nat 1) * 60).
Proof.
  destruct (lookup_lt_is_Some_2
              (generateHistoricalCandles Sample.generator 2 "1m"
                 Sample.half_draws).1.1 1) as [c Hc].
  { rewrite generateHistoricalCandles_length. lia. }
  exists c. split; [exact Hc|].
  apply (generateHistoricalCandles_times Sample.generator 2 "1m"
           Sample.half_draws 1700000000 60 eq_refl eq_refl); [|exact Hc].
  repeat split; apply Z.leb_le; reflexivity.
Defined.

(** X9.  The candle window.  When the window holds at most 100 candles,
    after a backfill it holds the last 100 candles of the old window
    followed by the candles of the backfill, oldest first; so it holds
    min(old length + count, 100) candles and never more than 100. *)
Theorem generateHistoricalCandles_window (this : TestDataGenerator.t)
    (count : nat) (interval : string) (rng : Rng) :
  (length (historicalCandles this) <= 100)%nat ->
  let r := generateHistoricalCandles this count interval rng in
  historicalCandles r.1.2 = JS.slice_last 100 (historicalCandles this ++ r.1.1) /\
  length (historicalCandles r.1.2)
  = Nat.min (length (historicalCandles this) + count) 100.
Proof.
  intros Hle.
  unfold generateHistoricalCandles, JS.random. cbn [fst snd draws cursor].
  match goal with
  | |- context [historical_loop ?n ?i ?g ?cs ?t ?p ?r] =>
      pose proof (historical_loop_spec n i g cs t p r) as H;
      cbv zeta in H;
      destruct (historical_loop n i g cs t p r) as [[[[candles time'] price'] this'] rng']
  end.
  cbn [fst snd] in *.
  destruct H as (new & Hc & Hlen & _ & _ & _ & Hwin & _).
  cbn [app] in Hc. subst candles. cbn [historicalCandles].
  rewrite (Hwin Hle). split; [reflexivity|].
  rewrite slice_last_length, length_app, Hlen. reflexivity.
Qed.

Lemma generateHistoricalCandles_window_witness :
  let r := generateHistoricalCandles Sample.generator 50 "1m" Sample.half_draws in
  historicalCandles r.1.2
    = JS.slice_last 100 (historicalCandles Sample.generator ++ r.1.1) /\
  length (historicalCandles r.1.2)
    = Nat.min (length (historicalCandles Sample.generator) + 50) 100.
Proof.
  apply (generateHistoricalCandles_window Sample.generator 50 "1m"
           Sample.half_draws).
  cbn. lia.
Defined.

End BackfillShape.

(** ** The price process: finite numbers stay finite *)

Section Soundness.
Import ClusterEngine TestDataGenerator Spec Shape.
Import JS (qmax, qmin).
Local Open Scope Q_scope.

Lemma adaptive_loop_draws
    (low high totalVolume totalBuyVolume currentPrice priceRange
       optimalClusters step : number) :
  forall (fuel i : nat) (clusters : list Cluster.t) (rng : Rng),
    draws (adaptive_loop fuel low high totalVolume totalBuyVolume currentPrice
             priceRange optimalClusters step i clusters rng).2 = draws rng.
Proof.
  induction fuel as [|fuel IH]; intros i clusters rng; [reflexivity|].
  cbn [adaptive_loop].
  destruct (JS.of_nat i <? optimalClusters)%js; [|reflexivity].
  pose proof (adaptive_cluster_draws low high totalVolume totalBuyVolume
                currentPrice priceRange optimalClusters step i rng) as Hd.
  destruct (adaptive_cluster low high totalVolume totalBuyVolume currentPrice
              priceRange optimalClusters step i rng) as [c rng'].
  cbn [snd] in Hd. rewrite IH. exact Hd.
Qed.

Lemma generateAdaptiveClusters_draws
    (low high totalVolume totalBuyVolume totalSellVolume atr currentPrice
       : number) (rng : Rng) :
  draws (generateAdaptiveClusters low high totalVolume totalBuyVolume
           totalSellVolume atr currentPrice rng).2 = draws rng.
Proof.
  unfold generateAdaptiveClusters.
  match goal with
  | |- context [adaptive_loop ?f ?a1 ?a2 ?a3 ?a4 ?a5 ?a6 ?a7 ?a8 ?a9 ?a10 ?a11] =>
      pose proof (adaptive_loop_draws a1 a2 a3 a4 a5 a6 a7 a8 f a9 a10 a11) as H;
      destruct (adaptive_loop f a1 a2 a3 a4 a5 a6 a7 a8 a9 a10 a11)
        as [clusters rng']
  end.
  exact H.
Qed.

Lemma generateEnhancedCandle_draws (time startPrice : number)
    (interval : string) (history : list CandleData.t) (rng : Rng) :
  draws (generateEnhancedCandle time startPrice interval history rng).2
  = draws rng.
Proof.
  unfold generateEnhancedCandle, JS.random. cbn [fst snd draws cursor].
  match goal with
  | |- context [generateAdaptiveClusters ?l ?h ?v ?b ?s ?atr ?c ?r] =>
      pose proof (generateAdaptiveClusters_draws l h v b s atr c r) as H;
      destruct (generateAdaptiveClusters l h v b s atr c r) as [clusters rng']
  end.
  exact H.
Qed.

Lemma unit_draws_same (rng rng' : Rng) :
  draws rng' = draws rng -> JS.unit_draws rng -> JS.unit_draws rng'.
Proof. intros H Hu n. rewrite H. apply Hu. Qed.

Lemma well_formed_finite (c : CandleData.t) :
  well_formed_candle c -> finite_candle c.
Proof.
  intros (o & h & l & cl & Ho & Hh & Hl & Hcl & _).
  unfold finite_candle. rewrite Hh, Hl, Hcl. repeat split.
Qed.

(** The prices of a candle of the engine. *)
Lemma generateEnhancedCandle_prices (time : number) (p : Q)
    (interval : string) (history : list CandleData.t) (rng : Rng) :
  0 < p -> Forall finite_candle history -> JS.unit_draws rng ->
  well_formed_candle
    (generateEnhancedCandle time (Fin p) interval history rng).1.
Proof.
  intros Hp HF Hdraws.
  destruct (nonneg_Fin _ (calculateATR_nonneg _ HF)) as (a & Ha & Hapos).
  unfold generateEnhancedCandle, JS.random, well_formed_candle. rewrite Ha.
  cbn [fst snd draws cursor].
  match goal with
  | |- context [generateAdaptiveClusters ?l ?h ?v ?b ?s ?atr ?c ?r] =>
      destruct (generateAdaptiveClusters l h v b s atr c r) as [clusters rng']
  end.
  cbn [fst CandleData.low CandleData.high CandleData.open CandleData.close].
  name_draw rng (cursor rng) r0.
  name_draw rng (S (cursor rng)) r1.
  name_draw rng (S (S (cursor rng))) r2.
  name_draw rng (S (S (S (cursor rng)))) r3.
  name_draw rng (S (S (S (S (cursor rng))))) r4.
  assert (~ p == 0) as Hp0 by lra.
  fin_arith.
  match goal with
  | |- context [qmax ?x 1] => set (close := qmax x 1); pose proof (qmax_spec x 1) as Hclose
  end.
  fold close in Hclose. destruct Hclose as (_ & Hone & _).
  assert (0 <= r3 * (a * (0.5 + r2))) as Hup.
  { apply Qmult_le_0_compat; [lra|]. apply Qmult_le_0_compat; lra. }
  assert (0 <= r4 * (a * (0.5 + r2))) as Hdown.
  { apply Qmult_le_0_compat; [lra|]. apply Qmult_le_0_compat; lra. }
  destruct (qmin_spec p close) as (Hmin1 & Hmin2 & _).
  destruct (qmax_spec p close) as (Hmax1 & Hmax2 & _).
  eexists _, _, _, _.
  split; [reflexivity|]. split; [reflexivity|]. split; [reflexivity|].
  split; [reflexivity|].
  repeat split; lra.
Qed.

Lemma Forall_shift {A} (P : A -> Prop) (l : list A) :
  Forall P l -> Forall P (JS.shift l).
Proof. intros H. destruct H; [constructor | assumption]. Qed.

(** One candle more in a sound generator. *)
Lemma generateSingleCandle_sound (this : TestDataGenerator.t) (time : number)
    (p : Q) (interval : string) (rng : Rng) :
  0 < p -> Forall finite_candle (historicalCandles this) -> JS.unit_draws rng ->
  let made := generateSingleCandle this time (Fin p) interval rng in
  well_formed_candle made.1.1 /\
  Forall finite_candle (historicalCandles made.1.2) /\
  JS.unit_draws made.2.
Proof.
  intros Hp HF Hdraws made.
  pose proof (generateSingleCandle_made this time (Fin p) interval rng) as Hmade.
  cbv zeta in Hmade. fold made in Hmade. destruct Hmade as (Hc & Hr & Hw).
  pose proof (generateEnhancedCandle_prices time p interval _ rng Hp HF Hdraws)
    as Hwf.
  rewrite <- Hc in Hwf, Hw.
  split; [exact Hwf|]. split.
  - rewrite Hw.
    assert (Forall finite_candle (historicalCandles this ++ [made.1.1])) as HF'.
    { apply Forall_app. split; [exact HF|].
      constructor; [apply well_formed_finite; exact Hwf | constructor]. }
    destruct (100 <? length (historicalCandles this ++ [made.1.1]))%nat;
      [apply Forall_shift|]; exact HF'.
  - rewrite Hr. eapply unit_draws_same; [|exact Hdraws].
    apply generateEnhancedCandle_draws.
Qed.

Lemma historical_loop_sound (n : nat) (interval : string) :
  forall (this : TestDataGenerator.t) (candles : list CandleData.t)
         (time : number) (p : Q) (rng : Rng),
    0 < p -> Forall finite_candle (historicalCandles this) ->
    JS.unit_draws rng -> Forall well_formed_candle candles ->
    let r := historical_loop n interval this candles time (Fin p) rng in
    Forall well_formed_candle r.1.1.1.1 /\
    (exists q, r.1.1.2 = Fin q /\ 0 < q) /\
    Forall finite_candle (historicalCandles r.1.2) /\
    JS.unit_draws r.2.
Proof.
  induction n as [|n IH]; intros this candles time p rng Hp HF Hdraws Hwf.
  - cbn [historical_loop fst snd].
    split; [exact Hwf|]. split; [exists p; split; [reflexivity | exact Hp]|].
    split; [exact HF | exact Hdraws].
  - cbn [historical_loop].
    pose proof (generateSingleCandle_sound this time p interval rng Hp HF Hdraws)
      as Hmade.
    cbv zeta in Hmade.
    destruct (generateSingleCandle this time (Fin p) interval rng)
      as [[candle this'] rng'].
    cbn [fst snd] in Hmade. destruct Hmade as (Hc & HF' & Hdraws').
    destruct Hc as (o & h & l & cl & Ho & Hh & Hl & Hcl & Hord) eqn:Ewf.
    rewrite Hcl. apply IH.
    + lra.
    + exact HF'.
    + exact Hdraws'.
    + apply Forall_app. split; [exact Hwf|].
      constructor; [|constructor]. exists o, h, l, cl. auto.
Qed.

(** X10.  A backfill keeps a sound generator sound.  When the current
    price is finite and positive, the price history is finite, the
    candles of the window have finite prices and the draws lie in [0, 1),
    every candle that [generateHistoricalCandles] returns has finite
    prices with low <= open, close <= high, a positive open and
    close >= 1, and the generator it leaves is sound again: no price
    turns into NaN or an infinity. *)
Theorem generateHistoricalCandles_sound (this : TestDataGenerator.t)
    (count : nat) (interval : string) (rng : Rng) :
  sound this -> JS.unit_draws rng ->
  let r := generateHistoricalCandles this count interval rng in
  Forall well_formed_candle r.1.1 /\ sound r.1.2 /\ JS.unit_draws r.2.
Proof.
  intros ((p & Hprice & Hp) & Hhist & HF) Hdraws.
  pose proof (Hdraws (cursor rng)) as Hr0.
  unfold generateHistoricalCandles, JS.random. cbn [fst snd draws cursor].
  rewrite Hprice. fin_arith.
  set (r0 := draws rng (cursor rng)) in *. clearbody r0.
  assert (0 < p * (0.95 + r0 * 0.1)) as Hstart.
  { apply Qmult_lt_0_compat; lra. }
  match goal with
  | |- context [historical_loop ?n ?i ?g ?cs ?t (Fin ?q) ?r] =>
      pose proof (historical_loop_sound n i g cs t q r Hstart HF) as H;
      pose proof (historical_loop_spec n i g cs t (Fin q) r) as Hspec;
      cbv zeta in H, Hspec;
      destruct (historical_loop n i g cs t (Fin q) r)
        as [[[[candles time'] price'] this'] rng']
  end.
  cbn [fst snd] in *.
  destruct H as (Hwf & (q & Hq & Hq0) & HF' & Hdraws').
  { intros n. apply Hdraws. }
  { constructor. }
  destruct Hspec as (new & _ & _ & _ & _ & _ & _ & _ & Hh).
  split; [exact Hwf|]. split; [|exact Hdraws'].
  unfold sound. cbn [currentPrice priceHistory historicalCandles].
  split; [exists q; split; assumption|].
  split; [rewrite Hh; exact Hhist | exact HF'].
Qed.

Lemma new_sound (p : Q) (now : number) :
  0 < p -> sound (TestDataGenerator.new (Fin p) now).
Proof.
  intros Hp. unfold sound, TestDataGenerator.new.
  cbn [currentPrice priceHistory historicalCandles].
  split; [exists p; split; [reflexivity | exact Hp]|].
  split; [|constructor].
  apply List.Forall_forall. intros x Hx. apply repeat_spec in Hx. subst x. exact I.
Qed.

Lemma generateHistoricalCandles_sound_witness :
  let r := generateHistoricalCandles Sample.generator 50 "1m" Sample.half_draws in
  Forall well_formed_candle r.1.1 /\ sound r.1.2 /\ JS.unit_draws r.2.
Proof.
  apply (generateHistoricalCandles_sound Sample.generator 50 "1m"
           Sample.half_draws).
  - apply new_sound. reflexivity.
  - exact half_draws_unit.
Defined.

Lemma Forall_slice_last {A} (P : A -> Prop) (n : nat) (l : list A) :
  Forall P l -> Forall P (JS.slice_last n l).
Proof. intros H. unfold JS.slice_last. apply Forall_drop. exact H. Qed.

(** The price move of a sound generator. *)
Lemma simulatePriceMovement_sound (this : TestDataGenerator.t) (rng : Rng) :
  sound this -> JS.unit_draws rng ->
  let moved := simulatePriceMovement this rng in
  (exists q, moved.1.1 = Fin q /\ 1 <= q) /\
  Forall JS.finite (priceHistory moved.1.2) /\
  JS.unit_draws moved.2.
Proof.
  intros ((p & Hprice & Hp) & Hhist & HF) Hdraws.
  unfold simulatePriceMovement, JS.random, updateCurrentPrice.
  cbn [fst snd draws cursor currentPrice priceHistory currentTime clusterEngine
       historicalCandles].
  rewrite Hprice.
  destruct (sum_from_qsum (JS.slice_last 20 (priceHistory this)) 0
              (Forall_slice_last _ _ _ Hhist)) as (s & Hs & _).
  rewrite Hs.
  assert (~ p == 0) as Hp0 by lra.
  assert (~ 20 == 0) as H20 by lra.
  fin_arith.
  match goal with
  | |- context [qmax ?x 1] =>
      pose proof (qmax_spec x 1) as (_ & Hone & _); set (q := qmax x 1) in *
  end.
  split; [exists q; split; [reflexivity | exact Hone]|].
  split; [|intros n; apply Hdraws].
  assert (Forall JS.finite (priceHistory this ++ [Fin q])) as HF'.
  { apply Forall_app. split; [exact Hhist|]. constructor; [exact I | constructor]. }
  destruct (1000 <? length (priceHistory this ++ [Fin q]))%nat;
    [apply Forall_shift|]; exact HF'.
Qed.

(** X11.  A realtime update keeps a sound generator sound.  Under the
    same conditions [generateRealtimeUpdate] leaves a sound generator
    whose current price is a finite number of at least 1 (the floor of
    the price move), and the candle it returns, if any, has finite prices
    with low <= open, close <= high and close >= 1. *)
Theorem generateRealtimeUpdate_sound (this : TestDataGenerator.t)
    (interval : string) (rng : Rng) :
  sound this -> JS.unit_draws rng ->
  let r := generateRealtimeUpdate this interval rng in
  sound r.1.2 /\ JS.unit_draws r.2 /\
  (exists q, currentPrice r.1.2 = Fin q /\ 1 <= q) /\
  match r.1.1 with
  | Some candle => well_formed_candle candle
  | None => True
  end.
Proof.
  intros Hsound Hdraws.
  pose proof (simulatePriceMovement_sound this rng Hsound Hdraws) as Hmoved.
  pose proof (simulatePriceMovement_frame this rng) as Hframe.
  destruct Hsound as (_ & _ & HF).
  rewrite generateRealtimeUpdate_steps. cbv zeta in *.
  destruct (simulatePriceMovement this rng) as [[newPrice moved] rng1].
  cbn [fst snd] in *.
  destruct Hmoved as ((q & Hq & Hq1) & Hhist1 & Hdraws1).
  destruct Hframe as (Hnew & _ & _ & Hcandles).
  rewrite Hnew in Hq |- *. clear Hnew newPrice.
  destruct (shouldRefreshClusters (clusterEngine moved) "BTCUSDT"
              (currentPrice moved)) as [refresh engine].
  cbn [fst snd].
  destruct refresh; cbn [negb fst snd].
  - rewrite Hq.
    pose proof (generateSingleCandle_sound (set_engine moved engine)
                  (currentTime (set_engine moved engine)) q interval rng1) as Hmade.
    pose proof (generateSingleCandle_frame (set_engine moved engine)
                  (currentTime (set_engine moved engine)) (Fin q) interval rng1)
      as Hframe.
    cbv zeta in Hmade, Hframe.
    destruct (generateSingleCandle (set_engine moved engine)
                (currentTime (set_engine moved engine)) (Fin q) interval rng1)
      as [[candle made] rng2].
    cbn [fst snd] in *.
    destruct Hmade as (Hwf & HF2 & Hdraws2);
      [lra | cbn [set_engine historicalCandles]; rewrite Hcandles; exact HF
       | exact Hdraws1 |].
    destruct Hframe as (Hp2 & _ & Hh2 & _).
    cbn [set_engine currentPrice priceHistory] in Hp2, Hh2.
    unfold sound. cbn [set_engine currentPrice priceHistory historicalCandles].
    rewrite Hp2, Hh2, Hq.
    split; [|split; [exact Hdraws2|split; [eauto | exact Hwf]]].
    split; [exists q; split; [reflexivity | lra]|].
    split; [exact Hhist1 | exact HF2].
  - unfold sound. cbn [set_engine currentPrice priceHistory historicalCandles].
    rewrite Hq, Hcandles.
    split; [|split; [exact Hdraws1|split; [eauto | exact I]]].
    split; [exists q; split; [reflexivity | lra]|].
    split; [exact Hhist1 | exact HF].
Qed.

Lemma generateRealtimeUpdate_sound_witness :
  let r := generateRealtimeUpdate Sample.generator "1m" Sample.half_draws in
  sound r.1.2 /\ JS.unit_draws r.2 /\
  (exists q, currentPrice r.1.2 = Fin q /\ 1 <= q) /\
  match r.1.1 with
  | Some candle => well_formed_candle candle
  | None => True
  end.
Proof.
  apply (generateRealtimeUpdate_sound Sample.generator "1m" Sample.half_draws).
  - apply new_sound. reflexivity.
  - exact half_draws_unit.
Defined.

Lemma last_shift {A} (l : list A) (x : A) :
  (2 <= length (l ++ [x]))%nat -> last (JS.shift (l ++ [x])) = Some x.
Proof.
  intros H. destruct l as [|y l]; [cbn in H; lia|].
  cbn [app JS.shift tl]. apply last_snoc.
Qed.

(** What a realtime update emits and how it leaves the window. *)
Lemma generateRealtimeUpdate_emits (this : TestDataGenerator.t)
    (interval : string) (rng : Rng) :
  let r := generateRealtimeUpdate this interval rng in
  currentTime r.1.2 = currentTime this /\
  match r.1.1 with
  | Some candle =>
      CandleData.time candle = currentTime this /\
      CandleData.open candle = currentPrice r.1.2 /\
      historicalCandles r.1.2
      = (if (100 <? length (historicalCandles this ++ [candle]))%nat
         then JS.shift (historicalCandles this ++ [candle])
         else historicalCandles this ++ [candle])
  | None => historicalCandles r.1.2 = historicalCandles this
  end.
Proof.
  pose proof (simulatePriceMovement_frame this rng) as Hframe.
  rewrite generateRealtimeUpdate_steps. cbv zeta in *.
  destruct (simulatePriceMovement this rng) as [[newPrice moved] rng1].
  cbn [fst snd] in *.
  destruct Hframe as (Hnew & Htime & _ & Hcandles). subst newPrice.
  destruct (shouldRefreshClusters (clusterEngine moved) "BTCUSDT"
              (currentPrice moved)) as [refresh engine].
  cbn [fst snd].
  destruct refresh; cbn [negb fst snd].
  - pose proof (generateSingleCandle_made (set_engine moved engine)
                  (currentTime (set_engine moved engine)) (currentPrice moved)
                  interval rng1) as Hmade.
    pose proof (generateSingleCandle_frame (set_engine moved engine)
                  (currentTime (set_engine moved engine)) (currentPrice moved)
                  interval rng1) as Hframe.
    pose proof (generateEnhancedCandle_open
                  (currentTime (set_engine moved engine)) (currentPrice moved)
                  interval (historicalCandles (set_engine moved engine)) rng1)
      as Hopen.
    cbv zeta in Hmade, Hframe, Hopen.
    destruct (generateSingleCandle (set_engine moved engine)
                (currentTime (set_engine moved engine)) (currentPrice moved)
                interval rng1) as [[candle made] rng2].
    cbn [fst snd] in *.
    destruct Hmade as (Hc & _ & Hw). rewrite <- Hc in Hopen, Hw.
    destruct Hopen as [Ht Ho]. destruct Hframe as (Hp2 & Ht2 & _).
    cbn [set_engine currentPrice currentTime historicalCandles] in *.
    split; [congruence|]. split; [congruence|]. split; [congruence|].
    rewrite Hw, Hcandles. reflexivity.
  - cbn [set_engine currentTime historicalCandles].
    split; [exact Htime | exact Hcandles].
Qed.

(** X12.  The stamp of a realtime candle.  [generateRealtimeUpdate]
    never advances the clock of the generator.  A candle it returns
    carries the time of that clock and opens at the new current price,
    and it is the newest candle of the window afterwards; when the update
    is skipped the window is not touched.  So all candles of consecutive
    realtime updates carry one and the same time. *)
Theorem generateRealtimeUpdate_stamp (this : TestDataGenerator.t)
    (interval : string) (rng : Rng) :
  let r := generateRealtimeUpdate this interval rng in
  currentTime r.1.2 = currentTime this /\
  match r.1.1 with
  | Some candle =>
      CandleData.time candle = currentTime this /\
      CandleData.open candle = currentPrice r.1.2 /\
      last (historicalCandles r.1.2) = Some candle
  | None => historicalCandles r.1.2 = historicalCandles this
  end.
Proof.
  pose proof (generateRealtimeUpdate_emits this interval rng) as H.
  cbv zeta in *. destruct H as [Htime H]. split; [exact Htime|].
  destruct (generateRealtimeUpdate this interval rng).1.1 as [candle|];
    [|exact H].
  destruct H as (Ht & Ho & Hw). split; [exact Ht|]. split; [exact Ho|].
  rewrite Hw.
  destruct (100 <? length (historicalCandles this ++ [candle]))%nat eqn:E.
  - apply last_shift. apply Nat.ltb_lt in E. lia.
  - apply last_snoc.
Qed.

(** X13.  The price history.  [simulatePriceMovement] returns the new
    current price and pushes it onto the price history; when the history
    holds at most 1000 prices, afterwards it holds the last 1000 of the
    old prices followed by the new one.  The clock, the engine and the
    candle window are not touched. *)
Theorem simulatePriceMovement_history (this : TestDataGenerator.t) (rng : Rng) :
  (length (priceHistory this) <= 1000)%nat ->
  let moved := simulatePriceMovement this rng in
  currentPrice moved.1.2 = moved.1.1 /\
  priceHistory moved.1.2
  = JS.slice_last 1000 (priceHistory this ++ [moved.1.1]) /\
  (length (priceHistory moved.1.2) <= 1000)%nat /\
  last (priceHistory moved.1.2) = Some moved.1.1.
Proof.
  intros Hle.
  unfold simulatePriceMovement, JS.random, updateCurrentPrice.
  cbn [fst snd draws cursor currentPrice priceHistory currentTime clusterEngine
       historicalCandles].
  match goal with
  | |- context [JS.max ?x (Fin 1)] => generalize (JS.max x (Fin 1))
  end.
  intros newPrice.
  rewrite (window_push 1000 (priceHistory this) newPrice Hle).
  split; [reflexivity|]. split; [reflexivity|]. split.
  - rewrite slice_last_length. lia.
  - rewrite <- (window_push 1000 (priceHistory this) newPrice Hle).
    destruct (1000 <? length (priceHistory this ++ [newPrice]))%nat eqn:E.
    + apply last_shift. apply Nat.ltb_lt in E. lia.
    + apply last_snoc.
Qed.

Lemma simulatePriceMovement_history_witness :
  let moved := simulatePriceMovement Sample.generator Sample.half_draws in
  currentPrice moved.1.2 = moved.1.1 /\
  priceHistory moved.1.2
  = JS.slice_last 1000 (priceHistory Sample.generator ++ [moved.1.1]) /\
  (length (priceHistory moved.1.2) <= 1000)%nat /\
  last (priceHistory moved.1.2) = Some moved.1.1.
Proof.
  apply (simulatePriceMovement_history Sample.generator Sample.half_draws).
  cbn. lia.
Defined.

End Soundness.

(** ** The order book of the generator *)

Section OrderBook.
Import ClusterEngine TestDataGenerator Spec Shape.
Local Open Scope Q_scope.

(** A loop of [generateOrderBook] pushes one level per pass, each with
    the next draw. *)
Lemma book_side_spec (start spread : number) (ask : bool) (n : nat) :
  forall (i : nat) (levels : list OrderBookLevel.t) (rng : Rng),
    book_side n i start spread ask levels rng
    = (levels
       ++ map (fun j => book_level start spread ask (i + j)
                          (draws rng (cursor rng + j)))
            (seq 0 n),
       mkRng (draws rng) (cursor rng + n)).
Proof.
  induction n as [|n IH]; intros i levels rng.
  - cbn [book_side seq map]. rewrite app_nil_r, Nat.add_0_r.
    destruct rng; reflexivity.
  - cbn [book_side]. unfold JS.random. rewrite IH. cbn [draws cursor].
    rewrite <- app_assoc. cbn [seq map app].
    rewrite <- seq_shift, map_map, !Nat.add_0_r.
    f_equal; [|f_equal; lia].
    f_equal. f_equal. apply map_ext. intros j.
    replace (S i + j)%nat with (i + S j)%nat by lia.
    replace (S (cursor rng) + j)%nat with (cursor rng + S j)%nat by lia.
    reflexivity.
Qed.

Lemma map_seq_lookup {A} (f : nat -> A) (n k : nat) (x : A) :
  map f (seq 0 n) !! k = Some x -> (k < n)%nat /\ x = f k.
Proof.
  intros H. rewrite list_lookup_fmap in H.
  destruct (seq 0 n !! k) as [j|] eqn:E; [|discriminate].
  apply lookup_seq in E. destruct E as [-> Hk]. cbn in H.
  injection H as <-. split; [exact Hk | reflexivity].
Qed.

(** The book before the depth filter, level by level. *)
Lemma generateOrderBook_unfiltered (this : TestDataGenerator.t) (depth : nat)
    (now : number) (rng : Rng) :
  let spread := (currentPrice this * Fin 0.0001)%js in
  (generateOrderBook this depth false now rng).1
  = OrderBookData.mk
      (map (fun j => book_level (currentPrice this - spread / Fin 2)%js spread
                       false j (draws rng (cursor rng + j)))
         (seq 0 depth))
      (map (fun j => book_level (currentPrice this + spread / Fin 2)%js spread
                       true j (draws rng (cursor rng + depth + j)))
         (seq 0 depth))
      now.
Proof.
  unfold generateOrderBook. rewrite !book_side_spec. cbn [fst snd draws cursor app].
  reflexivity.
Qed.

(** X14.  The levels of the order book.  For a finite current price P,
    [generateOrderBook(depth, false)] returns [depth] bids and [depth]
    asks stamped with the clock; the bid at index k is priced
    P * (1 - 0.00005 - 0.00001 k) and the ask at index k is priced
    P * (1 + 0.00005 + 0.00001 k): the best bid and ask lie half a spread
    of 0.01% below and above P, and the levels are a tenth of the spread
    apart. *)
Theorem generateOrderBook_levels (this : TestDataGenerator.t) (depth : nat)
    (now : number) (rng : Rng) (P : Q) :
  currentPrice this = Fin P ->
  let book := (generateOrderBook this depth false now rng).1 in
  length (OrderBookData.bids book) = depth /\
  length (OrderBookData.asks book) = depth /\
  OrderBookData.lastUpdate book = now /\
  (forall k level, OrderBookData.bids book !! k = Some level ->
     exists q, OrderBookLevel.price level = Fin q /\
               q == P * (1 - 0.00005 - 0.00001 * inject_Z (Z.of_nat k))) /\
  (forall k level, OrderBookData.asks book !! k = Some level ->
     exists q, OrderBookLevel.price level = Fin q /\
               q == P * (1 + 0.00005 + 0.00001 * inject_Z (Z.of_nat k))).
Proof.
  intros HP book. subst book. rewrite generateOrderBook_unfiltered.
  cbn [OrderBookData.bids OrderBookData.asks OrderBookData.lastUpdate].
  rewrite !length_map, !length_seq.
  split; [reflexivity|]. split; [reflexivity|]. split; [reflexivity|].
  assert (~ 2 == 0) as H20 by lra.
  split; intros k level Hk; apply map_seq_lookup in Hk; destruct Hk as [_ ->];
    unfold book_level, JS.of_nat; cbn [OrderBookLevel.price]; rewrite HP;
    fin_arith; eexists; (split; [reflexivity|]); field.
Qed.

Lemma generateOrderBook_levels_witness :
  let book :=
    (generateOrderBook Sample.generator 50 false (Fin 0) Sample.half_draws).1 in
  length (OrderBookData.bids book) = 50%nat /\
  exists level,
    OrderBookData.bids book !! 0%nat = Some level /\
    exists q, OrderBookLevel.price level = Fin q /\
              q == 67500 * (1 - 0.00005 - 0.00001 * inject_Z (Z.of_nat 0)).
Proof.
  cbv zeta.
  pose proof (generateOrderBook_levels Sample.generator 50 (Fin 0)
                Sample.half_draws 67500 eq_refl) as H.
  cbv zeta in H. destruct H as (Hlen & _ & _ & Hbids & _).
  split; [exact Hlen|].
  destruct (lookup_lt_is_Some_2
              (OrderBookData.bids
                 (generateOrderBook Sample.generator 50 false (Fin 0)
                    Sample.half_draws).1) 0) as [level Hlevel].
  { rewrite Hlen. lia. }
  exists level. split; [exact Hlevel|]. exact (Hbids 0%nat level Hlevel).
Defined.

(** X15.  The volumes of the order book.  For draws in [0, 1) the level
    at index k of either side of [generateOrderBook(depth, false)] has
    the volume (10 + 50 r) * (1 - 0.05 k) for the draw r of its pass: it
    is positive for k < 20, zero at k = 20 and negative for k > 20.  A
    book of more than 21 levels per side holds levels of negative
    volume. *)
Theorem generateOrderBook_volumes (this : TestDataGenerator.t) (depth : nat)
    (now : number) (rng : Rng) :
  JS.unit_draws rng ->
  let book := (generateOrderBook this depth false now rng).1 in
  forall k level,
    OrderBookData.bids book !! k = Some level \/
    OrderBookData.asks book !! k = Some level ->
    exists v, OrderBookLevel.volume level = Fin v /\
              ((k < 20)%nat -> 0 < v) /\
              (k = 20%nat -> v == 0) /\
              ((20 < k)%nat -> v < 0).
Proof.
  intros Hdraws book k level Hk. subst book.
  rewrite generateOrderBook_unfiltered in Hk.
  cbn [OrderBookData.bids OrderBookData.asks] in Hk.
  assert (exists start ask r,
            level = book_level start (currentPrice this * Fin 0.0001)%js ask k r /\
            0 <= r < 1) as (start & ask & r & -> & Hr).
  { destruct Hk as [Hk|Hk]; apply map_seq_lookup in Hk; destruct Hk as [_ ->];
      eexists _, _, _; (split; [reflexivity | apply Hdraws]). }
  unfold book_level, JS.of_nat. cbn [OrderBookLevel.volume]. fin_arith.
  eexists. split; [reflexivity|].
  set (K := inject_Z (Z.of_nat k)).
  assert (0 < 10 + r * 50) as Hbase by lra.
  split; [|split].
  - intros Hlt. assert (K <= 19) as HK.
    { subst K. change 19 with (inject_Z 19). rewrite <- Zle_Qle. lia. }
    apply Qmult_lt_0_compat; lra.
  - intros ->. subst K. change (inject_Z (Z.of_nat 20)) with 20. ring.
  - intros Hgt. assert (21 <= K) as HK.
    { subst K. change 21 with (inject_Z 21). rewrite <- Zle_Qle. lia. }
    assert (0 < (10 + r * 50) * (K * 0.05 - 1)) as Hpos
      by (apply Qmult_lt_0_compat; lra).
    lra.
Qed.

Lemma generateOrderBook_volumes_witness :
  let book :=
    (generateOrderBook Sample.generator 50 false (Fin 0) Sample.half_draws).1 in
  exists level,
    OrderBookData.bids book !! 30%nat = Some level /\
    exists v, OrderBookLevel.volume level = Fin v /\ v < 0.
Proof.
  cbv zeta.
  destruct (lookup_lt_is_Some_2
              (OrderBookData.bids
                 (generateOrderBook Sample.generator 50 false (Fin 0)
                    Sample.half_draws).1) 30) as [level Hlevel].
  { rewrite generateOrderBook_unfiltered. cbn [OrderBookData.bids].
    rewrite length_map, length_seq. lia. }
  exists level. split; [exact Hlevel|].
  destruct (generateOrderBook_volumes Sample.generator 50 (Fin 0)
              Sample.half_draws half_draws_unit 30%nat level (or_introl Hlevel))
    as (v & Hv & _ & _ & Hneg).
  exists v. split; [exact Hv|]. apply Hneg. lia.
Defined.

End OrderBook.

(** ** The depth filter on the book of the generator *)

Section FilterNoop.
Import ClusterEngine TestDataGenerator Spec Shape.
Local Open Scope Q_scope.

Lemma sort_insert_last {A} (before : A -> A -> bool) (x : A) (l : list A) :
  Forall (fun y => before x y = false) l ->
  JS.sort_insert before x l = l ++ [x].
Proof.
  induction 1 as [|y l Hy _ IH]; [reflexivity|].
  cbn [JS.sort_insert app]. rewrite Hy, IH. reflexivity.
Qed.

Lemma sort_snoc {A} (before : A -> A -> bool) (l : list A) (x : A) :
  JS.sort before (l ++ [x]) = JS.sort_insert before x (JS.sort before l).
Proof. unfold JS.sort. rewrite fold_left_app. reflexivity. Qed.

(** The sort leaves a list as it is when no element has to go before an
    earlier one. *)
Lemma sort_already {A} (before : A -> A -> bool) (l : list A) :
  (forall i j a b, (i < j)%nat -> l !! i = Some a -> l !! j = Some b ->
     before b a = false) ->
  JS.sort before l = l.
Proof.
  induction l as [|x l IH] using rev_ind; intros Hord; [reflexivity|].
  rewrite sort_snoc, IH.
  - apply sort_insert_last. apply Forall_lookup_2. intros i a Ha.
    apply (Hord i (length l) a x).
    + apply lookup_lt_Some in Ha. exact Ha.
    + rewrite lookup_app_l by (apply lookup_lt_Some in Ha; exact Ha). exact Ha.
    + rewrite lookup_app_r by lia. rewrite Nat.sub_diag. reflexivity.
  - intros i j a b Hij Ha Hb. apply (Hord i j a b Hij).
    + rewrite lookup_app_l by (apply lookup_lt_Some in Ha; exact Ha). exact Ha.
    + rewrite lookup_app_l by (apply lookup_lt_Some in Hb; exact Hb). exact Hb.
Qed.

Lemma filter_all {A} (f : A -> bool) (l : list A) :
  Forall (fun x => f x = true) l -> List.filter f l = l.
Proof.
  induction 1 as [|x l Hx _ IH]; [reflexivity|].
  cbn [List.filter]. rewrite Hx, IH. reflexivity.
Qed.

(** A side that lies in the band, in the order of the sort and within
    50 levels passes the filter as it is. *)
Lemma side_unchanged (pred : OrderBookLevel.t -> bool)
    (before : OrderBookLevel.t -> OrderBookLevel.t -> bool)
    (f : nat -> OrderBookLevel.t) (n : nat) :
  (n <= 50)%nat ->
  (forall j, (j < n)%nat -> pred (f j) = true) ->
  (forall i j, (i < j)%nat -> (j < n)%nat -> before (f j) (f i) = false) ->
  JS.slice_first 50 (JS.sort before (List.filter pred (map f (seq 0 n))))
  = map f (seq 0 n).
Proof.
  intros Hn Hpred Hord.
  rewrite filter_all.
  - rewrite sort_already.
    + unfold JS.slice_first. apply firstn_all2.
      rewrite length_map, length_seq. exact Hn.
    + intros i j a b Hij Ha Hb.
      apply map_seq_lookup in Ha, Hb.
      destruct Ha as [_ ->], Hb as [Hj ->]. apply Hord; assumption.
  - apply Forall_lookup_2. intros i a Ha. apply map_seq_lookup in Ha.
    destruct Ha as [Hi ->]. apply Hpred. exact Hi.
Qed.

Lemma index_bounds (i j n : nat) :
  (i < j)%nat -> (j < n)%nat -> (n <= 50)%nat ->
  0 <= inject_Z (Z.of_nat i) /\
  inject_Z (Z.of_nat i) <= inject_Z (Z.of_nat j) /\
  inject_Z (Z.of_nat j) <= 49.
Proof.
  intros Hij Hjn Hn. change 0 with (inject_Z 0). change 49 with (inject_Z 49).
  rewrite <- !Zle_Qle. lia.
Qed.

(** X16.  The depth filter of the generator drops nothing from a book of
    at most 50 levels.  For a finite positive current price and
    [depth <= 50], [generateOrderBook(depth, true)] returns the very book
    of [generateOrderBook(depth, false)]: every level lies within 1.5% of
    the price, the bids already descend and the asks already ascend.  So
    the filtered book of a tick keeps its 50 levels per side. *)
Theorem generateOrderBook_filter_keeps (this : TestDataGenerator.t)
    (depth : nat) (now : number) (rng : Rng) (P : Q) :
  currentPrice this = Fin P -> 0 < P -> (depth <= 50)%nat ->
  generateOrderBook this depth true now rng
  = generateOrderBook this depth false now rng.
Proof.
  intros HP Hpos Hdepth.
  unfold generateOrderBook. rewrite !book_side_spec.
  cbn [fst snd draws cursor app]. f_equal.
  unfold filterDepth.
  change (default (Fin 2) (Some (Fin 1.5))) with (Fin 1.5).
  cbn [OrderBookData.bids OrderBookData.asks OrderBookData.lastUpdate].
  assert (~ 2 == 0) as H20 by lra.
  assert (~ 100 == 0) as H100 by lra.
  f_equal.
  - apply side_unchanged; [exact Hdepth| |].
    + intros j Hj.
      assert (0 <= inject_Z (Z.of_nat j) <= 49) as HJ'.
      { change 0 with (inject_Z 0). change 49 with (inject_Z 49).
        rewrite <- !Zle_Qle. lia. }
      unfold book_level, JS.of_nat, JS.ge. cbn [OrderBookLevel.price Nat.add].
      rewrite HP. fin_arith.
      set (J := inject_Z (Z.of_nat j)) in *. clearbody J.
      assert (0 <= J * P) as H0 by (apply Qmult_le_0_compat; lra).
      assert (J * P <= 49 * P) as H1 by (apply Qmult_le_compat_r; lra).
      unfold Qdiv. change (/ 2) with (1 # 2). change (/ 100) with (1 # 100).
      apply andb_true_intro. split; apply le_Fin; lra.
    + intros i j Hij Hj.
      destruct (index_bounds i j depth Hij Hj Hdepth) as (HI & HIJ & _).
      unfold bids_desc, book_level, JS.of_nat. cbn [OrderBookLevel.price Nat.add].
      rewrite HP. fin_arith. apply lt_Fin_false.
      set (I := inject_Z (Z.of_nat i)) in *.
      set (J := inject_Z (Z.of_nat j)) in *. clearbody I J.
      assert (0 <= (J - I) * P) as H0 by (apply Qmult_le_0_compat; lra).
      unfold Qdiv. change (/ 2) with (1 # 2). lra.
  - apply side_unchanged; [exact Hdepth| |].
    + intros j Hj.
      assert (0 <= inject_Z (Z.of_nat j) <= 49) as HJ'.
      { change 0 with (inject_Z 0). change 49 with (inject_Z 49).
        rewrite <- !Zle_Qle. lia. }
      unfold book_level, JS.of_nat, JS.ge. cbn [OrderBookLevel.price Nat.add].
      rewrite HP. fin_arith.
      set (J := inject_Z (Z.of_nat j)) in *. clearbody J.
      assert (0 <= J * P) as H0 by (apply Qmult_le_0_compat; lra).
      assert (J * P <= 49 * P) as H1 by (apply Qmult_le_compat_r; lra).
      unfold Qdiv. change (/ 2) with (1 # 2). change (/ 100) with (1 # 100).
      apply andb_true_intro. split; apply le_Fin; lra.
    + intros i j Hij Hj.
      destruct (index_bounds i j depth Hij Hj Hdepth) as (HI & HIJ & _).
      unfold asks_asc, book_level, JS.of_nat. cbn [OrderBookLevel.price Nat.add].
      rewrite HP. fin_arith. apply lt_Fin_false.
      set (I := inject_Z (Z.of_nat i)) in *.
      set (J := inject_Z (Z.of_nat j)) in *. clearbody I J.
      assert (0 <= (J - I) * P) as H0 by (apply Qmult_le_0_compat; lra).
      unfold Qdiv. change (/ 2) with (1 # 2). lra.
Qed.

Lemma generateOrderBook_filter_keeps_witness :
  generateOrderBook Sample.generator 50 true (Fin 0) Sample.half_draws
  = generateOrderBook Sample.generator 50 false (Fin 0) Sample.half_draws.
Proof.
  apply (generateOrderBook_filter_keeps Sample.generator 50 (Fin 0)
           Sample.half_draws 67500).
  - reflexivity.
  - reflexivity.
  - lia.
Defined.

End FilterNoop.

(** ** The depth filter, applied twice *)

Section FilterTwice.
Import ClusterEngine Spec Shape.

Lemma le_sub_not_neg (a b : number) :
  (b <=? a)%js = true -> (a - b <? Fin 0)%js = false.
Proof.
  destruct a as [|s|p], b as [|t|q]; cbn; try discriminate; try reflexivity.
  - destruct s, t; cbn; try discriminate; reflexivity.
  - destruct s; cbn; [discriminate | reflexivity].
  - destruct t; cbn; [reflexivity | discriminate].
  - intros H. apply Qle_bool_iff in H. apply lt_Fin_false.
    unfold Qminus. lra.
Qed.

Lemma Sorted_lookup {A} (R : A -> A -> Prop) (l : list A) :
  (forall x y z, R x y -> R y z -> R x z) -> Sorted R l ->
  forall i j a b, (i < j)%nat -> l !! i = Some a -> l !! j = Some b -> R a b.
Proof.
  intros Htrans Hs. apply Sorted_StronglySorted in Hs; [|exact Htrans].
  induction Hs as [|x l _ IH Hall]; intros i j a b Hij Ha Hb; [discriminate|].
  destruct j as [|j]; [lia|]. cbn in Hb.
  destruct i as [|i].
  - injection Ha as <-. rewrite List.Forall_forall in Hall. apply Hall.
    apply list_elem_of_In. eapply list_elem_of_lookup_2. exact Hb.
  - cbn in Ha. apply (IH i j); [lia | exact Ha | exact Hb].
Qed.

(** One side of the filter, applied to its own result. *)
Lemma side_again (pred : OrderBookLevel.t -> bool)
    (before : OrderBookLevel.t -> OrderBookLevel.t -> bool)
    (R : OrderBookLevel.t -> OrderBookLevel.t -> Prop)
    (levels : list OrderBookLevel.t) :
  (forall x y z, R x y -> R y z -> R x z) ->
  (forall x y, pred x = true -> pred y = true -> before x y = true -> R x y) ->
  (forall x y, pred x = true -> pred y = true -> before x y = false -> R y x) ->
  (forall x y, R x y -> before y x = false) ->
  let side := JS.slice_first 50 (JS.sort before (List.filter pred levels)) in
  JS.slice_first 50 (JS.sort before (List.filter pred side)) = side /\
  Forall (fun level => In level levels) side.
Proof.
  intros Htrans Ht Hf Hnot side.
  assert (Forall (fun level => pred level = true /\ In level levels) side)
    as Hside.
  { subst side. unfold JS.slice_first. apply Forall_take.
    rewrite sort_perm. apply List.Forall_forall. intros level Hin.
    apply filter_In in Hin. destruct Hin as [Hin Hp]. split; assumption. }
  assert (Sorted R side) as Hsorted.
  { subst side. unfold JS.slice_first. apply Sorted_take.
    apply (sort_sorted before (fun level => pred level = true) R Ht Hf).
    apply List.Forall_forall. intros level Hin.
    apply filter_In in Hin. destruct Hin as [_ Hp]. exact Hp. }
  assert (length side <= 50)%nat as Hlen.
  { subst side. unfold JS.slice_first. rewrite length_take. lia. }
  clearbody side. split.
  - rewrite filter_all
      by (eapply Forall_impl; [exact Hside | intros level [Hp _]; exact Hp]).
    rewrite sort_already.
    + unfold JS.slice_first. apply firstn_all2. exact Hlen.
    + intros i j a b Hij Ha Hb. apply Hnot.
      exact (Sorted_lookup R side Htrans Hsorted i j a b Hij Ha Hb).
  - eapply Forall_impl; [exact Hside | intros level [_ Hin]; exact Hin].
Qed.

(** X17.  [filterDepth] is idempotent and invents nothing: filtering a
    filtered book again, around the same centre and with the same range,
    returns it unchanged; every level of the result is a level of the
    book given, and [lastUpdate] is carried over.  This holds for every
    book and centre, NaN and infinite prices included. *)
Theorem filterDepth_idempotent (orderBook : OrderBookData.t) (C : number)
    (rangePercent : option number) :
  let once := filterDepth orderBook C rangePercent in
  filterDepth once C rangePercent = once /\
  OrderBookData.lastUpdate once = OrderBookData.lastUpdate orderBook /\
  Forall (fun level => In level (OrderBookData.bids orderBook))
    (OrderBookData.bids once) /\
  Forall (fun level => In level (OrderBookData.asks orderBook))
    (OrderBookData.asks once).
Proof.
  intros once. subst once. unfold filterDepth.
  cbn [OrderBookData.bids OrderBookData.asks OrderBookData.lastUpdate].
  set (r := default (Fin 2) rangePercent).
  set (lo := (C * (Fin 1 - r / Fin 100))%js).
  set (hi := (C * (Fin 1 + r / Fin 100))%js).
  pose proof (side_again
                (fun level =>
                   (OrderBookLevel.price level >=? lo)%js
                   && (OrderBookLevel.price level <=? C)%js)
                bids_desc price_desc (OrderBookData.bids orderBook)) as Hbids.
  pose proof (side_again
                (fun level =>
                   (OrderBookLevel.price level <=? hi)%js
                   && (OrderBookLevel.price level >=? C)%js)
                asks_asc price_asc (OrderBookData.asks orderBook)) as Hasks.
  cbv zeta in Hbids, Hasks.
  destruct Hbids as [Hb1 Hb2].
  { intros x y z Hxy Hyz. unfold price_desc in *. eapply le_trans; eassumption. }
  { intros x y Hx Hy. apply andb_prop in Hx, Hy. unfold bids_desc, price_desc.
    apply sub_neg_iff_lt; [destruct Hx as [_ Hx] | destruct Hy as [_ Hy]];
      [apply le_true_not_NaN in Hx | apply le_true_not_NaN in Hy]; tauto. }
  { intros x y Hx Hy. apply andb_prop in Hx, Hy. unfold bids_desc, price_desc.
    apply sub_neg_iff_lt; [destruct Hx as [_ Hx] | destruct Hy as [_ Hy]];
      [apply le_true_not_NaN in Hx | apply le_true_not_NaN in Hy]; tauto. }
  { intros x y Hxy. unfold bids_desc, price_desc in *.
    apply le_sub_not_neg. exact Hxy. }
  destruct Hasks as [Ha1 Ha2].
  { intros x y z Hxy Hyz. unfold price_asc in *. eapply le_trans; eassumption. }
  { intros x y Hx Hy. apply andb_prop in Hx, Hy. unfold asks_asc, price_asc.
    apply sub_neg_iff_lt; [destruct Hy as [Hy _] | destruct Hx as [Hx _]];
      [apply le_true_not_NaN in Hy | apply le_true_not_NaN in Hx]; tauto. }
  { intros x y Hx Hy. apply andb_prop in Hx, Hy. unfold asks_asc, price_asc.
    apply sub_neg_iff_lt; [destruct Hy as [Hy _] | destruct Hx as [Hx _]];
      [apply le_true_not_NaN in Hy | apply le_true_not_NaN in Hx]; tauto. }
  { intros x y Hxy. unfold asks_asc, price_asc in *.
    apply le_sub_not_neg. exact Hxy. }
  split; [|split; [reflexivity|split; [exact Hb2 | exact Ha2]]].
  rewrite Hb1, Ha1. reflexivity.
Qed.

End FilterTwice.

(** ** The stream hub: subscribers and broadcasts *)

Section HubSubscribers.
Import TradingDataManager.
Context {S : Type} {storage : IStorage S}.

Local Opaque TestDataGenerator.generateHistoricalCandles
  TestDataGenerator.generateRealtimeUpdate TestDataGenerator.generateOrderBook
  TestDataGenerator.getIntervalMs TestDataGenerator.getBasePriceForSymbol
  TestDataGenerator.new.

(** The first two steps of [subscribeToSymbol]: the set of the key is
    created if it is missing, and the connection is added to it. *)
Lemma subscribeToSymbol_steps (symbol interval : string) (ws : nat)
    (w : World S) :
  let key := (symbol ++ "_" ++ interval)%string in
  let clients := {[ws]} ∪ default ∅ (subscriptions (manager w) !! key) in
  let w1 :=
    set_manager w
      (mk (connections (manager w))
          (<[key := clients]> (subscriptions (manager w)))
          (dataGenerators (manager w)) (updateIntervals (manager w))) in
  subscribeToSymbol symbol interval ws w
  = if (size clients =? 1)%nat
    then detached (startDataStream symbol interval) w1
    else (Return tt, w1).
Proof.
  intros key clients w1. unfold subscribeToSymbol. fold key.
  unfold mbind, M_bind, bind, modify_manager, modify, get. cbn [fst snd].
  match goal with
  | |- context [set_manager (set_manager w ?m1) ?m2] =>
      assert (set_manager (set_manager w m1) m2 = w1) as ->
  end.
  { subst w1 clients. unfold set_manager. cbn [manager timers nextTimer store rng
      now openSockets sent errors].
    destruct (subscriptions (manager w) !! key) as [c|] eqn:E.
    - rewrite bool_decide_eq_true_2 by eauto. rewrite E. reflexivity.
    - rewrite bool_decide_eq_false_2 by (intros [? ?]; discriminate).
      cbn [subscriptions connections dataGenerators updateIntervals].
      rewrite lookup_insert_eq, insert_insert_eq. reflexivity. }
  assert (default ∅ (subscriptions (manager w1) !! key) = clients) as ->.
  { subst w1. cbn [set_manager manager subscriptions].
    rewrite lookup_insert_eq. reflexivity. }
  destruct (size clients =? 1)%nat; reflexivity.
Qed.

(** X18.  A further subscriber shares the stream.  When the key already
    has subscribers and a connection that is not among them subscribes,
    [subscribeToSymbol] adds the connection to the set of the key and
    does nothing else: no generator is touched, no candle is written, no
    timer is created, nothing is sent or logged. *)
Theorem subscribeToSymbol_joins (symbol interval : string) (ws : nat)
    (clients : gset nat) (w : World S) :
  let key := (symbol ++ "_" ++ interval)%string in
  subscriptions (manager w) !! key = Some clients ->
  clients <> ∅ -> ws ∉ clients ->
  subscribeToSymbol symbol interval ws w
  = (Return tt,
     set_manager w
       (mk (connections (manager w))
           (<[key := {[ws]} ∪ clients]> (subscriptions (manager w)))
           (dataGenerators (manager w)) (updateIntervals (manager w)))).
Proof.
  intros key Hsub Hne Hnew.
  rewrite subscribeToSymbol_steps. fold key. rewrite Hsub.
  change (default ∅ (Some clients)) with clients.
  rewrite size_union by set_solver. rewrite size_singleton.
  assert (size clients <> 0%nat) as Hsize.
  { intros H. apply size_empty_inv in H. apply Hne. apply leibniz_equiv. exact H. }
  destruct (size clients) as [|n]; [contradiction|]. reflexivity.
Qed.

(** The writes of a backfill into a store that rejects candles: the
    first write throws. *)
Lemma save_all_down (symbol interval : string) (candles : list CandleData.t)
    (w : World S) :
  candles <> [] ->
  (forall c, saveCandleData c (store w) = None) ->
  for_each candles
    (fun c => await_saveCandleData (insert_candle symbol interval c)) w
  = (Throw StorageError, w).
Proof.
  intros Hne Hdown. destruct candles as [|c cs]; [contradiction|].
  cbn [for_each]. apply bind_throw.
  unfold await_saveCandleData. rewrite Hdown. reflexivity.
Qed.

(** X19.  A subscription while the store is down.  When the first
    subscriber of a key arrives and the store rejects candle writes, the
    backfill of [startDataStream] fails on its first write: the
    connection is subscribed, the generator of the symbol exists, but no
    timer is created and no handle is registered under the key, and the
    failure is neither thrown to the caller nor logged.  The key is left
    without a stream. *)
Theorem subscribeToSymbol_store_down (symbol interval : string) (ws : nat)
    (w : World S) :
  let key := (symbol ++ "_" ++ interval)%string in
  subscriptions (manager w) !! key = None ->
  (forall c, saveCandleData c (store w) = None) ->
  let r := subscribeToSymbol symbol interval ws w in
  r.1 = Return tt /\
  subscriptions (manager r.2) = <[key := {[ws]}]> (subscriptions (manager w)) /\
  timers r.2 = timers w /\ nextTimer r.2 = nextTimer w /\
  updateIntervals (manager r.2) = updateIntervals (manager w) /\
  errors r.2 = errors w /\ sent r.2 = sent w /\ store r.2 = store w /\
  is_Some (dataGenerators (manager r.2) !! symbol).
Proof.
  intros key Hsub Hdown r. subst r.
  rewrite subscribeToSymbol_steps. fold key. rewrite Hsub.
  change (default ∅ None) with (∅ : gset nat).
  rewrite (right_id_L ∅ (∪)), size_singleton. cbn [Nat.eqb].
  set (w1 := set_manager w _).
  unfold detached. cbn [fst snd].
  unfold startDataStream. fold key.
  pose proof (getOrCreateGenerator_run symbol w1) as (E1 & S1 & St1 & R1 & G1).
  cbv zeta in E1, G1.
  destruct (getOrCreateGenerator symbol w1) as [o1 w2] eqn:Eg.
  cbn [fst snd] in *. subst o1. rewrite (bind_run _ _ _ _ _ Eg).
  match goal with
  | |- context [with_generator symbol ?g0 ?m] =>
      pose proof (with_generator_run symbol g0 m w2) as (E2 & S2 & St2 & R2 & G2);
      cbv zeta in E2, S2, St2, R2, G2;
      destruct (with_generator symbol g0 m w2) as [o2 w3] eqn:Ew
  end.
  cbn [fst snd] in *. subst o2. rewrite (bind_run _ _ _ _ _ Ew).
  match goal with
  | |- context [for_each ?cs ?body] =>
      assert (for_each cs body w3 = (Throw StorageError, w3)) as Hsave
  end.
  { apply save_all_down.
    - intros Hnil. apply (f_equal length) in Hnil.
      rewrite generateHistoricalCandles_length in Hnil. discriminate.
    - intros c. rewrite St2, St1. apply Hdown. }
  rewrite (bind_throw _ _ _ _ _ Hsave). cbn [fst snd].
  unfold same_streams in S1, S2. destruct_and!.
  subst w1. cbn [set_manager manager subscriptions updateIntervals timers
                 nextTimer errors sent store] in *.
  repeat split; try congruence.
  rewrite G2, lookup_insert_eq. eauto.
Qed.

Lemma recipients_spec (clients : gset nat) (w : World S) :
  NoDup (recipients clients w) /\
  forall client,
    In client (recipients clients w)
    <-> client ∈ clients /\ client ∈ openSockets w.
Proof.
  unfold recipients. split.
  - apply NoDup_ListNoDup, List.NoDup_filter, NoDup_ListNoDup, NoDup_elements.
  - intros client. rewrite filter_In, <- list_elem_of_In, elem_of_elements.
    rewrite bool_decide_eq_true. reflexivity.
Qed.

(** X20.  Whom a broadcast reaches.  [broadcastToSubscribers] on a key
    without subscription does nothing.  On a key with subscribers it
    sends the message once to every subscriber whose socket is open and
    to nobody else, and changes nothing but the frames sent. *)
Theorem broadcastToSubscribers_reach (key : string) (message : Frame)
    (w : World S) :
  let r := broadcastToSubscribers key message w in
  match subscriptions (manager w) !! key with
  | None => r = (Return tt, w)
  | Some clients =>
      r.1 = Return tt /\ only_sent w r.2 /\
      exists reached : list nat,
        sent r.2 = sent w ++ map (fun client => (client, message)) reached /\
        NoDup reached /\
        forall client,
          In client reached <-> client ∈ clients /\ client ∈ openSockets w
  end.
Proof.
  intros r. destruct (subscriptions (manager w) !! key) as [clients|] eqn:E.
  - destruct (broadcastToSubscribers_run key message clients w E)
      as (Hret & Honly & Hsent).
    split; [exact Hret|]. split; [exact Honly|].
    exists (recipients clients w). split; [exact Hsent|].
    apply recipients_spec.
  - subst r. unfold broadcastToSubscribers.
    unfold mbind, M_bind, bind, get. rewrite E. reflexivity.
Qed.

End HubSubscribers.

Lemma subscribeToSymbol_joins_witness :
  let w :=
    TradingDataManager.mkWorld
      (TradingDataManager.mk {[1%nat; 2%nat]} {["BTCUSDT_1m"%string := {[1%nat]}]}
         ∅ ∅)
      ∅ 0 true Sample.half_draws (Fin 0) {[1%nat; 2%nat]} [] [] in
  TradingDataManager.subscribeToSymbol "BTCUSDT" "1m" 2 w
  = (TradingDataManager.Return tt,
     TradingDataManager.set_manager w
       (TradingDataManager.mk {[1%nat; 2%nat]}
          (<["BTCUSDT_1m"%string := {[2%nat]} ∪ {[1%nat]}]>
             {["BTCUSDT_1m"%string := {[1%nat]}]})
          ∅ ∅)).
Proof.
  cbv zeta.
  apply (subscribeToSymbol_joins "BTCUSDT" "1m" 2 {[1%nat]}).
  - apply lookup_singleton_eq.
  - apply non_empty_singleton_L.
  - apply not_elem_of_singleton. discriminate.
Defined.

Lemma subscribeToSymbol_store_down_witness :
  let w :=
    TradingDataManager.mkWorld (TradingDataManager.mk {[1%nat]} ∅ ∅ ∅)
      ∅ 0 false Sample.half_draws (Fin 0) {[1%nat]} [] [] in
  let r := TradingDataManager.subscribeToSymbol "BTCUSDT" "1m" 1 w in
  r.1 = TradingDataManager.Return tt /\
  TradingDataManager.timers r.2 = ∅ /\
  TradingDataManager.errors r.2 = [].
Proof.
  cbv zeta.
  pose proof (subscribeToSymbol_store_down "BTCUSDT" "1m" 1
                (TradingDataManager.mkWorld (TradingDataManager.mk {[1%nat]} ∅ ∅ ∅)
                   ∅ 0 false Sample.half_draws (Fin 0) {[1%nat]} [] [])
                (lookup_empty _) (fun c => eq_refl)) as H.
  cbv zeta in H. destruct H as (Hret & _ & Htimers & _ & _ & Herrors & _).
  split; [exact Hret|]. split; [exact Htimers | exact Herrors].
Defined.

(** ** The stream hub: what a run of the callback leaves alone *)

Section HubFrame.
Import TradingDataManager Shape.
Context {S : Type} {storage : IStorage S}.

Local Opaque TestDataGenerator.generateHistoricalCandles
  TestDataGenerator.generateRealtimeUpdate TestDataGenerator.generateOrderBook
  TestDataGenerator.getIntervalMs TestDataGenerator.getBasePriceForSymbol
  TestDataGenerator.new.

Variable symbol : string.

Lemma stream_frame_refl (w : World S) : stream_frame symbol w w.
Proof. unfold stream_frame. repeat split. Qed.

Lemma stream_frame_trans (w1 w2 w3 : World S) :
  stream_frame symbol w1 w2 -> stream_frame symbol w2 w3 ->
  stream_frame symbol w1 w3.
Proof.
  unfold stream_frame. intros H1 H2. destruct_and!.
  repeat split; try congruence.
  intros other Hne.
  match goal with
  | Ha : forall other, _ -> dataGenerators (manager w3) !! other = _,
    Hb : forall other, _ -> dataGenerators (manager w2) !! other = _ |- _ =>
      rewrite (Ha other Hne); exact (Hb other Hne)
  end.
Qed.

Lemma bind_keeps {A B} (m : M S A) (k : A -> M S B) :
  (forall w, stream_frame symbol w (m w).2) ->
  (forall a w, stream_frame symbol w (k a w).2) ->
  forall w : World S, stream_frame symbol w ((m ≫= k) w).2.
Proof.
  intros Hm Hk w. unfold mbind, M_bind, bind.
  specialize (Hm w). destruct (m w) as [[a|e] w']; cbn [snd] in *.
  - eapply stream_frame_trans; [exact Hm | apply Hk].
  - exact Hm.
Qed.

Lemma try_catch_keeps {A} (m : M S A) (handler : Error -> M S A) :
  (forall w, stream_frame symbol w (m w).2) ->
  (forall e w, stream_frame symbol w (handler e w).2) ->
  forall w : World S, stream_frame symbol w (try_catch m handler w).2.
Proof.
  intros Hm Hh w. unfold try_catch.
  specialize (Hm w). destruct (m w) as [[a|e] w']; cbn [snd] in *.
  - exact Hm.
  - eapply stream_frame_trans; [exact Hm | apply Hh].
Qed.

Lemma for_each_keeps {A} (l : list A) (body : A -> M S unit) :
  (forall x w, stream_frame symbol w (body x w).2) ->
  forall w : World S, stream_frame symbol w (for_each l body w).2.
Proof.
  intros Hbody. induction l as [|x l IH]; intros w.
  - apply stream_frame_refl.
  - cbn [for_each]. apply bind_keeps; [apply Hbody | intros _; exact IH].
Qed.

Lemma with_generator_keeps {A} (g : TestDataGenerator.t)
    (method : TestDataGenerator.t -> Rng -> A * TestDataGenerator.t * Rng) :
  forall w : World S, stream_frame symbol w (with_generator symbol g method w).2.
Proof.
  intros w.
  destruct (with_generator_run symbol g method w) as (_ & Hs & _ & _ & Hg).
  unfold same_streams in Hs. unfold stream_frame. destruct_and!.
  repeat split; try assumption.
  intros other Hne. rewrite Hg. apply lookup_insert_ne. congruence.
Qed.

Lemma await_saveCandleData_keeps (c : InsertCandle.t) :
  forall w : World S, stream_frame symbol w (await_saveCandleData c w).2.
Proof.
  intros w. unfold await_saveCandleData.
  destruct (saveCandleData c (store w)); unfold stream_frame; repeat split.
Qed.

Lemma await_saveOrderBookData_keeps (b : InsertOrderBook.t) :
  forall w : World S, stream_frame symbol w (await_saveOrderBookData b w).2.
Proof.
  intros w. unfold await_saveOrderBookData.
  destruct (saveOrderBookData b (store w)); unfold stream_frame; repeat split.
Qed.

Lemma broadcastToSubscribers_keeps (key : string) (message : Frame) :
  forall w : World S, stream_frame symbol w (broadcastToSubscribers key message w).2.
Proof.
  intros w.
  destruct (subscriptions (manager w) !! key) as [clients|] eqn:E.
  - destruct (broadcastToSubscribers_run key message clients w E)
      as (_ & Honly & _).
    unfold only_sent in Honly. unfold stream_frame. destruct_and!.
    repeat split; try congruence.
  - unfold broadcastToSubscribers, mbind, M_bind, bind, get. rewrite E.
    apply stream_frame_refl.
Qed.

Lemma tick_body_keeps (interval key : string) (g : TestDataGenerator.t) :
  forall w : World S, stream_frame symbol w (tick_body symbol interval key g w).2.
Proof.
  unfold tick_body.
  apply bind_keeps; [apply with_generator_keeps|].
  intros [[candle|] g']; [|intros w; apply stream_frame_refl].
  apply bind_keeps; [apply await_saveCandleData_keeps|]. intros _.
  apply bind_keeps; [intros w; apply stream_frame_refl|]. intros w0.
  apply bind_keeps; [apply with_generator_keeps|]. intros [book g''].
  apply bind_keeps; [apply await_saveOrderBookData_keeps|]. intros _.
  apply bind_keeps; [apply broadcastToSubscribers_keeps|]. intros _.
  apply broadcastToSubscribers_keeps.
Qed.

(** X21.  What a run of the timer callback leaves alone.  A run of the
    callback of a stream always returns; it never changes the
    connections, the subscriptions, the registered handles, the timers or
    the generators of other symbols; and when its key has no
    subscription it changes nothing at all, so a timer whose key is gone
    idles. *)
Theorem tick_frame (interval key : string) (w : World S) :
  let r := tick symbol interval key w in
  r.1 = Return tt /\ stream_frame symbol w r.2 /\
  match subscriptions (manager w) !! key with
  | None => r.2 = w
  | Some _ => True
  end.
Proof.
  intros r. subst r. unfold tick.
  rewrite (bind_run get _ w w w eq_refl).
  destruct (subscriptions (manager w) !! key) as [clients|] eqn:E.
  - rewrite bool_decide_eq_true_2 by eauto. cbn [negb].
    destruct (dataGenerators (manager w) !! symbol) as [g|].
    + split; [|split; [|exact I]].
      * unfold try_catch.
        destruct (tick_body symbol interval key g w) as [[[]|e] w']; reflexivity.
      * apply try_catch_keeps; [apply tick_body_keeps|].
        intros e w'. unfold stream_frame. repeat split.
    + split; [reflexivity|]. split; [apply stream_frame_refl | exact I].
  - rewrite bool_decide_eq_false_2 by (intros [? ?]; discriminate). cbn [negb].
    split; [reflexivity|]. split; [apply stream_frame_refl | reflexivity].
Qed.

End HubFrame.

(** ** The stream hub: a connection leaves *)

Section HubLeave.
Import TradingDataManager Shape.
Context {S : Type}.

Variable ws : nat.

(** The body of the loop of [removeConnection] on one entry. *)
Lemma leave_entry (key : string) (clients : gset nat) (w : World S) :
  let body :=
    (fun '(symbol, clients) =>
       let clients := clients ∖ {[ws]} in
       modify_manager (fun m =>
         mk (connections m) (<[symbol := clients]> (subscriptions m))
            (dataGenerators m) (updateIntervals m)) ;;
       if (size clients =? 0)%nat then stopDataStream symbol else ret tt)
      : string * gset nat -> M S unit in
  let r := body (key, clients) w in
  r.1 = Return tt /\
  subscriptions (manager r.2)
    = match remaining ws clients with
      | Some rest => <[key := rest]> (subscriptions (manager w))
      | None => delete key (subscriptions (manager w))
      end /\
  updateIntervals (manager r.2)
    = match remaining ws clients with
      | Some _ => updateIntervals (manager w)
      | None => delete key (updateIntervals (manager w))
      end /\
  timers r.2
    = match orphan ws (updateIntervals (manager w)) (key, clients) with
      | Some handle => delete handle (timers w)
      | None => timers w
      end /\
  connections (manager r.2) = connections (manager w) /\
  dataGenerators (manager r.2) = dataGenerators (manager w) /\
  nextTimer r.2 = nextTimer w /\ store r.2 = store w /\ rng r.2 = rng w /\
  now r.2 = now w /\ openSockets r.2 = openSockets w /\ sent r.2 = sent w /\
  errors r.2 = errors w.
Proof.
  cbv zeta. unfold remaining, orphan. cbn [fst snd].
  unfold mbind, M_bind, bind, modify_manager, modify, get. cbn [fst snd].
  destruct (size (clients ∖ {[ws]}) =? 0)%nat.
  - unfold stopDataStream.
    unfold mbind, M_bind, bind, modify_manager, modify, get, ret. cbn [fst snd].
    cbn [set_manager manager subscriptions updateIntervals connections].
    destruct (updateIntervals (manager w) !! key) as [handle|] eqn:E.
    + unfold clearInterval, modify. cbn. repeat split.
      apply delete_insert_eq.
    + cbn. repeat split.
      * apply delete_insert_eq.
      * symmetry. apply delete_id. exact E.
  - cbn. repeat split.
Qed.

Lemma leave_loop (l : list (string * gset nat)) :
  NoDup l.*1 ->
  forall w : World S,
    let body :=
      (fun '(symbol, clients) =>
         let clients := clients ∖ {[ws]} in
         modify_manager (fun m =>
           mk (connections m) (<[symbol := clients]> (subscriptions m))
              (dataGenerators m) (updateIntervals m)) ;;
         if (size clients =? 0)%nat then stopDataStream symbol else ret tt)
        : string * gset nat -> M S unit in
    let r := for_each l body w in
    let entries : gmap string (gset nat) := list_to_map l in
    r.1 = Return tt /\
    (forall key,
       subscriptions (manager r.2) !! key
       = match entries !! key with
         | Some clients => remaining ws clients
         | None => subscriptions (manager w) !! key
         end) /\
    (forall key,
       updateIntervals (manager r.2) !! key
       = match entries !! key with
         | Some clients =>
             _ ← remaining ws clients; updateIntervals (manager w) !! key
         | None => updateIntervals (manager w) !! key
         end) /\
    (forall handle,
       timers r.2 !! handle
       = if bool_decide
              (handle ∈ omap (orphan ws (updateIntervals (manager w))) l)
         then None else timers w !! handle) /\
    connections (manager r.2) = connections (manager w) /\
    dataGenerators (manager r.2) = dataGenerators (manager w) /\
    nextTimer r.2 = nextTimer w /\ store r.2 = store w /\ rng r.2 = rng w /\
    now r.2 = now w /\ openSockets r.2 = openSockets w /\ sent r.2 = sent w /\
    errors r.2 = errors w.
Proof.
  induction l as [|[k c] l IH]; intros Hnd w.
  - cbn. repeat split.
  - cbn [fmap list_fmap fst] in Hnd. apply NoDup_cons in Hnd.
    destruct Hnd as [Hk Hnd]. cbv zeta. cbn [for_each].
    pose proof (leave_entry k c w) as Hentry. cbv zeta in Hentry.
    match type of Hentry with
    | (?b (k, c) w).1 = _ /\ _ => destruct (b (k, c) w) as [o w1] eqn:Ebody
    end.
    cbn [fst snd] in Hentry.
    destruct Hentry as (Ho & Hsub1 & Hint1 & Htim1 & Hframe1). subst o.
    rewrite (bind_run _ _ _ _ _ Ebody).
    specialize (IH Hnd w1). cbv zeta in IH.
    destruct IH as (Hret & Hsub & Hint & Htim & Hframe).
    split; [exact Hret|].
    assert ((list_to_map l : gmap string (gset nat)) !! k = None) as Hfresh.
    { apply not_elem_of_list_to_map_1. exact Hk. }
    assert (forall key, key <> k ->
              updateIntervals (manager w1) !! key
              = updateIntervals (manager w) !! key) as Hint_ne.
    { intros key Hne. rewrite Hint1.
      destruct (remaining ws c); [reflexivity|].
      apply lookup_delete_ne. congruence. }
    split; [|split; [|split]].
    + intros key. rewrite Hsub. cbn [list_to_map foldr uncurry fst snd].
      destruct (decide (key = k)) as [->|Hne].
      * rewrite Hfresh, lookup_insert_eq, Hsub1.
        destruct (remaining ws c);
          [apply lookup_insert_eq | apply lookup_delete_eq].
      * rewrite lookup_insert_ne by congruence.
        destruct (list_to_map l !! key); [reflexivity|].
        rewrite Hsub1.
        destruct (remaining ws c);
          [apply lookup_insert_ne | apply lookup_delete_ne]; congruence.
    + intros key. rewrite Hint. cbn [list_to_map foldr uncurry fst snd].
      destruct (decide (key = k)) as [->|Hne].
      * rewrite Hfresh, lookup_insert_eq, Hint1.
        destruct (remaining ws c); [reflexivity | apply lookup_delete_eq].
      * rewrite lookup_insert_ne by congruence.
        rewrite (Hint_ne key Hne). reflexivity.
    + intros handle. rewrite Htim. cbn [omap list_omap].
      assert (omap (orphan ws (updateIntervals (manager w1))) l
              = omap (orphan ws (updateIntervals (manager w))) l) as ->.
      { apply list_omap_ext. apply Forall2_same_length_lookup_2; [reflexivity|].
        intros i [k1 c1] [k2 c2] H1 H2. rewrite H1 in H2. injection H2 as <- <-.
        unfold orphan. cbn [fst snd].
        destruct (size (c1 ∖ {[ws]}) =? 0)%nat; [|reflexivity].
        apply Hint_ne. intros ->. apply Hk.
        apply list_elem_of_fmap. exists (k, c1). split; [reflexivity|].
        eapply list_elem_of_lookup_2. exact H1. }
      rewrite Htim1.
      destruct (orphan ws (updateIntervals (manager w)) (k, c)) as [h|].
      * destruct (decide (handle = h)) as [->|Hne].
        -- rewrite (bool_decide_eq_true_2 (h ∈ h :: _))
             by apply list_elem_of_here.
           rewrite lookup_delete_eq.
           destruct (bool_decide _); reflexivity.
        -- rewrite lookup_delete_ne by congruence.
           destruct (decide
                       (handle ∈ omap (orphan ws (updateIntervals (manager w))) l))
             as [Hin|Hout].
           ++ rewrite !bool_decide_eq_true_2;
                [reflexivity | apply list_elem_of_further; exact Hin | exact Hin].
           ++ rewrite !bool_decide_eq_false_2; [reflexivity| |exact Hout].
              intros H. apply elem_of_cons in H.
              destruct H; [congruence | contradiction].
      * reflexivity.
    + destruct_and!. repeat split; congruence.
Qed.

(** X22.  A connection leaves.  [removeConnection(ws)] returns, removes
    [ws] from the connections and from the client set of every key, drops
    every key whose client set is then empty together with the handle
    registered under it, and clears the timers of exactly those handles.
    Afterwards no client set contains [ws] and none is empty; the keys
    that keep clients keep their handle; generators, store, random
    source, frames sent and errors logged are not touched. *)
Theorem removeConnection_leaves (w : World S) :
  let r := removeConnection ws w in
  r.1 = Return tt /\
  connections (manager r.2) = connections (manager w) ∖ {[ws]} /\
  (forall key,
     subscriptions (manager r.2) !! key
     = (subscriptions (manager w) !! key) ≫= remaining ws) /\
  (forall key clients,
     subscriptions (manager r.2) !! key = Some clients ->
     (ws ∉ clients) /\ clients <> ∅) /\
  (forall key,
     updateIntervals (manager r.2) !! key
     = match subscriptions (manager w) !! key with
       | Some clients =>
           _ ← remaining ws clients; updateIntervals (manager w) !! key
       | None => updateIntervals (manager w) !! key
       end) /\
  (forall handle,
     timers r.2 !! handle
     = if bool_decide (handle ∈ orphaned ws (manager w)) then None
       else timers w !! handle) /\
  dataGenerators (manager r.2) = dataGenerators (manager w) /\
  nextTimer r.2 = nextTimer w /\ store r.2 = store w /\ rng r.2 = rng w /\
  sent r.2 = sent w /\ errors r.2 = errors w.
Proof.
  intros r. subst r. unfold removeConnection.
  unfold mbind at 1 2, M_bind at 1 2, bind at 1 2, modify_manager at 1, modify at 1,
    get at 1.
  cbn [fst snd].
  set (w0 := set_manager w _).
  pose proof (leave_loop (map_to_list (subscriptions (manager w0)))
                (NoDup_fst_map_to_list _) w0) as H.
  cbv zeta in H. rewrite list_to_map_to_list in H.
  destruct H as (Hret & Hsub & Hint & Htim & Hc & Hg & Hn & Hs & Hr & _ & _ & Hsent & Herr).
  assert (forall key,
            subscriptions
              (manager
                 (for_each (map_to_list (subscriptions (manager w0)))
                    (fun '(symbol, clients) =>
                       let clients := clients ∖ {[ws]} in
                       modify_manager (fun m =>
                         mk (connections m)
                            (<[symbol := clients]> (subscriptions m))
                            (dataGenerators m) (updateIntervals m)) ;;
                       if (size clients =? 0)%nat then stopDataStream symbol
                       else ret tt) w0).2) !! key
            = (subscriptions (manager w) !! key) ≫= remaining ws) as Hsub'.
  { intros key. rewrite Hsub.
    change (subscriptions (manager w0)) with (subscriptions (manager w)).
    destruct (subscriptions (manager w) !! key); reflexivity. }
  split; [exact Hret|]. split; [exact Hc|]. split; [exact Hsub'|].
  split; [|split; [|split; [|repeat split; assumption]]].
  - intros key clients Hk. rewrite Hsub' in Hk.
    destruct (subscriptions (manager w) !! key) as [c|]; [|discriminate].
    cbn in Hk. unfold remaining in Hk.
    destruct (size (c ∖ {[ws]}) =? 0)%nat eqn:E; [discriminate|].
    injection Hk as <-.
    split; [apply not_elem_of_difference; right; apply elem_of_singleton;
            reflexivity|].
    intros Hempty. rewrite Hempty, size_empty in E. discriminate.
  - intros key. rewrite Hint. reflexivity.
  - intros handle. rewrite Htim. reflexivity.
Qed.

End HubLeave.

(** ** The stream hub: historical data *)

Section HubHistory.
Import TradingDataManager Shape.
Context {S : Type} {storage : IStorage S} {query : IStorageQuery S}.

Local Opaque TestDataGenerator.generateHistoricalCandles
  TestDataGenerator.generateRealtimeUpdate TestDataGenerator.generateOrderBook
  TestDataGenerator.getIntervalMs TestDataGenerator.getBasePriceForSymbol
  TestDataGenerator.new.

(** X23.  [getHistoricalData].  A read that rejects is logged and
    thrown on, and changes nothing else.  Stored candles, when there is
    at least one, are returned with the stored book, and nothing is
    changed: no generator is created or moved.  Only when no candle is
    stored are [limit] candles made by the generator of the symbol, which
    is created if needed; they come with a book of that generator at the
    price the backfill ends on, and the backfill moves the generator:
    the live price of the symbol afterwards is the close of the last
    candle made.  The store, the timers, the subscriptions and the frames
    sent are not touched. *)
Theorem getHistoricalData_cases (symbol interval : string) (limit : option nat)
    (w : World S) :
  let n := default 200%nat limit in
  let r := getHistoricalData symbol interval limit w in
  let failed :=
    (Throw StorageError,
     mkWorld (manager w) (timers w) (nextTimer w) (store w) (rng w) (now w)
       (openSockets w) (sent w) (errors w ++ [StorageError])) in
  match getCandleData symbol interval n (store w) with
  | None => r = failed
  | Some cached =>
      match getOrderBookData symbol (store w) with
      | None => r = failed
      | Some book =>
          if (0 <? length cached)%nat then
            r = (Return (HistoricalData.mk cached book symbol interval), w)
          else
            let g0 :=
              default
                (TestDataGenerator.new
                   (TestDataGenerator.getBasePriceForSymbol symbol) (now w))
                (dataGenerators (manager w) !! symbol) in
            let made :=
              TestDataGenerator.generateHistoricalCandles g0 n interval (rng w) in
            let quoted :=
              TestDataGenerator.generateOrderBook made.1.2 50 true (now w)
                made.2 in
            r.1 = Return (HistoricalData.mk made.1.1 (Some quoted.1) symbol
                            interval) /\
            length made.1.1 = n /\
            dataGenerators (manager r.2)
              = <[symbol := made.1.2]> (dataGenerators (manager w)) /\
            rng r.2 = quoted.2 /\
            same_streams w r.2 /\ store r.2 = store w
      end
  end.
Proof.
  intros n r failed. subst r failed. unfold getHistoricalData. fold n.
  unfold try_catch.
  destruct (getCandleData symbol interval n (store w)) as [cached|] eqn:Ec.
  2: { rewrite (bind_throw _ _ w w StorageError)
         by (unfold await_getCandleData; rewrite Ec; reflexivity).
       reflexivity. }
  rewrite (bind_run _ _ w w cached)
    by (unfold await_getCandleData; rewrite Ec; reflexivity).
  destruct (getOrderBookData symbol (store w)) as [book|] eqn:Eb.
  2: { rewrite (bind_throw _ _ w w StorageError)
         by (unfold await_getOrderBookData; rewrite Eb; reflexivity).
       reflexivity. }
  rewrite (bind_run _ _ w w book)
    by (unfold await_getOrderBookData; rewrite Eb; reflexivity).
  destruct (0 <? length cached)%nat; [reflexivity|].
  cbv zeta.
  pose proof (getOrCreateGenerator_run symbol w) as (E1 & S1 & St1 & R1 & G1).
  cbv zeta in E1, G1.
  destruct (getOrCreateGenerator symbol w) as [o1 w1] eqn:Eg.
  cbn [fst snd] in *. subst o1. rewrite (bind_run _ _ _ _ _ Eg).
  set (g0 := default _ (dataGenerators (manager w) !! symbol)) in *.
  pose proof (with_generator_run symbol g0
                (fun g r =>
                   TestDataGenerator.generateHistoricalCandles g n interval r) w1)
    as (E2 & S2 & St2 & R2 & G2).
  cbv zeta in E2, S2, St2, R2, G2.
  destruct (with_generator symbol g0 _ w1) as [o2 w2] eqn:Ew.
  cbn [fst snd] in *. subst o2. rewrite (bind_run _ _ _ _ _ Ew).
  rewrite R1 in R2, G2 |- *.
  set (made := TestDataGenerator.generateHistoricalCandles g0 n interval (rng w))
    in *.
  cbv beta iota. rewrite (bind_run get _ w2 w2 w2 eq_refl).
  assert (now w2 = now w) as Hnow.
  { unfold same_streams in S1, S2. destruct_and!. congruence. }
  rewrite Hnow.
  pose proof (with_generator_run symbol made.1.2
                (fun g r =>
                   let '(b, r0) :=
                     TestDataGenerator.generateOrderBook g 50 true (now w) r in
                   (b, g, r0)) w2) as (E3 & S3 & St3 & R3 & G3).
  cbv zeta in E3, S3, St3, R3, G3.
  destruct (with_generator symbol made.1.2 _ w2) as [o3 w3] eqn:Ew3.
  cbn [fst snd] in *. subst o3. rewrite (bind_run _ _ _ _ _ Ew3).
  rewrite R2 in R3, G3 |- *.
  destruct (TestDataGenerator.generateOrderBook made.1.2 50 true (now w) made.2)
    as [quote rng3] eqn:Eq.
  cbn [fst snd] in *.
  unfold ret. cbv beta iota. cbn [fst snd].
  split; [reflexivity|].
  split; [apply generateHistoricalCandles_length|].
  split; [rewrite G3, G2, G1, !insert_insert_eq; reflexivity|].
  split; [exact R3|].
  split; [|congruence].
  eapply same_streams_trans; [exact S1|].
  eapply same_streams_trans; [exact S2 | exact S3].
Qed.

End HubHistory.

(** ** The volume profile of candles whose clusters lie inside them *)

Section ProfileComplete.
Import ClusterEngine Spec Shape.
Import JS (qmax, qmin).
Local Open Scope Q_scope.

(** The lowest low and the highest high of candles with finite lows and
    highs bound the lows and highs of all of them. *)
Lemma profile_bounds (candles : list CandleData.t) :
  candles <> [] ->
  Forall (fun c => exists l h, CandleData.low c = Fin l /\ CandleData.high c = Fin h)
    candles ->
  exists m M,
    profile_min candles = Fin m /\
    JS.max_list (map CandleData.high candles) = Fin M /\
    Forall (fun c => exists l h,
              CandleData.low c = Fin l /\ CandleData.high c = Fin h /\
              m <= l /\ h <= M) candles.
Proof.
  unfold profile_min.
  induction candles as [|c cs IH]; intros Hne HF; [congruence|].
  inversion HF as [|? ? (l & h & Hl & Hh) HF']; subst.
  cbn [map JS.min_list JS.max_list foldr]. rewrite Hl, Hh.
  destruct cs as [|c' cs'].
  - exists l, h. cbn [map foldr]. split; [reflexivity|]. split; [reflexivity|].
    constructor; [|constructor]. exists l, h. repeat split; try assumption; lra.
  - destruct IH as (m & M & Hm & HM & Hall); [discriminate | exact HF'|].
    fold (JS.min_list (map CandleData.low (c' :: cs'))).
    fold (JS.max_list (map CandleData.high (c' :: cs'))).
    rewrite Hm, HM, min_Fin, max_Fin.
    destruct (qmin_spec l m) as (Hq1 & Hq2 & _).
    destruct (qmax_spec h M) as (Hx1 & Hx2 & _).
    exists (qmin l m), (qmax h M).
    split; [reflexivity|]. split; [reflexivity|].
    constructor.
    + exists l, h. repeat split; assumption.
    + eapply Forall_impl; [exact Hall|].
      intros c0 (l0 & h0 & Hl0 & Hh0 & Hml & HhM).
      exists l0, h0. repeat split; try assumption; lra.
Qed.

(** A price in [m, M) falls in one of the [n] buckets. *)
Lemma passes_inside (m M p : Q) (n : nat) (cluster : Cluster.t) :
  (1 <= n)%nat -> Cluster.price cluster = Fin p -> m <= p -> p < M ->
  passes (Fin m) ((Fin M - Fin m) / JS.of_nat n)%js n cluster = true.
Proof.
  intros Hn Hp Hmp HpM. unfold passes, JS.of_nat. rewrite Hp.
  set (N := inject_Z (Z.of_nat n)).
  assert (1 <= N) as HN.
  { subst N. change 1 with (inject_Z 1). rewrite <- Zle_Qle. lia. }
  assert (~ N == 0) as HN0 by lra.
  fin_arith.
  assert (0 < (M - m) / N) as Hstep by (apply Qlt_shift_div_l; lra).
  assert (~ (M - m) / N == 0) as Hstep0 by lra.
  fin_arith. cbn [JS.floor]. unfold JS.ge.
  set (x := (p - m) / ((M - m) / N)).
  assert (0 <= x) as Hx0.
  { subst x. apply Qle_shift_div_l; [exact Hstep | lra]. }
  assert (x < N) as HxN.
  { subst x. apply Qlt_shift_div_r; [exact Hstep|].
    assert (N * ((M - m) / N) == M - m) as -> by (field; exact HN0). lra. }
  apply andb_true_intro. split.
  - apply le_Fin. change 0 with (inject_Z 0). rewrite <- Zle_Qle.
    rewrite <- (Qfloor_Z 0). apply Qfloor_resp_le. exact Hx0.
  - apply lt_Fin. pose proof (Qfloor_le x). lra.
Qed.

Lemma all_clusters_in (candles : list CandleData.t) (cluster : Cluster.t) :
  In cluster (all_clusters candles) <->
  exists c, In c candles /\ In cluster (CandleData.clusters c).
Proof.
  unfold all_clusters. rewrite in_concat. split.
  - intros (l & Hl & Hin). apply in_map_iff in Hl.
    destruct Hl as (c & <- & Hc). eauto.
  - intros (c & Hc & Hin). exists (CandleData.clusters c).
    split; [apply in_map; exact Hc | exact Hin].
Qed.

(** X24.  The volume profile loses nothing when the clusters lie inside
    their candles.  For a non-empty list of candles with finite lows and
    highs, at least one level, and clusters of finite non-negative volume
    priced in [low, high) of their candle, every cluster falls in a
    bucket, and the volumes of the levels returned sum to the volumes of
    all clusters. *)
Theorem generateVolumeProfile_complete (candles : list CandleData.t)
    (levels : option nat) :
  candles <> [] -> (1 <= default 50%nat levels)%nat ->
  Forall clusters_within candles ->
  let result := generateVolumeProfile candles levels in
  List.filter (in_profile candles (default 50%nat levels)) (all_clusters candles)
  = all_clusters candles /\
  exists s t,
    profile_volume result = Fin s /\
    total_volume (all_clusters candles) = Fin t /\ s == t.
Proof.
  intros Hne Hn Hwithin result.
  set (n := default 50%nat levels) in *.
  assert (result = generateVolumeProfile candles (Some n)) as ->
    by (subst result n; destruct levels; reflexivity).
  assert (Forall cluster_nonneg (all_clusters candles)) as Hnonneg.
  { apply List.Forall_forall. intros cluster Hin.
    apply all_clusters_in in Hin. destruct Hin as (c & Hc & Hin).
    rewrite List.Forall_forall in Hwithin.
    destruct (Hwithin c Hc) as (l & h & _ & _ & Hcl).
    rewrite List.Forall_forall in Hcl. apply (Hcl cluster Hin). }
  destruct (profile_bounds candles Hne) as (m & M & Hm & HM & Hbounds).
  { eapply Forall_impl; [exact Hwithin|].
    intros c (l & h & Hl & Hh & _). eauto. }
  assert (List.filter (in_profile candles n) (all_clusters candles)
          = all_clusters candles) as Hall.
  { apply filter_all. apply List.Forall_forall. intros cluster Hin.
    apply all_clusters_in in Hin. destruct Hin as (c & Hc & Hin).
    rewrite List.Forall_forall in Hwithin, Hbounds.
    destruct (Hwithin c Hc) as (l & h & Hl & Hh & Hcl).
    destruct (Hbounds c Hc) as (l' & h' & Hl' & Hh' & Hml & HhM).
    rewrite Hl in Hl'. rewrite Hh in Hh'.
    injection Hl' as <-. injection Hh' as <-.
    rewrite List.Forall_forall in Hcl.
    destruct (Hcl cluster Hin) as (_ & p & Hp & Hlp & Hph).
    unfold in_profile, profile_step. rewrite Hm, HM.
    apply (passes_inside m M p n cluster Hn Hp); lra. }
  split; [exact Hall|].
  destruct (generateVolumeProfile_sums candles n Hne Hnonneg)
    as (Hlevels & _ & Hsum).
  rewrite Hall in Hsum.
  destruct (sum_qsum (level_volumes (generateVolumeProfile candles (Some n))))
    as (s & Hs & Hsq).
  { unfold level_volumes. apply Forall_map.
    eapply Forall_impl; [exact Hlevels|]. intros level. apply nonneg_finite. }
  destruct (sum_qsum (map Cluster.volume (all_clusters candles)))
    as (t & Ht & Htq).
  { apply Forall_map.
    eapply Forall_impl; [exact Hnonneg|]. intros cluster. apply nonneg_finite. }
  exists s, t. split; [exact Hs|]. split; [exact Ht|].
  rewrite Hsq, Htq. exact Hsum.
Qed.

Lemma generateVolumeProfile_complete_witness :
  let candles := [Sample.candle_with_inner_clusters] in
  let result := generateVolumeProfile candles None in
  List.filter (in_profile candles 50) (all_clusters candles)
  = all_clusters candles /\
  exists s t,
    profile_volume result = Fin s /\
    total_volume (all_clusters candles) = Fin t /\ s == t.
Proof.
  apply (generateVolumeProfile_complete [Sample.candle_with_inner_clusters] None).
  - discriminate.
  - cbn. lia.
  - constructor; [|constructor].
    exists 0, 50. split; [reflexivity|]. split; [reflexivity|].
    repeat constructor; cbn; try lra.
    + exists 12.5. repeat split; reflexivity || discriminate.
    + exists 37.5. repeat split; reflexivity || discriminate.
Defined.

End ProfileComplete.

(** ** The generator on top of the engine *)

Section GeneratorEngine.
Import ClusterEngine TestDataGenerator Spec Shape.
Local Open Scope Q_scope.

Lemma getCachedATR_truthy (e : ClusterEngine.t) (symbol : string) :
  JS.truthy (getCachedATR e symbol) = true.
Proof.
  unfold getCachedATR, JS.or_default.
  destruct (atrCache e !! symbol) as [a|]; [|reflexivity].
  destruct (JS.truthy a) eqn:E; [exact E | reflexivity].
Qed.

(** X25.  [generateClusters] never meets a zero ATR.  The cached ATR it
    reads is never zero, because [getCachedATR] falls back to 0.001; so
    when that ATR is finite, low < high, the total volume is positive,
    the buy volume finite, low + high > 0 and the draws lie in [0, 1), it
    returns between 5 and 25 clusters around the mid price, each priced
    strictly between low and high with a positive volume split into buy
    and sell, ordered by volume, largest first. *)
Theorem generateClusters_shape (this : TestDataGenerator.t) (l h T B : Q)
    (sell : number) (a : Q) (rng : Rng) :
  getCachedATR (clusterEngine this) "BTCUSDT" = Fin a ->
  l < h -> 0 < T -> 0 < l + h -> JS.unit_draws rng ->
  let clusters :=
    (generateClusters this (Fin l) (Fin h) (Fin T) (Fin B) sell rng).1 in
  ~ a == 0 /\
  (5 <= length clusters <= 25)%nat /\
  Forall (cluster_inside l h) clusters /\
  Sorted volume_desc clusters.
Proof.
  intros Hatr Hlh HT Hsum Hdraws clusters.
  assert (~ a == 0) as Ha.
  { pose proof (getCachedATR_truthy (clusterEngine this) "BTCUSDT") as Ht.
    rewrite Hatr in Ht. cbn [JS.truthy] in Ht.
    apply negb_true_iff, is_zero_false in Ht. exact Ht. }
  split; [exact Ha|].
  subst clusters. unfold generateClusters. rewrite Hatr.
  assert (~ 2 == 0) as H20 by lra.
  fin_arith.
  assert (0 < (l + h) / 2) as Hmid by (apply Qlt_shift_div_l; lra).
  split; [|split].
  - unfold generateAdaptiveClusters. rewrite mul_Fin, sub_Fin.
    destruct (optimal_clusters_range (h - l) (a * 0.5)) as (k & -> & Hk).
    { intros H. apply Ha. lra. }
    pose proof (adaptive_loop_volumes l h T (Fin B) ((l + h) / 2) k Hlh HT Hmid
                  adaptive_fuel 0 [] rng Hdraws) as Hloop.
    cbv zeta in Hloop.
    destruct (adaptive_loop adaptive_fuel (Fin l) (Fin h) (Fin T) (Fin B)
                (Fin ((l + h) / 2)) (Fin (h - l)) (JS.of_nat k)
                (Fin (h - l) / JS.of_nat k)%js 0 [] rng) as [made rng'].
    cbn [fst snd] in *.
    destruct Hloop as [_ Hlen]; [unfold adaptive_fuel; lia | lia | constructor |].
    rewrite (Permutation_length (sort_perm by_volume_desc made)), Hlen.
    cbn [length]. lia.
  - apply generateAdaptiveClusters_all; [exact Ha | exact Hdraws|].
    intros k i rng' _ Hik Hdraws'.
    apply adaptive_cluster_inside; assumption.
  - apply generateAdaptiveClusters_by_volume; assumption.
Qed.

Lemma generateClusters_shape_witness :
  let clusters :=
    (generateClusters Sample.generator (Fin 100) (Fin 110) (Fin 1000) (Fin 600)
       (Fin 400) Sample.half_draws).1 in
  ~ 0.001 == 0 /\
  (5 <= length clusters <= 25)%nat /\
  Forall (cluster_inside 100 110) clusters /\
  Sorted volume_desc clusters.
Proof.
  apply (generateClusters_shape Sample.generator 100 110 1000 600 (Fin 400)
           0.001 Sample.half_draws).
  - reflexivity.
  - reflexivity.
  - reflexivity.
  - reflexivity.
  - exact half_draws_unit.
Defined.







End GeneratorEngine.

(** ** Interval strings *)

Section Intervals.
Import JSString TestDataGenerator Shape.
Local Open Scope Q_scope.

Lemma digit_value_digit (d : nat) :
  (d < 10)%nat -> digit_value 10 (digit_char d) = Some (Z.of_nat d).
Proof.
  intros H. do 10 (destruct d as [|d]; [reflexivity|]). lia.
Qed.

Lemma numeral_cons (d : nat) (ds : list nat) (rest : string) :
  (numeral (d :: ds) ++ rest)%string
  = String (digit_char d) (numeral ds ++ rest)%string.
Proof. reflexivity. Qed.

(** The digits of a numeral are read to its value, up to the first
    character that is not a digit. *)
Lemma digits_numeral (ds : list nat) (rest : string) :
  Forall (fun d => (d < 10)%nat) ds ->
  forall acc : Z,
    digits 10 (Some acc) (numeral ds ++ rest)
    = digits 10
        (Some (fold_left (fun acc d => (10 * acc + Z.of_nat d)%Z) ds acc)) rest.
Proof.
  induction 1 as [|d ds Hd _ IH]; intros acc; [reflexivity|].
  rewrite numeral_cons. cbn [digits fold_left].
  rewrite (digit_value_digit d Hd).
  change (default 0%Z (Some acc)) with acc.
  apply IH.
Qed.

Lemma digits_numeral_start (d : nat) (ds : list nat) (rest : string) :
  Forall (fun d => (d < 10)%nat) (d :: ds) ->
  digits 10 None (numeral (d :: ds) ++ rest)
  = digits 10 (Some (numeral_value (d :: ds))) rest.
Proof.
  intros HF. inversion HF as [|? ? Hd HF']; subst.
  rewrite numeral_cons. cbn [digits].
  rewrite (digit_value_digit d Hd).
  change (default 0%Z None) with 0%Z.
  change (numeral_value (d :: ds))
    with (fold_left (fun acc d => (10 * acc + Z.of_nat d)%Z) ds
            (10 * 0 + Z.of_nat d)%Z).
  apply digits_numeral. exact HF'.
Qed.

(** A character that ends a numeral: not a digit, and not the [x] of a
    hexadecimal prefix. *)
Lemma parseInt_numeral (ds : list nat) (u : ascii) (rest : string) :
  ds <> [] -> Forall (fun d => (d < 10)%nat) ds ->
  digit_value 10 u = None -> u <> "x"%char -> u <> "X"%char ->
  parseInt (numeral ds ++ String u rest) = JS.number_value (numeral_value ds).
Proof.
  intros Hne HF Hu Hx HX.
  destruct ds as [|d ds]; [congruence|].
  pose proof (digits_numeral_start d ds (String u rest) HF) as Hdigits.
  cbn [digits] in Hdigits. rewrite Hu in Hdigits.
  assert (forall s : string,
            s = (numeral (d :: ds) ++ String u rest)%string ->
            parseInt s
            = match digits 10 None s with
              | Some z => JS.number_value (1 * z)
              | None => NaN
              end) as Hparse.
  { intros s ->. inversion HF as [|? ? Hd HF']; subst.
    unfold parseInt. rewrite numeral_cons.
    do 10 (destruct d as [|d];
           [destruct ds as [|d2 ds];
            [change (numeral [] ++ String u rest)%string with (String u rest);
             destruct u as [[] [] [] [] [] [] [] []];
             try reflexivity; congruence
            |rewrite numeral_cons; inversion HF' as [|? ? Hd2 _]; subst;
             do 10 (destruct d2 as [|d2]; [reflexivity|]); lia]
           |]).
    lia. }
  rewrite (Hparse _ eq_refl), Hdigits, Z.mul_1_l. reflexivity.
Qed.

Lemma slice_last1_append (s : string) (u : ascii) :
  slice_last1 (s ++ String u EmptyString) = String u EmptyString.
Proof.
  induction s as [|c s IH]; [reflexivity|].
  change (String c s ++ String u EmptyString)%string
    with (String c (s ++ String u EmptyString)%string).
  cbn [slice_last1].
  destruct (s ++ String u EmptyString)%string eqn:E; [|exact IH].
  destruct s; discriminate.
Qed.

(** The length of [value] units of [factor] seconds, within the exact
    integers. *)
Lemma interval_length (value factor : Z) :
  (0 < factor)%Z -> exact (value * factor) ->
  JS.rounded (JS.number_value value * Fin (inject_Z factor))%js
  = JS.of_Z (value * factor).
Proof.
  intros Hf Hexact.
  assert (exact value) as Hvalue.
  { unfold exact in *. rewrite Z.abs_mul in Hexact.
    assert ((Z.abs value * 1 <= Z.abs value * Z.abs factor)%Z)
      by (apply Z.mul_le_mono_nonneg_l; lia).
    lia. }
  rewrite (number_value_exact value Hvalue). unfold JS.of_Z at 1.
  rewrite mul_Fin. apply rounded_exact; [|exact Hexact].
  rewrite inject_Z_mult. reflexivity.
Qed.

(** X27.  The length of an interval.  For a decimal numeral followed by
    one of the units s, m, h, d, w, M, of 1, 60, 3600, 86400, 604800 and
    2629746 seconds, [getIntervalInSeconds] returns the value of the
    numeral times the length of the unit when that product is within
    2^53, and [getIntervalMs] a thousand times that when it is within
    2^53 too.  Leading zeros do not matter. *)
Theorem getIntervalInSeconds_numeral (ds : list nat) (unit : string)
    (factor : Z) :
  ds <> [] -> Forall (fun d => (d < 10)%nat) ds ->
  In (unit, factor) units ->
  exact (numeral_value ds * factor) ->
  getIntervalInSeconds (numeral ds ++ unit)
  = JS.of_Z (numeral_value ds * factor) /\
  (exact (numeral_value ds * factor * 1000) ->
   getIntervalMs (numeral ds ++ unit)
   = JS.of_Z (numeral_value ds * factor * 1000)).
Proof.
  intros Hne HF Hunit Hexact.
  set (value := JS.number_value (numeral_value ds)).
  assert (forall u : ascii,
            digit_value 10 u = None -> u <> "x"%char -> u <> "X"%char ->
            getIntervalInSeconds (numeral ds ++ String u EmptyString)
            = (let unit := String u EmptyString in
               if String.eqb unit "s" then value
               else if String.eqb unit "m" then JS.rounded (value * Fin 60)%js
               else if String.eqb unit "h" then JS.rounded (value * Fin 3600)%js
               else if String.eqb unit "d" then JS.rounded (value * Fin 86400)%js
               else if String.eqb unit "w" then JS.rounded (value * Fin 604800)%js
               else if String.eqb unit "M" then JS.rounded (value * Fin 2629746)%js
               else Fin 60)) as H.
  { intros u Hu Hx HX. unfold getIntervalInSeconds.
    rewrite (parseInt_numeral ds u EmptyString Hne HF Hu Hx HX).
    rewrite slice_last1_append. reflexivity. }
  assert (getIntervalInSeconds (numeral ds ++ unit)
          = JS.of_Z (numeral_value ds * factor)) as Hseconds.
  { unfold units in Hunit. cbn [In] in Hunit.
    destruct Hunit as [E|[E|[E|[E|[E|[E|[]]]]]]];
      injection E as <- <-; rewrite H by (reflexivity || discriminate);
      cbv zeta; cbn [String.eqb Ascii.eqb Bool.eqb];
      try (apply (interval_length (numeral_value ds)); [lia | exact Hexact]).
    subst value. rewrite Z.mul_1_r in *. apply number_value_exact, Hexact. }
  split; [exact Hseconds|]. intros Hms.
  unfold getIntervalMs. rewrite Hseconds. unfold JS.of_Z at 1.
  rewrite mul_Fin. apply rounded_exact; [|exact Hms].
  rewrite inject_Z_mult. reflexivity.
Qed.

Lemma getIntervalInSeconds_numeral_witness :
  (getIntervalInSeconds "15m" = JS.of_Z 900 /\
   getIntervalMs "15m" = JS.of_Z 900000) /\
  getIntervalInSeconds "05s" = JS.of_Z 5.
Proof.
  split.
  - destruct (getIntervalInSeconds_numeral [1; 5]%nat "m" 60) as [Hs Hms].
    + discriminate.
    + repeat constructor.
    + right. left. reflexivity.
    + apply Z.leb_le. reflexivity.
    + split; [exact Hs|]. apply Hms. apply Z.leb_le. reflexivity.
  - apply (getIntervalInSeconds_numeral [0; 5]%nat "s" 1).
    + discriminate.
    + repeat constructor.
    + left. reflexivity.
    + apply Z.leb_le. reflexivity.
Defined.

End Intervals.

(** ** The cluster cache and the price process *)

Section CacheInvisible.
Import ClusterEngine TestDataGenerator Shape.

Variable cache : gmap string (list CandleData.t * number).

Lemma shouldRefreshClusters_cache (e : ClusterEngine.t) (symbol : string)
    (p : number) :
  shouldRefreshClusters (set_clusterCache e cache) symbol p
  = ((shouldRefreshClusters e symbol p).1,
     set_clusterCache (shouldRefreshClusters e symbol p).2 cache).
Proof.
  unfold shouldRefreshClusters. cbn [set_clusterCache lastProcessedPrice].
  destruct (lastProcessedPrice e !! symbol) as [lastPrice|]; [|reflexivity].
  destruct (negb (JS.truthy lastPrice)); [reflexivity|].
  destruct (JS.abs (p - lastPrice) / lastPrice >? PRICE_CHANGE_THRESHOLD)%js;
    reflexivity.
Qed.

Lemma generateSingleCandle_cache (g : TestDataGenerator.t)
    (time price : number) (interval : string) (rng : Rng) :
  generateSingleCandle (with_clusterCache g cache) time price interval rng
  = ((generateSingleCandle g time price interval rng).1.1,
     with_clusterCache (generateSingleCandle g time price interval rng).1.2 cache,
     (generateSingleCandle g time price interval rng).2).
Proof.
  unfold generateSingleCandle, with_clusterCache, set_engine.
  cbn [historicalCandles currentPrice currentTime priceHistory clusterEngine].
  destruct (generateEnhancedCandle time price interval (historicalCandles g) rng)
    as [candle rng'].
  reflexivity.
Qed.

Lemma historical_loop_cache (n : nat) (interval : string) :
  forall (g : TestDataGenerator.t) (candles : list CandleData.t)
         (time price : number) (rng : Rng),
    historical_loop n interval (with_clusterCache g cache) candles time price rng
    = let r := historical_loop n interval g candles time price rng in
      (r.1.1.1.1, r.1.1.1.2, r.1.1.2, with_clusterCache r.1.2 cache, r.2).
Proof.
  induction n as [|n IH]; intros g candles time price rng; [reflexivity|].
  cbn [historical_loop]. rewrite generateSingleCandle_cache.
  destruct (generateSingleCandle g time price interval rng)
    as [[candle g'] rng'].
  cbn [fst snd]. apply IH.
Qed.

(** X28.  The cluster cache is invisible to the price process.  The
    generator's [preloadHistoricalData] and [cleanupCache] change nothing
    but the cluster cache of its engine; and whatever that cache holds, a
    realtime update, a backfill and an order book come out the same, with
    the cache carried along unchanged.  So cache maintenance, such as the
    periodic cleanup, never alters a stream. *)
Theorem clusterCache_invisible (g : TestDataGenerator.t) (interval : string)
    (rng : Rng) :
  (forall now,
     TestDataGenerator.cleanupCache g now
     = with_clusterCache g
         (clusterCache (ClusterEngine.cleanupCache (clusterEngine g) now))) /\
  (forall show symbol i fromTime toTime now,
     (preloadHistoricalData show g symbol i fromTime toTime now).2
     = with_clusterCache g
         (clusterCache
            (preloadHistoricalClusters show (clusterEngine g) symbol i fromTime
               toTime now).2)) /\
  generateRealtimeUpdate (with_clusterCache g cache) interval rng
  = ((generateRealtimeUpdate g interval rng).1.1,
     with_clusterCache (generateRealtimeUpdate g interval rng).1.2 cache,
     (generateRealtimeUpdate g interval rng).2) /\
  (forall count,
     generateHistoricalCandles (with_clusterCache g cache) count interval rng
     = ((generateHistoricalCandles g count interval rng).1.1,
        with_clusterCache (generateHistoricalCandles g count interval rng).1.2
          cache,
        (generateHistoricalCandles g count interval rng).2)) /\
  (forall depth filtered now,
     generateOrderBook (with_clusterCache g cache) depth filtered now rng
     = generateOrderBook g depth filtered now rng).
Proof.
  split; [|split; [|split; [|split]]].
  - intros now. reflexivity.
  - intros show symbol i fromTime toTime now.
    unfold preloadHistoricalData, preloadHistoricalClusters.
    destruct (clusterCache (clusterEngine g)
                !! cacheKey show symbol i fromTime toTime)
      as [[data timestamp]|]; [|reflexivity].
    destruct (now - timestamp <? CACHE_TTL)%js; [|reflexivity].
    unfold with_clusterCache, set_engine, set_clusterCache. cbn [snd].
    destruct g as [p t h e c]. destruct e. reflexivity.
  - rewrite !generateRealtimeUpdate_steps. cbv zeta.
    assert (simulatePriceMovement (with_clusterCache g cache) rng
            = ((simulatePriceMovement g rng).1.1,
               with_clusterCache (simulatePriceMovement g rng).1.2 cache,
               (simulatePriceMovement g rng).2)) as -> by reflexivity.
    destruct (simulatePriceMovement g rng) as [[newPrice moved] rng1].
    cbn [fst snd].
    change (clusterEngine (with_clusterCache moved cache))
      with (set_clusterCache (clusterEngine moved) cache).
    rewrite shouldRefreshClusters_cache.
    destruct (shouldRefreshClusters (clusterEngine moved) "BTCUSDT" newPrice)
      as [refresh engine].
    cbn [fst snd].
    destruct refresh; cbn [negb]; [|reflexivity].
    change (set_engine (with_clusterCache moved cache)
              (set_clusterCache engine cache))
      with (with_clusterCache (set_engine moved engine) cache).
    change (currentTime (with_clusterCache (set_engine moved engine) cache))
      with (currentTime (set_engine moved engine)).
    rewrite generateSingleCandle_cache.
    destruct (generateSingleCandle (set_engine moved engine)
                (currentTime (set_engine moved engine)) newPrice interval rng1)
      as [[candle made] rng2].
    reflexivity.
  - intros count. unfold generateHistoricalCandles.
    change (currentTime (with_clusterCache g cache)) with (currentTime g).
    change (currentPrice (with_clusterCache g cache)) with (currentPrice g).
    destruct (JS.random rng) as [r rng0].
    rewrite historical_loop_cache. cbv zeta.
    destruct (historical_loop count interval g []
                (JS.rounded
                   (currentTime g
                    - JS.rounded
                        (JS.of_nat count * getIntervalInSeconds interval))%js)
                (currentPrice g * (Fin 0.95 + r * Fin 0.1))%js rng0)
      as [[[[candles time'] price'] g'] rng'].
    reflexivity.
  - intros depth filtered now. reflexivity.
Qed.

End CacheInvisible.

(** ** The volumes and the clusters of a candle of the engine *)

Section CandleVolumes.
Import ClusterEngine Spec Shape.
Import JS (qmax, qmin).
Local Open Scope Q_scope.

(** X29.  The volumes of a candle.  For a start price above zero, a
    history of candles with finite prices and draws in [0, 1), the candle
    of [generateEnhancedCandle] has a finite volume of at least 50 and a
    buy volume between 25% and 80% of it.  When the candle is green
    (close > open) the buy volume is at least 55% of the volume and delta
    is positive; otherwise the buy volume is below 55%. *)
Theorem generateEnhancedCandle_volumes (time : number) (p : Q)
    (interval : string) (history : list CandleData.t) (rng : Rng) :
  0 < p -> Forall finite_candle history -> JS.unit_draws rng ->
  let c := (generateEnhancedCandle time (Fin p) interval history rng).1 in
  exists v b : Q,
    CandleData.volume c = Fin v /\ CandleData.buyVolume c = Fin b /\
    50 <= v /\ 0.25 * v <= b /\ b < 0.8 * v /\
    if (CandleData.close c >? CandleData.open c)%js
    then 0.55 * v <= b /\ (CandleData.delta c >? Fin 0)%js = true
    else b < 0.55 * v.
Proof.
  intros Hp HF Hdraws.
  destruct (nonneg_Fin _ (calculateATR_nonneg _ HF)) as (a & Ha & Hapos).
  unfold generateEnhancedCandle, JS.random. rewrite Ha.
  cbn [fst snd draws cursor].
  match goal with
  | |- context [generateAdaptiveClusters ?l ?h ?v ?b ?s ?atr ?c ?r] =>
      destruct (generateAdaptiveClusters l h v b s atr c r) as [clusters rng']
  end.
  cbn [fst CandleData.open CandleData.close CandleData.volume
       CandleData.buyVolume CandleData.delta].
  name_draw rng (cursor rng) r0.
  name_draw rng (S (cursor rng)) r1.
  name_draw rng (S (S (S (S (S (cursor rng)))))) r5.
  name_draw rng (S (S (S (S (S (S (cursor rng))))))) r6.
  assert (~ p == 0) as Hp0 by lra.
  unfold JS.gt. fin_arith.
  match goal with
  | |- context [qmax ?x 1] => set (close := qmax x 1)
  end.
  match goal with
  | |- context [Qabs ?x] => pose proof (Qabs_nonneg x) as Habs; set (move := Qabs x) in *
  end.
  set (base := 50 + r5 * 150).
  set (v := base * (1 + move * 20)).
  assert (50 <= v) as Hv.
  { subst v.
    assert (0 <= base * (move * 20)) as Hextra
      by (apply Qmult_le_0_compat; subst base; lra).
    subst base. lra. }
  set (green := (Fin p <? Fin close)%js).
  set (ratio := if green then 0.55 + r6 * 0.25 else 0.25 + r6 * 0.3).
  assert (0.25 <= ratio /\ ratio < 0.8) as [Hlo Hhi]
    by (subst ratio; destruct green; split; lra).
  assert (v * 0.25 <= v * ratio) as Hb0 by (apply Qmult_le_l; lra).
  assert (v * ratio < v * 0.8) as Hb1 by (apply Qmult_lt_l; lra).
  exists v, (v * ratio).
  split; [reflexivity|]. split; [reflexivity|]. split; [exact Hv|].
  split; [lra|]. split; [lra|].
  subst ratio. destruct green.
  - assert (v * 0.55 <= v * (0.55 + r6 * 0.25)) as Hg
      by (apply Qmult_le_l; lra).
    split; [lra|]. apply lt_Fin. lra.
  - assert (v * (0.25 + r6 * 0.3) < v * 0.55) as Hr
      by (apply Qmult_lt_l; lra).
    lra.
Qed.

Lemma generateEnhancedCandle_volumes_witness :
  let c :=
    (generateEnhancedCandle (Fin 0) (Fin 100) "1m" [] Sample.half_draws).1 in
  exists v b : Q,
    CandleData.volume c = Fin v /\ CandleData.buyVolume c = Fin b /\
    50 <= v /\ 0.25 * v <= b /\ b < 0.8 * v /\
    if (CandleData.close c >? CandleData.open c)%js
    then 0.55 * v <= b /\ (CandleData.delta c >? Fin 0)%js = true
    else b < 0.55 * v.
Proof.
  apply (generateEnhancedCandle_volumes (Fin 0) 100 "1m" [] Sample.half_draws).
  - reflexivity.
  - constructor.
  - exact half_draws_unit.
Defined.

(** X30.  The clusters of a candle.  Under the same conditions, when
    the ATR of the history is not zero and the candle comes out with
    low < high, [generateEnhancedCandle] gives it between 5 and 25
    clusters, each priced strictly between the low and the high of the
    candle, with a positive volume split into buy and sell; so the volume
    profile counts every cluster of such a candle. *)
Theorem generateEnhancedCandle_clusters (time : number) (p : Q)
    (interval : string) (history : list CandleData.t) (rng : Rng) :
  0 < p -> Forall finite_candle history -> JS.unit_draws rng ->
  (calculateATR history None =? Fin 0)%js = false ->
  let c := (generateEnhancedCandle time (Fin p) interval history rng).1 in
  (CandleData.low c <? CandleData.high c)%js = true ->
  (5 <= length (CandleData.clusters c) <= 25)%nat /\
  (exists l h : Q,
     CandleData.low c = Fin l /\ CandleData.high c = Fin h /\
     Forall (cluster_inside l h) (CandleData.clusters c)) /\
  clusters_within c.
Proof.
  intros Hp HF Hdraws Hatr.
  destruct (nonneg_Fin _ (calculateATR_nonneg _ HF)) as (a & Ha & Hapos).
  rewrite Ha in Hatr. cbn [JS.eqb] in Hatr.
  assert (~ a == 0) as Ha0.
  { intros H. apply Qeq_bool_iff in H. congruence. }
  assert (0 < a) as Hapos'.
  { destruct (Qlt_le_dec 0 a) as [H|H]; [exact H|]. exfalso. apply Ha0. lra. }
  unfold generateEnhancedCandle, JS.random. rewrite Ha.
  cbn [fst snd draws cursor].
  name_draw rng (cursor rng) r0.
  name_draw rng (S (cursor rng)) r1.
  name_draw rng (S (S (cursor rng))) r2.
  name_draw rng (S (S (S (cursor rng)))) r3.
  name_draw rng (S (S (S (S (cursor rng))))) r4.
  name_draw rng (S (S (S (S (S (cursor rng)))))) r5.
  name_draw rng (S (S (S (S (S (S (cursor rng))))))) r6.
  assert (~ p == 0) as Hp0 by lra.
  unfold JS.gt. fin_arith.
  match goal with
  | |- context [qmax ?x 1] =>
      pose proof (qmax_spec x 1) as (_ & Hone & _); set (close := qmax x 1) in *
  end.
  match goal with
  | |- context [Qabs ?x] =>
      pose proof (Qabs_nonneg x) as Habs; set (move := Qabs x) in *
  end.
  set (base := 50 + r5 * 150).
  set (v := base * (1 + move * 20)).
  assert (0 < v) as Hv.
  { subst v. apply Qmult_lt_0_compat; subst base; lra. }
  set (green := (Fin p <? Fin close)%js).
  set (ratio := if green then 0.55 + r6 * 0.25 else 0.25 + r6 * 0.3).
  match goal with
  | |- context [generateAdaptiveClusters (Fin ?l) (Fin ?h) (Fin v) (Fin ?b)
                  (Fin ?s) (Fin a) (Fin close) ?r] =>
      set (low := l); set (high := h);
      pose proof (fun Hlh : low < high =>
                    generateAdaptiveClusters_all (cluster_inside low high)
                      low high v (Fin b) (Fin s) a close r Ha0
                      (fun n => Hdraws n)
                      (fun k i rng' _ Hik Hd =>
                         adaptive_cluster_inside low high v b close k i rng'
                           Hlh Hv ltac:(lra) Hik Hd)) as Hinside;
      pose proof (fun Hlh : low < high =>
                    generateAdaptiveClusters_volumes low high v (Fin b) (Fin s)
                      a close r Hlh Hv Hapos' ltac:(lra) (fun n => Hdraws n))
        as Hcount;
      destruct (generateAdaptiveClusters (Fin low) (Fin high) (Fin v) (Fin b)
                  (Fin s) (Fin a) (Fin close) r) as [clusters rng']
  end.
  cbn [fst CandleData.low CandleData.high CandleData.clusters] in *.
  intros Hlh. apply lt_Fin in Hlh.
  specialize (Hinside Hlh). specialize (Hcount Hlh).
  cbv zeta in Hcount. destruct Hcount as [Hlen _].
  split; [exact Hlen|]. split.
  - exists low, high. split; [reflexivity|]. split; [reflexivity | exact Hinside].
  - exists low, high. split; [reflexivity|]. split; [reflexivity|].
    eapply Forall_impl; [exact Hinside|].
    intros cluster (q & w & b' & s' & d & g & Hq & Hw & _ & _ & _ & _ & Hin).
    destruct Hin as (Hlq & Hqh & Hw0 & _).
    split.
    + unfold nonneg. rewrite Hw. lra.
    + exists q. split; [exact Hq|]. lra.
Qed.

Lemma generateEnhancedCandle_clusters_witness :
  let c :=
    (generateEnhancedCandle (Fin 0) (Fin 100) "1m" [] Sample.half_draws).1 in
  (5 <= length (CandleData.clusters c) <= 25)%nat /\ clusters_within c.
Proof.
  cbv zeta.
  destruct (generateEnhancedCandle_clusters (Fin 0) 100 "1m" []
              Sample.half_draws) as (Hlen & _ & Hwithin).
  - reflexivity.
  - constructor.
  - exact half_draws_unit.
  - reflexivity.
  - vm_compute. reflexivity.
  - split; [exact Hlen | exact Hwithin].
Defined.

End CandleVolumes.
